(** * TFC Doxa: the membership and role model of [lib/firestore.ts]

    A shallow embedding of the data-access functions of the church-community
    application (families, users, posts, requests) together with the part of
    the Firestore client they rely on, and the properties of the membership
    and role model proved (or refuted) against it.

    Modelling conventions.

    - Stored documents are schemaless, as Firestore holds them and as the
      code reads them (every [snap.data()] is cast to [any]): a document is
      a finite map from field names to JavaScript values.  Function
      parameters follow their TypeScript signatures.
    - Every function runs in the monad [M]: it threads the store and may
      throw.  A throw keeps the writes made before it, exactly as the
      awaited calls of the source do.
    - The store fails only where its contract says so: [updateDoc] on a
      missing document and [doc] on a path that is empty or not a string.
      Network and permission failures are outside the model, numbers are
      unbounded integers, and document ids are single path segments.
    - [serverTimestamp()] resolves to the store's clock, which advances at
      every write; [addDoc] draws an id that is not yet in the collection. *)

From stdpp Require Import gmap strings list fin_maps pretty.

Set Warnings "-register-all".

(** ** JavaScript values and Firestore documents *)

Inductive value :=
| VNull
| VBool (b : bool)
| VNum (n : Z)
| VStr (s : string)
| VTime (t : N)
| VArr (l : list value)
| VObj (m : gmap string value).

Abbreviation doc := (gmap string value).

(** A field of a write payload: a plain value or one of the two sentinels
    the source uses, [serverTimestamp()] and [increment(n)]. *)
Inductive fieldval :=
| Lit (v : value)
| ServerTimestamp
| Increment (n : Z).

Abbreviation payload := (gmap string fieldval).

Inductive coll :=
| Users | Families | Posts | Notifications | FamilyRequests | AdminRequests.

Inductive write :=
| WSet (c : coll) (id : string) (fields : payload)
| WAdd (c : coll) (id : string) (fields : payload)
| WUpdate (c : coll) (id : string) (fields : payload)
| WDelete (c : coll) (id : string).

Record store := Store {
  users : gmap string doc;
  families : gmap string doc;
  posts : gmap string doc;
  notifications : gmap string doc;
  familyRequests : gmap string doc;
  adminRequests : gmap string doc;
  clock : N;
  writes : list write
}.

Definition get_coll (c : coll) (s : store) : gmap string doc :=
  match c with
  | Users => users s
  | Families => families s
  | Posts => posts s
  | Notifications => notifications s
  | FamilyRequests => familyRequests s
  | AdminRequests => adminRequests s
  end.

Definition set_coll (c : coll) (m : gmap string doc) (s : store) : store :=
  match c with
  | Users => Store m (families s) (posts s) (notifications s) (familyRequests s) (adminRequests s) (clock s) (writes s)
  | Families => Store (users s) m (posts s) (notifications s) (familyRequests s) (adminRequests s) (clock s) (writes s)
  | Posts => Store (users s) (families s) m (notifications s) (familyRequests s) (adminRequests s) (clock s) (writes s)
  | Notifications => Store (users s) (families s) (posts s) m (familyRequests s) (adminRequests s) (clock s) (writes s)
  | FamilyRequests => Store (users s) (families s) (posts s) (notifications s) m (adminRequests s) (clock s) (writes s)
  | AdminRequests => Store (users s) (families s) (posts s) (notifications s) (familyRequests s) m (clock s) (writes s)
  end.

Definition logged (w : write) (s : store) : store :=
  Store (users s) (families s) (posts s) (notifications s) (familyRequests s)
        (adminRequests s) (N.succ (clock s)) (writes s ++ [w]).

Definition empty_store : store := Store ∅ ∅ ∅ ∅ ∅ ∅ 0 [].

(** ** Errors and the store monad *)

Inductive error :=
| Thrown (msg : string)
| FsNotFound
| FsInvalidArgument
| JsTypeError.

Inductive result (A : Type) :=
| Ok (a : A)
| Err (e : error).
Arguments Ok {A} a.
Arguments Err {A} e.

Definition M (A : Type) : Type := store → result A * store.

Definition ret {A} (a : A) : M A := λ s, (Ok a, s).

Definition throw {A} (e : error) : M A := λ s, (Err e, s).

Definition bind {A B} (m : M A) (k : A → M B) : M B :=
  λ s, match m s with
       | (Ok a, s') => k a s'
       | (Err e, s') => (Err e, s')
       end.

Definition lift {A} (r : result A) : M A := λ s, (r, s).

(** [try { await m } catch (e) { console.warn(e) }] *)
Definition try_ {A} (m : M A) : M unit := λ s, (Ok (), (m s).2).

Declare Scope fs_scope.
Delimit Scope fs_scope with fs.
Notation "x <- m ;; k" := (bind m (λ x, k))
  (at level 100, m at next level, right associativity) : fs_scope.
Notation "m ;;; k" := (bind m (λ _, k))
  (at level 100, right associativity) : fs_scope.
Open Scope fs_scope.

(** ** JavaScript operators used by the source *)

(** [v ?? d] on a property read: a missing property reads as [undefined]. *)
Definition nullish_or (o : option value) (d : value) : value :=
  match o with
  | None | Some VNull => d
  | Some v => v
  end.

Definition truthy (v : value) : bool :=
  match v with
  | VNull => false
  | VBool b => b
  | VNum n => negb (n =? 0)%Z
  | VStr s => negb (String.eqb s "")
  | VTime _ | VArr _ | VObj _ => true
  end.

(** Truthiness of a property read, [undefined] being falsy. *)
Definition truthy_opt (o : option value) : bool :=
  match o with
  | Some v => truthy v
  | None => false
  end.

(** [string | null] arguments as values. *)
Definition of_opt_str (o : option string) : value :=
  match o with
  | Some s => VStr s
  | None => VNull
  end.

(** [v === s] for a string [s]. *)
Definition is_str (s : string) (v : value) : bool :=
  match v with
  | VStr s' => String.eqb s' s
  | _ => false
  end.

(** [a === b] where [b] is a [string | null] argument. *)
Definition strict_eq (a b : value) : bool :=
  match a, b with
  | VNull, VNull => true
  | VStr s, VStr s' => String.eqb s s'
  | _, _ => false
  end.

(** [o.id] for an array element [o]: reading a property of [null] throws,
    objects answer with the field, every other value with [undefined]. *)
Definition prop_id (o : value) : result (option value) :=
  match o with
  | VNull => Err JsTypeError
  | VObj m => Ok (m !! "id")
  | _ => Ok None
  end.

(** [xs.includes(s)]: arrays compare elements with SameValueZero, strings
    look for a substring, anything else has no such method. *)
Definition js_includes (xs : value) (s : string) : result bool :=
  match xs with
  | VArr l => Ok (existsb (is_str s) l)
  | VStr t => Ok (bool_decide (is_Some (String.index 0 s t)))
  | _ => Err JsTypeError
  end.

(** [xs.push(v)], answering the array after the push. *)
Definition js_push (xs : value) (v : value) : result value :=
  match xs with
  | VArr l => Ok (VArr (l ++ [v]))
  | _ => Err JsTypeError
  end.

Fixpoint filter_elems (p : value → result bool) (l : list value) : result (list value) :=
  match l with
  | [] => Ok []
  | x :: l' =>
      match p x with
      | Err e => Err e
      | Ok b =>
          match filter_elems p l' with
          | Err e => Err e
          | Ok r => Ok (if b then x :: r else r)
          end
      end
  end.

(** [xs.filter(p)] where the callback itself may throw. *)
Definition js_filter (p : value → result bool) (xs : value) : result value :=
  match xs with
  | VArr l =>
      match filter_elems p l with
      | Ok r => Ok (VArr r)
      | Err e => Err e
      end
  | _ => Err JsTypeError
  end.

(** ** The Firestore client *)

Definition apply_field (now : N) (old : option value) (f : fieldval) : value :=
  match f with
  | Lit v => v
  | ServerTimestamp => VTime now
  | Increment n =>
      match old with
      | Some (VNum m) => VNum (m + n)
      | _ => VNum n
      end
  end.

Definition merge_field (now : N) (f : option fieldval) (old : option value) : option value :=
  match f with
  | Some fv => Some (apply_field now old fv)
  | None => old
  end.

(** Merging a payload into a document: named fields are overwritten (or
    transformed), the others kept. *)
Definition apply_payload (now : N) (p : payload) (d : doc) : doc :=
  merge (merge_field now) p d.

(** [doc(db, collection, id)] for an id of type [string]. *)
Definition docRef (id : string) : M string :=
  if String.eqb id "" then throw FsInvalidArgument else ret id.

(** [doc(db, collection, v)] for a value read from a document. *)
Definition docRefV (v : option value) : M string :=
  match v with
  | Some (VStr s) => docRef s
  | _ => throw JsTypeError
  end.

Definition getDoc (c : coll) (id : string) : M (option doc) :=
  λ s, (Ok (get_coll c s !! id), s).

Definition updateDoc (c : coll) (id : string) (p : payload) : M unit :=
  λ s, match get_coll c s !! id with
       | None => (Err FsNotFound, s)
       | Some d =>
           (Ok (), logged (WUpdate c id p)
                     (set_coll c (<[id := apply_payload (clock s) p d]> (get_coll c s)) s))
       end.

(** [setDoc(ref, p, { merge: true })] *)
Definition setDocMerge (c : coll) (id : string) (p : payload) : M unit :=
  λ s, let d := default ∅ (get_coll c s !! id) in
       (Ok (), logged (WSet c id p)
                 (set_coll c (<[id := apply_payload (clock s) p d]> (get_coll c s)) s)).

Definition auto_id (m : gmap string doc) : string := fresh ({[""]} ∪ dom m).

Definition addDoc (c : coll) (p : payload) : M string :=
  λ s, let id := auto_id (get_coll c s) in
       (Ok id, logged (WAdd c id p)
                 (set_coll c (<[id := apply_payload (clock s) p ∅]> (get_coll c s)) s)).

Definition deleteDoc (c : coll) (id : string) : M unit :=
  λ s, (Ok (), logged (WDelete c id) (set_coll c (delete id (get_coll c s)) s)).

(** [{ ...d }] as the leading part of a payload. *)
Definition spread (d : doc) : payload := Lit <$> d.

(** ** Notifications *)

Definition createNotification (notif : doc) : M string :=
  addDoc Notifications (<["createdAt" := ServerTimestamp]> (spread notif)).

(** The object literal both join paths pass to [createNotification]. *)
Definition join_notification (familyId : value) (message userId : string) : doc :=
  <["familyId" := familyId]>
    (<["title" := VStr "New Member"]>
      (<["message" := VStr message]>
        (<["type" := VStr "general"]>
          (<["isRead" := VBool false]>
            (<["createdBy" := VStr userId]> ∅))))).

(** ** Families *)

Definition createFamily (data : doc) : M string :=
  let id := data !! "id" in
  let p :=
    <["createdAt" := ServerTimestamp]>
      (<["memberCount" := Lit (nullish_or (data !! "memberCount") (VNum 0))]>
        (spread data)) in
  if truthy_opt id then
    ref <- docRefV id ;;
    setDocMerge Families ref p ;;;
    ret ref
  else
    addDoc Families p.

(** ** Users *)

Inductive UserRole := super_admin | admin | member.

Definition role_name (r : UserRole) : string :=
  match r with
  | super_admin => "super_admin"
  | admin => "admin"
  | member => "member"
  end.

(** [Partial<User>], restricted to the fields [createUserProfile] reads. *)
Record PartialUser := {
  pu_email : option string;
  pu_displayName : option string;
  pu_role : option UserRole;
  pu_phoneNumber : option string;
  pu_familyId : option string
}.

(** [a || b] on strings. *)
Definition str_or (a b : string) : string :=
  if String.eqb a "" then b else a.

Definition createUserProfile (userId : string) (userData : PartialUser) : M payload :=
  userRef <- docRef userId ;;
  let email := default "" (pu_email userData) in
  let displayName := default "" (pu_displayName userData) in
  let familyId := of_opt_str (pu_familyId userData) in
  let p : payload :=
    <["id" := Lit (VStr userId)]>
      (<["email" := Lit (VStr email)]>
        (<["displayName" := Lit (VStr displayName)]>
          (<["role" := Lit (VStr (role_name (default member (pu_role userData))))]>
            (<["phoneNumber" := Lit (VStr (default "" (pu_phoneNumber userData)))]>
              (<["familyId" := Lit familyId]>
                (<["createdAt" := ServerTimestamp]> ∅)))))) in
  setDocMerge Users userRef p ;;;
  (if truthy familyId then
     famRef <- docRefV (Some familyId) ;;
     try_ (updateDoc Families famRef (<["memberCount" := Increment 1]> ∅)) ;;;
     try_ (createNotification
             (join_notification familyId
                (str_or displayName email +:+ " joined the family") userId)) ;;;
     ret ()
   else ret ()) ;;;
  ret p.

(** The first [if] of [updateUserFamily]: the previous family loses a
    member. *)
Definition leave_previous (prevFamilyId newId : value) : M unit :=
  if truthy prevFamilyId && negb (strict_eq prevFamilyId newId) then
    prevFamRef <- docRefV (Some prevFamilyId) ;;
    try_ (updateDoc Families prevFamRef (<["memberCount" := Increment (-1)]> ∅))
  else ret ().

(** Its second [if]: the new family gains a member and is told so. *)
Definition enter_new (prevFamilyId newId : value) (userId : string) : M unit :=
  if truthy newId && negb (strict_eq prevFamilyId newId) then
    newFamRef <- docRefV (Some newId) ;;
    try_ (updateDoc Families newFamRef (<["memberCount" := Increment 1]> ∅)) ;;;
    try_ (createNotification
            (join_notification newId "A new member has joined the family!" userId))
  else ret ().

Definition updateUserFamily (userId : string) (newFamilyId : option string) : M unit :=
  userRef <- docRef userId ;;
  snap <- getDoc Users userRef ;;
  match snap with
  | None => throw (Thrown "User not found")
  | Some data =>
      let prevFamilyId := nullish_or (data !! "familyId") VNull in
      let newId := of_opt_str newFamilyId in
      updateDoc Users userRef
        (<["familyId" := Lit newId]> (<["updatedAt" := ServerTimestamp]> ∅)) ;;;
      leave_previous prevFamilyId newId ;;;
      enter_new prevFamilyId newId userId
  end.

Definition deleteUser (userId : string) : M unit :=
  userRef <- docRef userId ;;
  uSnap <- getDoc Users userRef ;;
  let familyId := uSnap ≫= (.!! "familyId") in
  (if truthy_opt familyId then
     famRef <- docRefV familyId ;;
     try_ (updateDoc Families famRef (<["memberCount" := Increment (-1)]> ∅))
   else ret ()) ;;;
  deleteDoc Users userRef.

Definition promoteToAdmin (userId : string) : M unit :=
  userRef <- docRef userId ;;
  updateDoc Users userRef
    (<["role" := Lit (VStr "admin")]> (<["updatedAt" := ServerTimestamp]> ∅)).

Definition demoteFromAdmin (userId : string) : M unit :=
  userRef <- docRef userId ;;
  updateDoc Users userRef
    (<["role" := Lit (VStr "member")]> (<["updatedAt" := ServerTimestamp]> ∅)).

Definition removeMemberFromFamily (userId : string) : M unit :=
  updateUserFamily userId None.

(** [signup] of [AuthContext]: the identity provider has issued [uid] and
    echoed the account's [email]. *)
Definition signup (uid email displayName : string) (isAdmin : bool) : M unit :=
  let newUserData :=
    {| pu_email := Some email;
       pu_displayName := Some displayName;
       pu_role := Some (if isAdmin then admin else member);
       pu_phoneNumber := None;
       pu_familyId := Some "" |} in
  createUserProfile uid newUserData ;;;
  ret ().

(** ** Posts *)

Definition createPost (post : doc) : M string :=
  addDoc Posts
    (<["createdAt" := ServerTimestamp]>
      (<["comments" := Lit (VArr [])]>
        (<["likes" := Lit (VArr [])]> (spread post)))).

Definition likePost (postId userId : string) : M unit :=
  postRef <- docRef postId ;;
  snap <- getDoc Posts postRef ;;
  match snap with
  | None => throw (Thrown "Post not found")
  | Some post =>
      let likes := nullish_or (post !! "likes") (VArr []) in
      found <- lift (js_includes likes userId) ;;
      if negb found then
        likes' <- lift (js_push likes (VStr userId)) ;;
        updateDoc Posts postRef (<["likes" := Lit likes']> ∅)
      else ret ()
  end.

Definition unlikePost (postId userId : string) : M unit :=
  postRef <- docRef postId ;;
  snap <- getDoc Posts postRef ;;
  match snap with
  | None => throw (Thrown "Post not found")
  | Some post =>
      likes <- lift (js_filter (λ uid, Ok (negb (is_str userId uid)))
                       (nullish_or (post !! "likes") (VArr []))) ;;
      updateDoc Posts postRef (<["likes" := Lit likes]> ∅)
  end.

(** [now] is the reading of the client clock that [Date.now()] and
    [new Date()] take when the comment is built. *)
Definition addComment (postId : string) (comment : doc) (now : N) : M unit :=
  postRef <- docRef postId ;;
  snap <- getDoc Posts postRef ;;
  match snap with
  | None => throw (Thrown "Post not found")
  | Some post =>
      let comments := nullish_or (post !! "comments") (VArr []) in
      let newComment :=
        VObj (<["createdAt" := VTime now]> (comment ∪ {["id" := VStr (pretty now)]})) in
      comments' <- lift (js_push comments newComment) ;;
      updateDoc Posts postRef (<["comments" := Lit comments']> ∅)
  end.

(** The callback of [deleteComment]: [c => c.id !== commentId]. *)
Definition other_comment (commentId : string) (c : value) : result bool :=
  match prop_id c with
  | Err e => Err e
  | Ok i => Ok (negb (from_option (is_str commentId) false i))
  end.

Definition deleteComment (postId commentId : string) : M unit :=
  postRef <- docRef postId ;;
  snap <- getDoc Posts postRef ;;
  match snap with
  | None => throw (Thrown "Post not found")
  | Some post =>
      comments <- lift (js_filter (other_comment commentId)
                          (nullish_or (post !! "comments") (VArr []))) ;;
      updateDoc Posts postRef (<["comments" := Lit comments]> ∅)
  end.

(** ** Family requests *)

Definition createFamilyRequest (request : doc) : M string :=
  addDoc FamilyRequests
    (<["updatedAt" := ServerTimestamp]>
      (<["createdAt" := ServerTimestamp]>
        (<["status" := Lit (VStr "pending")]> (spread request)))).

Definition approveFamilyRequest (requestId : string) (familyData : option doc) : M unit :=
  reqRef <- docRef requestId ;;
  reqDoc <- getDoc FamilyRequests reqRef ;;
  match reqDoc with
  | None => throw (Thrown "Request not found")
  | Some data =>
      updateDoc FamilyRequests reqRef
        (<["status" := Lit (VStr "approved")]> (<["reviewedAt" := ServerTimestamp]> ∅)) ;;;
      createFamily (default data familyData) ;;;
      ret ()
  end.

Definition rejectFamilyRequest (requestId : string) : M unit :=
  reqRef <- docRef requestId ;;
  updateDoc FamilyRequests reqRef
    (<["status" := Lit (VStr "rejected")]> (<["reviewedAt" := ServerTimestamp]> ∅)).

(** ** Admin requests *)

Inductive decision := approved | rejected.

Definition decision_name (d : decision) : string :=
  match d with
  | approved => "approved"
  | rejected => "rejected"
  end.

Definition createAdminRequest (userData : doc) : M string :=
  addDoc AdminRequests
    (<["createdAt" := ServerTimestamp]>
      (<["status" := Lit (VStr "pending")]> (spread userData))).

Definition reviewAdminRequest (requestId : string) (status : decision) (reviewerId : string) : M unit :=
  requestRef <- docRef requestId ;;
  request <- getDoc AdminRequests requestRef ;;
  match request with
  | None => throw (Thrown "Admin request not found")
  | Some requestData =>
      updateDoc AdminRequests requestRef
        (<["status" := Lit (VStr (decision_name status))]>
          (<["reviewedAt" := ServerTimestamp]>
            (<["reviewedBy" := Lit (VStr reviewerId)]> ∅))) ;;;
      match status with
      | approved =>
          userRef <- docRefV (requestData !! "userId") ;;
          updateDoc Users userRef
            (<["role" := Lit (VStr "admin")]> (<["updatedAt" := ServerTimestamp]> ∅))
      | rejected => ret ()
      end
  end.

(** ** Readings of a document *)

(** The counter as [increment] sees it: a missing or non-numeric field
    counts from zero. *)
Definition memberCount (d : doc) : Z :=
  match d !! "memberCount" with
  | Some (VNum n) => n
  | _ => 0
  end.

(** The likes array as [likePost] and [unlikePost] read it. *)
Definition likes_of (post : doc) : option (list value) :=
  match nullish_or (post !! "likes") (VArr []) with
  | VArr l => Some l
  | _ => None
  end.

Definition comments_of (post : doc) : option (list value) :=
  match nullish_or (post !! "comments") (VArr []) with
  | VArr l => Some l
  | _ => None
  end.

(** How many times [userId] occurs in a likes array. *)
Definition like_count (userId : string) (l : list value) : nat :=
  length (List.filter (is_str userId) l).

(** The array [unlikePost] writes back: every entry but [userId]. *)
Definition without_user (userId : string) (l : list value) : list value :=
  List.filter (λ uid, negb (is_str userId uid)) l.

(** ** Well-formed stores and reachable states *)

(** Firestore never holds a document under the empty id. *)
Definition wf_store (s : store) : Prop := ∀ c, get_coll c s !! "" = None.

(** The state a computation leaves behind, and its outcome. *)
Definition after {A} (m : M A) (s : store) : store := (m s).2.
Definition outcome {A} (m : M A) (s : store) : result A := (m s).1.

Definition role_of (s : store) (userId : string) : option value :=
  users s !! userId ≫= (.!! "role").

(** A user record that belongs to no family: the field is missing, [null]
    or the empty string, the three readings the source treats as falsy. *)
Definition no_family (u : doc) : Prop :=
  u !! "familyId" = None ∨ u !! "familyId" = Some VNull ∨ u !! "familyId" = Some (VStr "").

(** The membership invariant in the words of the data model:
    [familyId] is [null] or names an existing family. *)
Definition family_ref_null_or_existing (s : store) (u : doc) : Prop :=
  u !! "familyId" = Some VNull ∨
  ∃ F, u !! "familyId" = Some (VStr F) ∧ is_Some (families s !! F).

(** The membership invariant the code maintains: [familyId] is unassigned
    ([null] or the empty string) or names an existing family. *)
Definition family_ref_ok (s : store) (u : doc) : Prop :=
  u !! "familyId" = Some VNull ∨
  u !! "familyId" = Some (VStr "") ∨
  ∃ F, u !! "familyId" = Some (VStr F) ∧ is_Some (families s !! F).

Definition signup_role (u : doc) : Prop :=
  u !! "role" = Some (VStr "member") ∨ u !! "role" = Some (VStr "admin").

(** One membership operation: signup, joining an existing family, or
    being removed from one's family. *)
Inductive membership_step : store → store → Prop :=
| step_signup s uid email displayName isAdmin :
    membership_step s (after (signup uid email displayName isAdmin) s)
| step_join s uid F :
    is_Some (families s !! F) →
    membership_step s (after (updateUserFamily uid (Some F)) s)
| step_remove s uid :
    membership_step s (after (removeMemberFromFamily uid) s).

(** ** Comments by id, in the words of the specification *)

(** The comment [c] carries the id [commentId]. *)
Definition has_id (commentId : string) (c : value) : bool :=
  match c with
  | VObj m =>
      match m !! "id" with
      | Some (VStr s) => String.eqb s commentId
      | _ => false
      end
  | _ => false
  end.

(** Every comment with that id removed, the others kept in order. *)
Definition remove_by_id (commentId : string) (l : list value) : list value :=
  List.filter (λ c, negb (has_id commentId c)) l.

(** ** A small community, built through the functions above *)

(** The document stored under [id], empty when there is none. *)
Definition the_doc (m : gmap string doc) (id : string) : doc :=
  default ∅ (m !! id).

Definition ann : PartialUser :=
  {| pu_email := Some "ann@example.org";
     pu_displayName := Some "Ann";
     pu_role := None;
     pu_phoneNumber := None;
     pu_familyId := Some "grace" |}.

(** The families "grace" and "hope", and nobody yet. *)
Definition two_families : store := Eval vm_compute in
  after (createFamily (<["id" := VStr "hope"]> (<["name" := VStr "Hope"]> ∅)))
    (after (createFamily (<["id" := VStr "grace"]> (<["name" := VStr "Grace"]> ∅)))
       empty_store).

(** On top of them: Ann (user "u1") in "grace", one post by her, and one
    pending request of each kind. *)
Definition example_store : store := Eval vm_compute in
  after (createAdminRequest (<["userId" := VStr "u1"]> ∅))
    (after (createFamilyRequest
              (<["familyName" := VStr "Joy"]> (<["description" := VStr "A new family"]> ∅)))
       (after (createPost (<["familyId" := VStr "grace"]> (<["authorId" := VStr "u1"]> ∅)))
          (after (createUserProfile "u1" ann) two_families))).

(** Bob signs up as user "u2" and joins "hope". *)
Definition bob_in_hope : store :=
  after (updateUserFamily "u2" (Some "hope"))
    (after (signup "u2" "bob@example.org" "Bob" false) two_families).

(** ** The rest of the data-access module *)

(** [try { return await m } catch (error) { console.error(error); return d }] *)
Definition or_else {A} (m : M A) (d : A) : M A :=
  λ s, match m s with
       | (Ok a, s') => (Ok a, s')
       | (Err _, s') => (Ok d, s')
       end.

(** [{ id: d.id, ...d.data() }]: a stored field named id wins over the
    document's own id. *)
Definition with_id (id : string) (d : doc) : doc := d ∪ {["id" := VStr id]}.

(** [where(field, '==', v)] for a string [v]. *)
Definition where_eq (field v : string) (d : doc) : bool :=
  from_option (is_str v) false (d !! field).

(** [getDocs] of a collection or of a query on it: the matching documents
    under their ids, in the order the store enumerates them. *)
Definition getDocs (c : coll) (p : doc → bool) : M (list (string * doc)) :=
  λ s, (Ok (List.filter (λ kv, p kv.2) (map_to_list (get_coll c s))), s).

Definition docs_with_id (snap : list (string * doc)) : list doc :=
  map (λ kv, with_id kv.1 kv.2) snap.

Definition getAllFamilies : M (list doc) :=
  or_else (snap <- getDocs Families (λ _, true) ;; ret (docs_with_id snap)) [].

Definition getFamilies : M (list doc) := getAllFamilies.

Definition getFamily (familyId : string) : M (option doc) :=
  or_else (ref <- docRef familyId ;;
           snap <- getDoc Families ref ;;
           ret (with_id ref <$> snap)) None.

Definition updateFamily (familyId : string) (updates : doc) : M unit :=
  famRef <- docRef familyId ;;
  updateDoc Families famRef (<["updatedAt" := ServerTimestamp]> (spread updates)).

Definition deleteFamily (familyId : string) : M unit :=
  famRef <- docRef familyId ;;
  deleteDoc Families famRef.

Definition getAllUsers : M (list doc) :=
  or_else (snap <- getDocs Users (λ _, true) ;; ret (docs_with_id snap)) [].

Definition getUsersByFamily (familyId : string) : M (list doc) :=
  or_else (snap <- getDocs Users (where_eq "familyId" familyId) ;;
           ret (docs_with_id snap)) [].

Definition updateUserProfile (userId : string) (updates : doc) : M unit :=
  userRef <- docRef userId ;;
  updateDoc Users userRef (<["updatedAt" := ServerTimestamp]> (spread updates)).

Definition checkAdminLimit (familyId : string) (maxAdmins : Z) : M bool :=
  snap <- getDocs Users
            (λ d, where_eq "familyId" familyId d && where_eq "role" "admin" d) ;;
  ret (Z.of_nat (length snap) <? maxAdmins)%Z.

(** The default of [checkAdminLimit]'s second parameter. *)
Definition maxAdmins_default : Z := 3.

Definition updatePost (postId : string) (updates : doc) : M unit :=
  postRef <- docRef postId ;;
  updateDoc Posts postRef (<["updatedAt" := ServerTimestamp]> (spread updates)).

Definition deletePost (postId : string) : M unit :=
  postRef <- docRef postId ;;
  deleteDoc Posts postRef.

Definition markNotificationAsRead (notificationId : string) : M unit :=
  notifRef <- docRef notificationId ;;
  updateDoc Notifications notifRef (<["isRead" := Lit (VBool true)]> ∅).

Definition deleteNotification (notificationId : string) : M unit :=
  notifRef <- docRef notificationId ;;
  deleteDoc Notifications notifRef.

(** ** [initializeFamilies] of [lib/initializeData.ts] *)

(** One entry of its [families] array. *)
Definition default_family (id name description imageUrl : string) : payload :=
  <["id" := Lit (VStr id)]>
    (<["name" := Lit (VStr name)]>
      (<["description" := Lit (VStr description)]>
        (<["imageUrl" := Lit (VStr imageUrl)]>
          (<["memberCount" := Lit (VNum 0)]>
            (<["createdAt" := ServerTimestamp]> ∅))))).

Definition default_families : list (string * payload) :=
  [ ("doxa-portal",
     default_family "doxa-portal" "Doxa Portal Family"
       "A community dedicated to worship and spiritual growth through divine revelation and praise."
       "https://images.pexels.com/photos/8468470/pexels-photo-8468470.jpeg?auto=compress&cs=tinysrgb&w=800");
    ("rhema",
     default_family "rhema" "Rhema Family"
       "United by the spoken word of God, building faith through scripture and fellowship."
       "https://images.pexels.com/photos/1587927/pexels-photo-1587927.jpeg?auto=compress&cs=tinysrgb&w=800");
    ("glory",
     default_family "glory" "Glory Family"
       "Reflecting God's glory in our daily lives and sharing His light with the world."
       "https://images.pexels.com/photos/1587927/pexels-photo-1587927.jpeg?auto=compress&cs=tinysrgb&w=800");
    ("grace",
     default_family "grace" "Grace Family"
       "Living by grace through faith, extending God's love and mercy to all."
       "https://images.pexels.com/photos/8468470/pexels-photo-8468470.jpeg?auto=compress&cs=tinysrgb&w=800");
    ("hope",
     default_family "hope" "Hope Family"
       "Anchored in hope, spreading encouragement and faith in our community."
       "https://images.pexels.com/photos/1587927/pexels-photo-1587927.jpeg?auto=compress&cs=tinysrgb&w=800") ].

(** The [for] loop over the array. *)
Fixpoint set_families (l : list (string * payload)) : M unit :=
  match l with
  | [] => ret ()
  | (id, family) :: l' =>
      familyRef <- docRef id ;;
      setDocMerge Families familyRef family ;;;
      set_families l'
  end.

Definition initializeFamilies : M unit :=
  or_else (set_families default_families) ().

(** ** The session: [AuthContext], [FamilySelection] and [AppContent] *)

(** [currentUser]: still [undefined], [null], or the signed-in user. *)
Inductive auth_user :=
| AuthPending
| SignedOut
| SignedIn (uid : string).

(** What [subscribeToUserProfile] hands to its callback. *)
Definition user_profile (s : store) (uid : string) : option doc :=
  with_id uid <$> users s !! uid.

(** [updateUserFamily] of [AuthContext]. *)
Definition auth_updateUserFamily (currentUser : auth_user) (familyId : string) : M unit :=
  match currentUser with
  | SignedIn uid => updateUserFamily uid (Some familyId)
  | _ => ret ()
  end.

(** The state of [FamilySelection] its two handlers use. *)
Record selection := {
  selectedFamily : string;
  adminLimitWarning : option string
}.

Definition handleFamilySelect (userData : option doc) (familyId : string) : M selection :=
  if from_option (where_eq "role" "admin") false userData then
    canAddAdmin <- checkAdminLimit familyId maxAdmins_default ;;
    if negb canAddAdmin then
      ret {| selectedFamily := familyId;
             adminLimitWarning :=
               Some "This family already has 2 admins. You will join as a regular member." |}
    else ret {| selectedFamily := familyId; adminLimitWarning := None |}
  else ret {| selectedFamily := familyId; adminLimitWarning := None |}.

Definition handleJoinFamily (sel : selection) (currentUser : auth_user) : M unit :=
  if negb (String.eqb (selectedFamily sel) "")
     && match currentUser with SignedIn _ => true | _ => false end
  then auth_updateUserFamily currentUser (selectedFamily sel)
  else ret ().

Inductive screen :=
| Spinner
| AuthScreen
| SuperAdminDashboard (isOpen : bool)
| FamilySelection
| FamilyDashboard.

(** [AppContent]: which screen the session shows. [userData] is the
    profile state of [AuthContext], [null] or a profile. *)
Definition AppContent (currentUser : auth_user) (userData : option doc)
    (isAdminPanelOpen : bool) : screen :=
  match currentUser with
  | AuthPending => Spinner
  | SignedOut => AuthScreen
  | SignedIn _ =>
      if from_option (where_eq "role" "super_admin") false userData then
        SuperAdminDashboard isAdminPanelOpen
      else if negb (truthy_opt (userData ≫= (.!! "familyId"))) then
        FamilySelection
      else FamilyDashboard
  end.

(** ** Members and counters *)

(** The users a family query returns for [familyId]. *)
Definition members (familyId : string) (s : store) : list (string * doc) :=
  List.filter (λ kv, where_eq "familyId" familyId kv.2) (map_to_list (users s)).

(** The admins [checkAdminLimit] counts for [familyId]. *)
Definition admins (familyId : string) (s : store) : list (string * doc) :=
  List.filter (λ kv, where_eq "familyId" familyId kv.2 && where_eq "role" "admin" kv.2)
    (map_to_list (users s)).

(** A user record whose familyId is a string or null, as every function of
    the module writes it. *)
Definition typed_family_ref (u : doc) : Prop :=
  u !! "familyId" = Some VNull ∨ ∃ F, u !! "familyId" = Some (VStr F).

(** The family invariant of the data model: each family's counter is the
    number of users that name it. *)
Definition counters_consistent (s : store) : Prop :=
  ∀ F d, families s !! F = Some d →
         memberCount d = Z.of_nat (length (members F s)).

(** The operations of everyday use: a signup under a new id, a join, a
    removal, the deletion of a user, and the creation of a family. *)
Inductive community_step : store → store → Prop :=
| cstep_signup s uid email displayName isAdmin :
    users s !! uid = None →
    community_step s (after (signup uid email displayName isAdmin) s)
| cstep_join s uid F :
    is_Some (families s !! F) →
    community_step s (after (updateUserFamily uid (Some F)) s)
| cstep_remove s uid :
    community_step s (after (removeMemberFromFamily uid) s)
| cstep_delete s uid :
    community_step s (after (deleteUser uid) s)
| cstep_family s data :
    data !! "id" = None → data !! "memberCount" = None →
    community_step s (after (createFamily data) s).

(** ** The range in which the store model is exact *)

(** The string [sub] occurs in [s]. *)
Definition contains (sub s : string) : bool :=
  match String.index 0 sub s with
  | Some _ => true
  | None => false
  end.

(** A document id of one path segment: not empty and without a slash.
    [doc(db, collection, id)] splits any other id into several segments
    and refuses an odd path; [docRef] stands for it on ids of one
    segment. *)
Definition segment (id : string) : bool :=
  negb (String.eqb id "") && negb (contains "/" id).

(** A counter to which 1 is added or from which 1 is taken without
    rounding in the store's numbers, which are doubles; there
    [increment] is the addition of [apply_field]. *)
Definition safe_count (n : Z) : bool := (- 2 ^ 53 <? n)%Z && (n <? 2 ^ 53)%Z.

(** A key that [updateDoc] takes as the name of one field: not empty and
    free of the characters of a field path. *)
Definition plain_field (k : string) : bool :=
  negb (String.eqb k "")
  && negb (existsb (λ c, contains c k) ["."; "~"; "*"; "/"; "["; "]"]).

Definition plain_keys (d : doc) : Prop :=
  map_Forall (λ k _, plain_field k = true) d.

Definition is_obj (v : value) : bool :=
  match v with
  | VObj _ => true
  | _ => false
  end.

(** No field holds a map: [setDoc] with merge then replaces each named
    field as a whole, as [setDocMerge] does. *)
Definition flat (d : doc) : Prop := map_Forall (λ _ v, is_obj v = false) d.

(** A user record whose familyId is unassigned or an id of one segment. *)
Definition segment_family_ref (u : doc) : Prop :=
  no_family u ∨ ∃ P, u !! "familyId" = Some (VStr P) ∧ segment P = true.

(** ** Object literals with undefined properties *)

(** An object as a caller writes it: a property holds a value or is
    [undefined]. *)
Abbreviation jsobj := (gmap string (option value)).

(** [o.k], [undefined] when the property is missing or undefined. *)
Definition prop (o : jsobj) (k : string) : option value := o !! k ≫= id.

(** A payload before the client has checked it. *)
Abbreviation raw_payload := (gmap string (option fieldval)).

(** [{ ...o }] in a payload. *)
Definition spread_raw (o : jsobj) : raw_payload :=
  (λ v : option value, Lit <$> v) <$> o.

(** The argument check of [setDoc] and [addDoc]: [getFirestore(app)] is
    called with its default settings, under which a payload that holds
    [undefined] is refused before anything is written. *)
Definition check_payload (p : raw_payload) : M payload :=
  if bool_decide (map_Forall (λ _ f, is_Some f) p) then ret (omap id p)
  else throw FsInvalidArgument.

(** [createFamily] on an object literal; [createFamily] above is this
    function on the objects without undefined properties
    ([createFamily_raw_defined]). *)
Definition createFamily_raw (data : jsobj) : M string :=
  let id := prop data "id" in
  let p :=
    <["createdAt" := Some ServerTimestamp]>
      (<["memberCount" := Some (Lit (nullish_or (prop data "memberCount") (VNum 0)))]>
        (spread_raw data)) in
  if truthy_opt id then
    ref <- docRefV id ;;
    p' <- check_payload p ;;
    setDocMerge Families ref p' ;;;
    ret ref
  else
    p' <- check_payload p ;;
    addDoc Families p'.

(** [approveFamilyRequest] with the overrides as an object literal. *)
Definition approveFamilyRequest_raw (requestId : string) (familyData : option jsobj)
    : M unit :=
  reqRef <- docRef requestId ;;
  reqDoc <- getDoc FamilyRequests reqRef ;;
  match reqDoc with
  | None => throw (Thrown "Request not found")
  | Some data =>
      updateDoc FamilyRequests reqRef
        (<["status" := Lit (VStr "approved")]> (<["reviewedAt" := ServerTimestamp]> ∅)) ;;;
      createFamily_raw (default (Some <$> data) familyData) ;;;
      ret ()
  end.

(** The overrides [handleApproveFamilyRequest] of both dashboards passes
    for the request [req], [now] being its [new Date()]. *)
Definition approval_overrides (req : doc) (now : N) : jsobj :=
  <["name" := req !! "familyName"]>
    (<["description" :=
         Some (if truthy_opt (req !! "description")
               then default (VStr "") (req !! "description") else VStr "")]>
      (<["imageUrl" := None]>
        (<["memberCount" := Some (VNum 0)]>
          (<["createdAt" := Some (VTime now)]> ∅)))).

(** ** The payloads the functions write *)

Abbreviation set_family F :=
  (<["familyId" := Lit F]> (<["updatedAt" := ServerTimestamp]> ∅)).
Abbreviation count_by n := (<["memberCount" := Increment n]> ∅).
Abbreviation joined F U :=
  (join_notification F "A new member has joined the family!" U).
Abbreviation set_role r :=
  (<["role" := Lit (VStr r)]> (<["updatedAt" := ServerTimestamp]> ∅)).
Abbreviation set_likes l := (<["likes" := Lit (VArr l)]> ∅).
Abbreviation set_comments l := (<["comments" := Lit (VArr l)]> ∅).
Abbreviation approve_payload :=
  (<["status" := Lit (VStr "approved")]> (<["reviewedAt" := ServerTimestamp]> ∅)).
Abbreviation family_payload data :=
  (<["createdAt" := ServerTimestamp]>
     (<["memberCount" := Lit (nullish_or (data !! "memberCount") (VNum 0))]>
        (spread data))).
Abbreviation review_payload dec rev :=
  (<["status" := Lit (VStr (decision_name dec))]>
     (<["reviewedAt" := ServerTimestamp]>
        (<["reviewedBy" := Lit (VStr rev)]> ∅))).

Abbreviation profile_payload userId userData :=
  (<["id" := Lit (VStr userId)]>
    (<["email" := Lit (VStr (default "" (pu_email userData)))]>
      (<["displayName" := Lit (VStr (default "" (pu_displayName userData)))]>
        (<["role" := Lit (VStr (role_name (default member (pu_role userData))))]>
          (<["phoneNumber" := Lit (VStr (default "" (pu_phoneNumber userData)))]>
            (<["familyId" := Lit (of_opt_str (pu_familyId userData))]>
              (<["createdAt" := ServerTimestamp]> ∅))))))).
Abbreviation profile_joined userData userId :=
  (join_notification (of_opt_str (pu_familyId userData))
     (str_or (default "" (pu_displayName userData)) (default "" (pu_email userData))
      +:+ " joined the family") userId).
Abbreviation with_updatedAt updates :=
  (<["updatedAt" := ServerTimestamp]> (spread updates)).
Abbreviation read_payload := (<["isRead" := Lit (VBool true)]> ∅).
Abbreviation reject_payload :=
  (<["status" := Lit (VStr "rejected")]> (<["reviewedAt" := ServerTimestamp]> ∅)).

(** ** Further states of the small community *)

(** Bob has signed up as user "u2" and has no family yet. *)
Definition bob_signed_up : store := Eval vm_compute in
  after (signup "u2" "bob@example.org" "Bob" false) two_families.

(** Bob has joined "hope". *)
Definition bob_joined : store := Eval vm_compute in
  after (updateUserFamily "u2" (Some "hope")) bob_signed_up.

(** Carol has signed up as an admin, user "u3", beside Bob. *)
Definition carol_signed_up : store := Eval vm_compute in
  after (signup "u3" "carol@example.org" "Carol" true) bob_joined.

(** ** Proof automation *)

(** Unfold the monad and reduce the store projections. *)
Ltac fs_simpl :=
  unfold bind, ret, throw, lift, try_, getDoc;
  cbn [get_coll set_coll logged users families posts notifications
       familyRequests adminRequests clock writes fst snd].

Ltac fold_coll :=
  change (users ?s) with (get_coll Users s) in *;
  change (families ?s) with (get_coll Families s) in *;
  change (posts ?s) with (get_coll Posts s) in *;
  change (notifications ?s) with (get_coll Notifications s) in *;
  change (familyRequests ?s) with (get_coll FamilyRequests s) in *;
  change (adminRequests ?s) with (get_coll AdminRequests s) in *.

(** * Properties *)

(** ** The store primitives *)

Lemma eqb_ne (a b : string) : a ≠ b → String.eqb a b = false.
Proof. apply String.eqb_neq. Qed.

Lemma lookup_apply_payload now (p : payload) (d : doc) k :
  apply_payload now p d !! k = merge_field now (p !! k) (d !! k).
Proof.
  unfold apply_payload. rewrite lookup_merge.
  by destruct (p !! k), (d !! k).
Qed.

Lemma docRef_ok id s : id ≠ "" → docRef id s = (Ok id, s).
Proof. intros Hid. unfold docRef. by rewrite eqb_ne. Qed.

Lemma docRef_empty s : docRef "" s = (Err FsInvalidArgument, s).
Proof. reflexivity. Qed.

Lemma wf_key_nonempty c s id (d : doc) :
  wf_store s → get_coll c s !! id = Some d → id ≠ "".
Proof. intros Hwf Hd ->. by rewrite (Hwf c) in Hd. Qed.

Lemma get_set_coll_eq c m s : get_coll c (set_coll c m s) = m.
Proof. by destruct c. Qed.

Lemma get_set_coll_ne c c' m s : c' ≠ c → get_coll c' (set_coll c m s) = get_coll c' s.
Proof. by destruct c, c'. Qed.

Lemma get_coll_logged c w s : get_coll c (logged w s) = get_coll c s.
Proof. by destruct c. Qed.

Lemma updateDoc_ok c id p s d :
  get_coll c s !! id = Some d →
  updateDoc c id p s =
    (Ok (), logged (WUpdate c id p)
              (set_coll c (<[id := apply_payload (clock s) p d]> (get_coll c s)) s)).
Proof. intros Hd. unfold updateDoc. by rewrite Hd. Qed.

Lemma updateDoc_missing c id p s :
  get_coll c s !! id = None → updateDoc c id p s = (Err FsNotFound, s).
Proof. intros Hd. unfold updateDoc. by rewrite Hd. Qed.

Lemma updateDoc_other c c' id p s :
  c' ≠ c → get_coll c' (after (updateDoc c id p) s) = get_coll c' s.
Proof.
  intros Hc. unfold after, updateDoc. destruct (get_coll c s !! id); [|done].
  cbn [snd]. by rewrite get_coll_logged, get_set_coll_ne.
Qed.

Lemma updateDoc_same c id p s :
  get_coll c (after (updateDoc c id p) s) =
    match get_coll c s !! id with
    | Some d => <[id := apply_payload (clock s) p d]> (get_coll c s)
    | None => get_coll c s
    end.
Proof.
  unfold after, updateDoc. destruct (get_coll c s !! id); [|done].
  cbn [snd]. by rewrite get_coll_logged, get_set_coll_eq.
Qed.

Lemma auto_id_fresh (m : gmap string doc) : m !! auto_id m = None.
Proof.
  apply not_elem_of_dom. intros Hin.
  apply (is_fresh ({[""]} ∪ dom m)). unfold auto_id in Hin. set_solver.
Qed.

Lemma auto_id_nonempty (m : gmap string doc) : auto_id m ≠ "".
Proof.
  intros Heq. apply (is_fresh ({[""]} ∪ dom m)).
  unfold auto_id in Heq. rewrite Heq. set_solver.
Qed.

Lemma addDoc_other c c' p s :
  c' ≠ c → get_coll c' (after (addDoc c p) s) = get_coll c' s.
Proof.
  intros Hc. unfold after, addDoc. cbn [snd].
  by rewrite get_coll_logged, get_set_coll_ne.
Qed.

Lemma addDoc_same c p s :
  get_coll c (after (addDoc c p) s) =
    <[auto_id (get_coll c s) := apply_payload (clock s) p ∅]> (get_coll c s).
Proof.
  unfold after, addDoc. cbn [snd].
  by rewrite get_coll_logged, get_set_coll_eq.
Qed.

Lemma memberCount_increment now (d : doc) n :
  memberCount (apply_payload now (<["memberCount" := Increment n]> ∅) d)
  = (memberCount d + n)%Z.
Proof.
  unfold memberCount. rewrite lookup_apply_payload, lookup_insert_eq. simpl.
  destruct (d !! "memberCount") as [[]|]; simpl; lia.
Qed.

(** Preservation of well-formedness by the primitives. *)

Lemma wf_logged w s : wf_store s → wf_store (logged w s).
Proof. intros Hwf c. rewrite get_coll_logged. apply Hwf. Qed.

Lemma wf_set_coll c m s :
  wf_store s → m !! "" = None → wf_store (set_coll c m s).
Proof.
  intros Hwf Hm c'.
  destruct c, c';
    solve [ exact Hm | exact (Hwf Users) | exact (Hwf Families) | exact (Hwf Posts)
          | exact (Hwf Notifications) | exact (Hwf FamilyRequests)
          | exact (Hwf AdminRequests) ].
Qed.

Lemma wf_updateDoc c id p s : wf_store s → wf_store (after (updateDoc c id p) s).
Proof.
  intros Hwf. unfold after, updateDoc.
  destruct (get_coll c s !! id) as [d|] eqn:Hd; [|done].
  cbn [snd]. apply wf_logged, wf_set_coll; [done|].
  rewrite lookup_insert_ne; [apply Hwf|].
  intros ->. by rewrite (Hwf c) in Hd.
Qed.

Lemma wf_addDoc c p s : wf_store s → wf_store (after (addDoc c p) s).
Proof.
  intros Hwf. unfold after, addDoc. cbn [snd].
  apply wf_logged, wf_set_coll; [done|].
  rewrite lookup_insert_ne; [apply Hwf|apply auto_id_nonempty].
Qed.

(** ** Moving a user between families *)

Lemma after_bind {A B} (m : M A) (k : A → M B) s :
  after (bind m k) s =
    match outcome m s with
    | Ok a => after (k a) (after m s)
    | Err _ => after m s
    end.
Proof. unfold after, outcome, bind. by destruct (m s) as [[a|e] s']. Qed.

Lemma after_try {A} (m : M A) s : after (try_ m) s = after m s.
Proof. reflexivity. Qed.

Lemma outcome_try {A} (m : M A) s : outcome (try_ m) s = Ok ().
Proof. reflexivity. Qed.

Lemma run_eq {A} (m : M A) s r s' :
  m s = (r, s') → outcome m s = r ∧ after m s = s'.
Proof. unfold outcome, after. by intros ->. Qed.

(** Once the user record is found, the run is its update followed by the
    two conditional blocks. *)
Lemma updateUserFamily_found st U u new :
  U ≠ "" → users st !! U = Some u →
  updateUserFamily U new st =
    (leave_previous (nullish_or (u !! "familyId") VNull) (of_opt_str new) ;;;
     enter_new (nullish_or (u !! "familyId") VNull) (of_opt_str new) U)
      (after (updateDoc Users U (set_family (of_opt_str new))) st).
Proof.
  intros HU Hu. unfold updateUserFamily, after. fs_simpl.
  rewrite docRef_ok by done. rewrite Hu.
  by rewrite (updateDoc_ok Users U _ st u Hu).
Qed.

Lemma updateUserFamily_absent st U new :
  U = "" ∨ users st !! U = None →
  after (updateUserFamily U new) st = st.
Proof.
  unfold updateUserFamily, after. fs_simpl.
  destruct (String.eqb_spec U "") as [->|HU]; [done|].
  intros [?|Hu]; [done|]. rewrite docRef_ok by done. by rewrite Hu.
Qed.

Lemma leave_previous_run (P : string) n :
  P ≠ "" → strict_eq (VStr P) n = false →
  leave_previous (VStr P) n = try_ (updateDoc Families P (count_by (-1))).
Proof.
  intros HP Hn. unfold leave_previous. cbn [truthy docRefV].
  rewrite Hn, (eqb_ne P "") by done. cbn [andb negb].
  unfold bind, try_, docRef. by rewrite (eqb_ne P "").
Qed.

Lemma enter_new_run p (F : string) U :
  F ≠ "" → strict_eq p (VStr F) = false →
  enter_new p (VStr F) U =
    (try_ (updateDoc Families F (count_by 1)) ;;;
     try_ (createNotification (joined (VStr F) U))).
Proof.
  intros HF Hp. unfold enter_new. cbn [truthy docRefV].
  rewrite Hp, (eqb_ne F "") by done. cbn [andb negb].
  unfold bind, docRef. by rewrite (eqb_ne F "").
Qed.

Lemma leave_previous_skip p n :
  truthy p = false ∨ strict_eq p n = true → leave_previous p n = ret ().
Proof.
  unfold leave_previous. intros [->| ->]; [done|]. by rewrite andb_false_r.
Qed.

Lemma enter_new_skip p n U :
  truthy n = false ∨ strict_eq p n = true → enter_new p n U = ret ().
Proof.
  unfold enter_new. intros [->| ->]; [done|]. by rewrite andb_false_r.
Qed.

Lemma strict_eq_str (a b : string) : strict_eq (VStr a) (VStr b) = String.eqb a b.
Proof. reflexivity. Qed.

(** What the first block can change: nothing but the counter of the
    previous family. *)
Lemma leave_previous_frame p n s :
  users (after (leave_previous p n) s) = users s ∧
  notifications (after (leave_previous p n) s) = notifications s ∧
  ∀ K, p ≠ VStr K →
       families (after (leave_previous p n) s) !! K = families s !! K.
Proof.
  destruct (truthy p && negb (strict_eq p n)) eqn:Hc.
  - apply andb_true_iff in Hc as [Ht Hn]. apply negb_true_iff in Hn.
    destruct p as [|b|z|P|t|l|m];
      try (by unfold leave_previous; rewrite Ht, Hn).
    assert (P ≠ "") as HP.
    { intros ->. discriminate Ht. }
    rewrite leave_previous_run, after_try by done. fold_coll.
    rewrite !updateDoc_other by done. split; [done|]. split; [done|].
    intros K HK. rewrite updateDoc_same.
    destruct (get_coll Families s !! P); [|done].
    rewrite lookup_insert_ne; [done|congruence].
  - unfold leave_previous. by rewrite Hc.
Qed.

(** What the second block can change: the counter of the new family,
    raised by one when that family exists, and the notifications. *)
Lemma enter_new_frame p (F : string) U s :
  users (after (enter_new p (VStr F) U) s) = users s ∧
  ∀ K, families (after (enter_new p (VStr F) U) s) !! K = families s !! K ∨
       (K = F ∧ ∃ d, families s !! F = Some d ∧
          families (after (enter_new p (VStr F) U) s) !! F
          = Some (apply_payload (clock s) (count_by 1) d)).
Proof.
  destruct (truthy (VStr F) && negb (strict_eq p (VStr F))) eqn:Hc.
  - apply andb_true_iff in Hc as [Ht Hn]. apply negb_true_iff in Hn.
    assert (F ≠ "") as HF.
    { intros ->. discriminate Ht. }
    rewrite enter_new_run by done.
    rewrite after_bind, outcome_try, !after_try. unfold createNotification. fold_coll.
    rewrite !addDoc_other, !updateDoc_other by done. split; [done|].
    intros K. rewrite updateDoc_same.
    destruct (get_coll Families s !! F) as [d|] eqn:Hd; [|by left].
    destruct (decide (K = F)) as [->|HK].
    + right. split; [done|]. exists d. by rewrite lookup_insert_eq.
    + left. by rewrite lookup_insert_ne.
  - unfold enter_new. rewrite Hc. split; [done|]. by left.
Qed.

Lemma updateUserFamily_move st U u F1 F2 :
  U ≠ "" → F1 ≠ "" → F2 ≠ "" → F1 ≠ F2 →
  users st !! U = Some u → u !! "familyId" = Some (VStr F1) →
  updateUserFamily U (Some F2) st =
    (Ok (), after (createNotification (joined (VStr F2) U))
              (after (updateDoc Families F2 (count_by 1))
                 (after (updateDoc Families F1 (count_by (-1)))
                    (after (updateDoc Users U (set_family (VStr F2))) st)))).
Proof.
  intros HU HF1 HF2 Hne Hu Hfam.
  rewrite (updateUserFamily_found st U u) by done.
  rewrite Hfam. cbn [nullish_or of_opt_str].
  rewrite leave_previous_run, enter_new_run by (by rewrite ?strict_eq_str, ?eqb_ne).
  reflexivity.
Qed.

Lemma updateUserFamily_same st U u F :
  U ≠ "" → users st !! U = Some u → u !! "familyId" = Some (VStr F) →
  updateUserFamily U (Some F) st =
    (Ok (), after (updateDoc Users U (set_family (VStr F))) st).
Proof.
  intros HU Hu Hfam.
  rewrite (updateUserFamily_found st U u) by done.
  rewrite Hfam. cbn [nullish_or of_opt_str].
  rewrite leave_previous_skip, enter_new_skip
    by (right; rewrite strict_eq_str; apply String.eqb_refl).
  reflexivity.
Qed.

Lemma user_after_set_family st U u F :
  users st !! U = Some u →
  ∃ u', users (after (updateDoc Users U (set_family F)) st) !! U = Some u' ∧
        u' !! "familyId" = Some F ∧
        ∀ k, k ≠ "familyId" → k ≠ "updatedAt" → u' !! k = u !! k.
Proof.
  intros Hu. fold_coll. rewrite updateDoc_same, Hu, lookup_insert_eq.
  eexists. split; [done|]. split.
  - by rewrite lookup_apply_payload, lookup_insert_eq.
  - intros k Hk1 Hk2. by rewrite lookup_apply_payload, !lookup_insert_ne.
Qed.

(** C1. For every user U whose familyId is F1 and every family F2 other
    than F1, both with a counter in the range where the store adds
    exactly, [updateUserFamily U F2] succeeds and leaves U with
    familyId F2, F1's memberCount one lower, F2's memberCount one higher,
    and the notifications collection larger by exactly one document, of
    type 'general' and addressed to F2. *)
Theorem updateUserFamily_transfers_member st U u F1 F2 d1 d2 :
  wf_store st →
  users st !! U = Some u → u !! "familyId" = Some (VStr F1) →
  families st !! F1 = Some d1 → families st !! F2 = Some d2 →
  F1 ≠ F2 →
  safe_count (memberCount d1) = true → safe_count (memberCount d2) = true →
  let st' := after (updateUserFamily U (Some F2)) st in
  outcome (updateUserFamily U (Some F2)) st = Ok () ∧
  (∃ u', users st' !! U = Some u' ∧ u' !! "familyId" = Some (VStr F2)) ∧
  (∃ d1', families st' !! F1 = Some d1' ∧ memberCount d1' = (memberCount d1 - 1)%Z) ∧
  (∃ d2', families st' !! F2 = Some d2' ∧ memberCount d2' = (memberCount d2 + 1)%Z) ∧
  (∃ nid n, notifications st !! nid = None ∧
            notifications st' = <[nid := n]> (notifications st) ∧
            n !! "type" = Some (VStr "general") ∧
            n !! "familyId" = Some (VStr F2)).
Proof.
  intros Hwf Hu Hfam H1 H2 Hne _ _ st'.
  pose proof (wf_key_nonempty Users _ _ _ Hwf Hu) as HU.
  pose proof (wf_key_nonempty Families _ _ _ Hwf H1) as HF1.
  pose proof (wf_key_nonempty Families _ _ _ Hwf H2) as HF2.
  subst st'. unfold outcome, after at 1 2 3 4.
  rewrite (updateUserFamily_move st U u F1 F2) by done. cbn [fst snd].
  unfold createNotification. fold_coll.
  split; [done|]. repeat split.
  - rewrite addDoc_other, !updateDoc_other, updateDoc_same by done.
    rewrite Hu. eexists. rewrite lookup_insert_eq. split; [done|].
    by rewrite lookup_apply_payload, lookup_insert_eq.
  - rewrite addDoc_other, updateDoc_same by done.
    rewrite updateDoc_same, updateDoc_other, H1 by done.
    rewrite lookup_insert_ne, H2 by done.
    rewrite lookup_insert_ne, lookup_insert_eq by done.
    eexists. split; [done|]. rewrite memberCount_increment. lia.
  - rewrite addDoc_other, updateDoc_same by done.
    rewrite updateDoc_same, updateDoc_other, H1 by done.
    rewrite lookup_insert_ne, H2 by done.
    rewrite lookup_insert_eq.
    eexists. split; [done|]. by rewrite memberCount_increment.
  - eexists _, _. rewrite addDoc_same, !updateDoc_other by done.
    split; [apply auto_id_fresh|]. split; [done|].
    rewrite !lookup_apply_payload. unfold spread, join_notification.
    by rewrite !lookup_insert_ne, !lookup_fmap by done.
Qed.

Lemma example_store_wf : wf_store example_store.
Proof. intros []; reflexivity. Qed.

Lemma updateUserFamily_transfers_member_witness :
  outcome (updateUserFamily "u1" (Some "hope")) example_store = Ok ().
Proof.
  refine (proj1 (updateUserFamily_transfers_member
                   example_store "u1" (the_doc (users example_store) "u1")
                   "grace" "hope"
                   (the_doc (families example_store) "grace")
                   (the_doc (families example_store) "hope")
                   example_store_wf _ _ _ _ _ _ _)).
  - reflexivity.
  - reflexivity.
  - reflexivity.
  - reflexivity.
  - discriminate.
  - reflexivity.
  - reflexivity.
Defined.

(** After any call that found the user, the record names the requested
    family, and the counter of that family is where it was or one higher. *)
Lemma updateUserFamily_first st U u F :
  U ≠ "" → users st !! U = Some u →
  let s1 := after (updateUserFamily U (Some F)) st in
  (∃ u1, users s1 !! U = Some u1 ∧ u1 !! "familyId" = Some (VStr F)) ∧
  (families s1 !! F = families st !! F ∨
   ∃ d d', families st !! F = Some d ∧ families s1 !! F = Some d' ∧
           memberCount d' = (memberCount d + 1)%Z).
Proof.
  intros HU Hu s1. subst s1. unfold after at 1 2 3.
  rewrite (updateUserFamily_found st U u) by done. cbn [of_opt_str].
  set (prev := nullish_or (u !! "familyId") VNull).
  set (sa := after (updateDoc Users U (set_family (VStr F))) st).
  destruct (user_after_set_family st U u (VStr F) Hu) as (ua & Hua & Hfa & _).
  fold sa in Hua.
  assert (families sa = families st) as Hfams.
  { subst sa. fold_coll. by rewrite updateDoc_other. }
  change (((leave_previous prev (VStr F);;; enter_new prev (VStr F) U) sa).2)
    with (after (leave_previous prev (VStr F);;; enter_new prev (VStr F) U) sa).
  rewrite after_bind.
  destruct (leave_previous_frame prev (VStr F) sa) as (Hlu & _ & Hlf).
  destruct (enter_new_frame prev F U (after (leave_previous prev (VStr F)) sa))
    as (Heu & Hef).
  destruct (strict_eq prev (VStr F)) eqn:Hp.
  - rewrite leave_previous_skip, enter_new_skip by (by right).
    cbn. rewrite Hfams. split; [eauto|by left].
  - assert (prev ≠ VStr F) as Hne.
    { intros Heq. rewrite Heq, strict_eq_str, String.eqb_refl in Hp. done. }
    specialize (Hlf F Hne).
    destruct (outcome (leave_previous prev (VStr F)) sa).
    + rewrite Heu, Hlu. split; [eauto|].
      destruct (Hef F) as [Hsame|(_ & d & Hd & Hd')].
      * left. by rewrite Hsame, Hlf, Hfams.
      * right. rewrite Hlf, Hfams in Hd. exists d. eexists.
        split; [done|]. split; [done|]. apply memberCount_increment.
    + rewrite Hlu, Hlf, Hfams. split; [eauto|by left].
Qed.

(** C4. When U's familyId already is F, [updateUserFamily U F] touches no
    family counter and creates no notification; hence two calls in a row,
    from any state in which F's counter is in the range where the store
    adds exactly, raise F's memberCount by one at most. *)
Theorem updateUserFamily_same_family_idempotent st U F :
  (wf_store st →
   ∀ u, users st !! U = Some u → u !! "familyId" = Some (VStr F) →
     outcome (updateUserFamily U (Some F)) st = Ok () ∧
     families (after (updateUserFamily U (Some F)) st) = families st ∧
     notifications (after (updateUserFamily U (Some F)) st) = notifications st) ∧
  (∀ d, families st !! F = Some d → safe_count (memberCount d) = true →
     ∃ d2,
       families (after (updateUserFamily U (Some F))
                   (after (updateUserFamily U (Some F)) st)) !! F = Some d2 ∧
       (memberCount d2 = memberCount d ∨ memberCount d2 = (memberCount d + 1)%Z)).
Proof.
  split.
  - intros Hwf u Hu Hfam.
    pose proof (wf_key_nonempty Users _ _ _ Hwf Hu) as HU.
    unfold outcome, after.
    rewrite (updateUserFamily_same st U u F) by done. cbn [fst snd].
    fold_coll. by rewrite !updateDoc_other.
  - intros d Hd _.
    destruct (decide (U = "")) as [HU|HU].
    { rewrite !(updateUserFamily_absent _ U) by (left; exact HU). eauto. }
    destruct (users st !! U) as [u|] eqn:Hu.
    2: { rewrite (updateUserFamily_absent st U) by (right; exact Hu).
         rewrite (updateUserFamily_absent st U) by (right; exact Hu). eauto. }
    destruct (updateUserFamily_first st U u F HU Hu) as ((u1 & Hu1 & Hf1) & Hfam).
    set (s1 := after (updateUserFamily U (Some F)) st) in *.
    assert (families (after (updateUserFamily U (Some F)) s1) = families s1) as ->.
    { unfold after at 1. rewrite (updateUserFamily_same s1 U u1 F) by done.
      cbn [snd]. fold_coll. by rewrite updateDoc_other. }
    destruct Hfam as [->|(d0 & d' & Hd0 & Hd' & Hcount)].
    + eauto.
    + rewrite Hd in Hd0. injection Hd0 as <-. eauto.
Qed.

Lemma updateUserFamily_same_family_idempotent_witness :
  families (after (updateUserFamily "u1" (Some "grace")) example_store)
  = families example_store.
Proof.
  refine (proj1 (proj2 (proj1
    (updateUserFamily_same_family_idempotent example_store "u1" "grace")
    example_store_wf (the_doc (users example_store) "u1") _ _))).
  - reflexivity.
  - reflexivity.
Defined.

(** ** Promotion and demotion *)

Lemma role_after_set_role st U u r :
  users st !! U = Some u →
  role_of (after (updateDoc Users U (set_role r)) st) U = Some (VStr r).
Proof.
  intros Hu. unfold role_of. fold_coll.
  rewrite updateDoc_same, Hu, lookup_insert_eq. cbn.
  by rewrite lookup_apply_payload, lookup_insert_eq.
Qed.

Lemma user_after_update st U u p :
  users st !! U = Some u →
  is_Some (users (after (updateDoc Users U p) st) !! U).
Proof.
  intros Hu. fold_coll. rewrite updateDoc_same, Hu, lookup_insert_eq. eauto.
Qed.

Lemma promoteToAdmin_found st U u :
  U ≠ "" → users st !! U = Some u →
  promoteToAdmin U st = (Ok (), after (updateDoc Users U (set_role "admin")) st).
Proof.
  intros HU Hu. unfold promoteToAdmin, after. fs_simpl.
  rewrite docRef_ok by done. by rewrite (updateDoc_ok Users U _ st u Hu).
Qed.

Lemma demoteFromAdmin_found st U u :
  U ≠ "" → users st !! U = Some u →
  demoteFromAdmin U st = (Ok (), after (updateDoc Users U (set_role "member")) st).
Proof.
  intros HU Hu. unfold demoteFromAdmin, after. fs_simpl.
  rewrite docRef_ok by done. by rewrite (updateDoc_ok Users U _ st u Hu).
Qed.

Lemma promoteToAdmin_role st U u :
  U ≠ "" → users st !! U = Some u →
  outcome (promoteToAdmin U) st = Ok () ∧
  role_of (after (promoteToAdmin U) st) U = Some (VStr "admin") ∧
  is_Some (users (after (promoteToAdmin U) st) !! U).
Proof.
  intros HU Hu. unfold outcome, after.
  rewrite (promoteToAdmin_found st U u) by done. cbn [fst snd].
  eauto using role_after_set_role, user_after_update.
Qed.

Lemma demoteFromAdmin_role st U u :
  U ≠ "" → users st !! U = Some u →
  outcome (demoteFromAdmin U) st = Ok () ∧
  role_of (after (demoteFromAdmin U) st) U = Some (VStr "member") ∧
  is_Some (users (after (demoteFromAdmin U) st) !! U).
Proof.
  intros HU Hu. unfold outcome, after.
  rewrite (demoteFromAdmin_found st U u) by done. cbn [fst snd].
  eauto using role_after_set_role, user_after_update.
Qed.

(** C6. On an existing user, [promoteToAdmin] always succeeds and sets the
    role to 'admin' (no state of the store, however many admins it holds,
    makes it refuse), [demoteFromAdmin] sets it to 'member'; repeating
    either leaves the role as the first call set it, promoting then
    demoting ends at 'member', and demoting a member leaves the role as it
    was. *)
Theorem promote_demote_role st U u :
  wf_store st → users st !! U = Some u →
  let promoted := after (promoteToAdmin U) st in
  let demoted := after (demoteFromAdmin U) st in
  outcome (promoteToAdmin U) st = Ok () ∧
  role_of promoted U = Some (VStr "admin") ∧
  outcome (demoteFromAdmin U) st = Ok () ∧
  role_of demoted U = Some (VStr "member") ∧
  role_of (after (promoteToAdmin U) promoted) U = role_of promoted U ∧
  role_of (after (demoteFromAdmin U) demoted) U = role_of demoted U ∧
  role_of (after (demoteFromAdmin U) promoted) U = Some (VStr "member") ∧
  (role_of st U = Some (VStr "member") → role_of demoted U = role_of st U).
Proof.
  intros Hwf Hu promoted demoted.
  pose proof (wf_key_nonempty Users _ _ _ Hwf Hu) as HU.
  destruct (promoteToAdmin_role st U u HU Hu) as (Hp1 & Hp2 & [up Hup]).
  destruct (demoteFromAdmin_role st U u HU Hu) as (Hd1 & Hd2 & [ud Hud]).
  fold promoted in Hp2, Hup. fold demoted in Hd2, Hud.
  destruct (promoteToAdmin_role promoted U up HU Hup) as (_ & Hpp & _).
  destruct (demoteFromAdmin_role demoted U ud HU Hud) as (_ & Hdd & _).
  destruct (demoteFromAdmin_role promoted U up HU Hup) as (_ & Hpd & _).
  split_and!.
  - exact Hp1.
  - exact Hp2.
  - exact Hd1.
  - exact Hd2.
  - rewrite Hpp. symmetry. exact Hp2.
  - rewrite Hdd. symmetry. exact Hd2.
  - exact Hpd.
  - intros Hm. rewrite Hm. exact Hd2.
Qed.

Lemma promote_demote_role_witness :
  role_of (after (demoteFromAdmin "u1") (after (promoteToAdmin "u1") example_store)) "u1"
  = Some (VStr "member").
Proof.
  refine (proj1 (proj2 (proj2 (proj2 (proj2 (proj2 (proj2
    (promote_demote_role example_store "u1"
       (the_doc (users example_store) "u1") example_store_wf _)))))))).
  reflexivity.
Defined.

(** ** Deleting a user *)

Lemma deleteDoc_same c id s :
  get_coll c (after (deleteDoc c id) s) = delete id (get_coll c s).
Proof.
  unfold after, deleteDoc. cbn [snd].
  by rewrite get_coll_logged, get_set_coll_eq.
Qed.

Lemma deleteDoc_other c c' id s :
  c' ≠ c → get_coll c' (after (deleteDoc c id) s) = get_coll c' s.
Proof.
  intros Hc. unfold after, deleteDoc. cbn [snd].
  by rewrite get_coll_logged, get_set_coll_ne.
Qed.

Lemma deleteUser_member st U u F :
  U ≠ "" → F ≠ "" → users st !! U = Some u → u !! "familyId" = Some (VStr F) →
  deleteUser U st =
    (Ok (), after (deleteDoc Users U)
              (after (updateDoc Families F (count_by (-1))) st)).
Proof.
  intros HU HF Hu Hfam. unfold deleteUser, after. fs_simpl.
  rewrite docRef_ok by done. rewrite Hu. cbn [mbind option_bind].
  rewrite Hfam. cbn [truthy_opt truthy docRefV].
  rewrite (eqb_ne F "") by done. cbn [negb]. by rewrite docRef_ok.
Qed.

Lemma deleteUser_unassigned st U u :
  U ≠ "" → users st !! U = Some u → no_family u →
  deleteUser U st = (Ok (), after (deleteDoc Users U) st).
Proof.
  intros HU Hu Hno. unfold deleteUser, after. fs_simpl.
  rewrite docRef_ok by done. rewrite Hu. cbn [mbind option_bind].
  by destruct Hno as [-> | [-> | ->]].
Qed.

(** C7. Deleting a user whose familyId names family F, with a counter in
    the range where the store subtracts exactly, removes the user record
    and lowers F's memberCount by exactly one; deleting a user with no
    familyId removes the record and leaves every family as it was. *)
Theorem deleteUser_decrements_family st U u :
  wf_store st → users st !! U = Some u →
  (∀ F d, u !! "familyId" = Some (VStr F) → families st !! F = Some d →
     safe_count (memberCount d) = true →
     outcome (deleteUser U) st = Ok () ∧
     users (after (deleteUser U) st) !! U = None ∧
     ∃ d', families (after (deleteUser U) st) !! F = Some d' ∧
           memberCount d' = (memberCount d - 1)%Z) ∧
  (no_family u →
     outcome (deleteUser U) st = Ok () ∧
     users (after (deleteUser U) st) !! U = None ∧
     families (after (deleteUser U) st) = families st).
Proof.
  intros Hwf Hu.
  pose proof (wf_key_nonempty Users _ _ _ Hwf Hu) as HU.
  split.
  - intros F d Hfam Hd _.
    pose proof (wf_key_nonempty Families _ _ _ Hwf Hd) as HF.
    unfold outcome, after.
    rewrite (deleteUser_member st U u F) by done. cbn [fst snd]. fold_coll.
    rewrite deleteDoc_same, deleteDoc_other, updateDoc_same, Hd by done.
    rewrite lookup_delete_eq, lookup_insert_eq.
    split; [done|]. split; [done|]. eexists. split; [done|].
    rewrite memberCount_increment. lia.
  - intros Hno. unfold outcome, after.
    rewrite (deleteUser_unassigned st U u) by done. cbn [fst snd]. fold_coll.
    by rewrite deleteDoc_same, deleteDoc_other, lookup_delete_eq.
Qed.

Lemma deleteUser_decrements_family_witness :
  users (after (deleteUser "u1") example_store) !! "u1" = None.
Proof.
  refine (proj1 (proj2 (proj1
    (deleteUser_decrements_family example_store "u1"
       (the_doc (users example_store) "u1") example_store_wf _)
    "grace" (the_doc (families example_store) "grace") _ _ _))).
  - reflexivity.
  - reflexivity.
  - reflexivity.
  - reflexivity.
Defined.

(** ** Likes *)

Lemma likes_of_read post l :
  likes_of post = Some l → nullish_or (post !! "likes") (VArr []) = VArr l.
Proof.
  unfold likes_of. destruct (nullish_or _ _); try discriminate. congruence.
Qed.

Lemma filter_elems_total (f : value → bool) l :
  filter_elems (λ v, Ok (f v)) l = Ok (List.filter f l).
Proof.
  induction l as [|x l IH]; [done|]. cbn. rewrite IH. by destruct (f x).
Qed.

Lemma is_str_refl U : is_str U (VStr U) = true.
Proof. apply String.eqb_refl. Qed.

Lemma like_count_snoc U l : like_count U (l ++ [VStr U]) = S (like_count U l).
Proof.
  unfold like_count. rewrite List.filter_app, length_app.
  cbn [List.filter]. rewrite is_str_refl. cbn [length]. lia.
Qed.

Lemma like_count_existsb U l :
  existsb (is_str U) l = false ↔ like_count U l = 0.
Proof.
  unfold like_count. induction l as [|x l IH]; [done|]. cbn.
  destruct (is_str U x); cbn; [split; discriminate|exact IH].
Qed.

Lemma without_user_absent U l : like_count U l = 0 → without_user U l = l.
Proof.
  unfold like_count, without_user. induction l as [|x l IH]; [done|]. cbn.
  destruct (is_str U x); cbn; [discriminate|]. intros H. by rewrite IH.
Qed.

Lemma like_count_without_user U l : like_count U (without_user U l) = 0.
Proof.
  unfold like_count, without_user. induction l as [|x l IH]; [done|]. cbn.
  destruct (is_str U x) eqn:Hx; cbn; [done|]. by rewrite Hx.
Qed.

Lemma likePost_found st P post l U :
  P ≠ "" → posts st !! P = Some post → likes_of post = Some l →
  likePost P U st =
    if existsb (is_str U) l then (Ok (), st)
    else (Ok (), after (updateDoc Posts P (set_likes (l ++ [VStr U]))) st).
Proof.
  intros HP Hp Hl. unfold likePost, after. fs_simpl.
  rewrite docRef_ok by done. rewrite Hp, (likes_of_read post l Hl).
  cbn [js_includes js_push]. destruct (existsb (is_str U) l); [done|].
  cbn [negb]. by rewrite (updateDoc_ok Posts P _ st post Hp).
Qed.

Lemma unlikePost_found st P post l U :
  P ≠ "" → posts st !! P = Some post → likes_of post = Some l →
  unlikePost P U st =
    (Ok (), after (updateDoc Posts P (set_likes (without_user U l))) st).
Proof.
  intros HP Hp Hl. unfold unlikePost, after, without_user. fs_simpl.
  rewrite docRef_ok by done. rewrite Hp, (likes_of_read post l Hl).
  cbn [js_filter]. rewrite filter_elems_total.
  by rewrite (updateDoc_ok Posts P _ st post Hp).
Qed.

Lemma post_after_set_likes st P post l :
  posts st !! P = Some post →
  ∃ p', posts (after (updateDoc Posts P (set_likes l)) st) !! P = Some p' ∧
        likes_of p' = Some l.
Proof.
  intros Hp. fold_coll. rewrite updateDoc_same, Hp, lookup_insert_eq.
  eexists. split; [done|]. unfold likes_of.
  by rewrite lookup_apply_payload, lookup_insert_eq.
Qed.

(** C5. On an existing post whose likes hold U at most once, one or two
    calls of [likePost] leave U in the likes exactly once, and the second
    call changes nothing at all; [unlikePost] for a user who is not among
    the likes leaves the likes as they were, so after a removal every
    further [unlikePost] keeps them unchanged. *)
Theorem like_unlike_idempotent st P post l U :
  wf_store st → posts st !! P = Some post → likes_of post = Some l →
  like_count U l ≤ 1 →
  let once := after (likePost P U) st in
  let twice := after (likePost P U) once in
  let un1 := after (unlikePost P U) st in
  let un2 := after (unlikePost P U) un1 in
  let un3 := after (unlikePost P U) un2 in
  (outcome (likePost P U) st = Ok () ∧ outcome (likePost P U) once = Ok ()) ∧
  (∃ p1 l1, posts once !! P = Some p1 ∧ likes_of p1 = Some l1 ∧ like_count U l1 = 1) ∧
  twice = once ∧
  (like_count U l = 0 →
     ∃ p', posts un1 !! P = Some p' ∧ likes_of p' = Some l) ∧
  (∃ p1 p2 p3 l', posts un1 !! P = Some p1 ∧ likes_of p1 = Some l' ∧
                  like_count U l' = 0 ∧
                  posts un2 !! P = Some p2 ∧ likes_of p2 = Some l' ∧
                  posts un3 !! P = Some p3 ∧ likes_of p3 = Some l').
Proof.
  intros Hwf Hp Hl Hcount once twice un1 un2 un3.
  pose proof (wf_key_nonempty Posts _ _ _ Hwf Hp) as HP.
  assert (∃ p1 l1, posts once !! P = Some p1 ∧ likes_of p1 = Some l1 ∧
                   like_count U l1 = 1 ∧ existsb (is_str U) l1 = true ∧
                   outcome (likePost P U) st = Ok ())
    as (p1 & l1 & Hp1 & Hl1 & Hc1 & He1 & Hok1).
  { subst once. unfold outcome, after.
    rewrite (likePost_found st P post l U) by done.
    destruct (existsb (is_str U) l) eqn:He; cbn [fst snd].
    - exists post, l. split_and!; try done.
      destruct (like_count U l) as [|[|n]] eqn:Hn; [|done|lia].
      apply like_count_existsb in Hn. congruence.
    - destruct (post_after_set_likes st P post (l ++ [VStr U]) Hp)
        as (p' & Hp' & Hl').
      exists p', (l ++ [VStr U]). split_and!; try done.
      + rewrite like_count_snoc. apply like_count_existsb in He. lia.
      + rewrite existsb_app. cbn [existsb]. rewrite is_str_refl.
        apply orb_true_r. }
  assert (likePost P U once = (Ok (), once)) as Htwice.
  { rewrite (likePost_found once P p1 l1 U) by done. by rewrite He1. }
  split; [split; [done|]; unfold outcome; by rewrite Htwice|].
  split; [eauto|].
  split; [subst twice; unfold after; by rewrite Htwice|].
  assert (∀ s p k, posts s !! P = Some p → likes_of p = Some k →
            ∃ p', posts (after (unlikePost P U) s) !! P = Some p' ∧
                  likes_of p' = Some (without_user U k)) as Hun.
  { intros s p k Hs Hk. unfold after at 1.
    rewrite (unlikePost_found s P p k U) by done. cbn [snd].
    by apply (post_after_set_likes s P p). }
  split.
  - intros H0. destruct (Hun st post l Hp Hl) as (p' & Hp' & Hl').
    exists p'. by rewrite without_user_absent in Hl'.
  - destruct (Hun st post l Hp Hl) as (q1 & Hq1 & Hk1).
    destruct (Hun un1 q1 _ Hq1 Hk1) as (q2 & Hq2 & Hk2).
    rewrite (without_user_absent U (without_user U l)) in Hk2
      by apply like_count_without_user.
    destruct (Hun un2 q2 _ Hq2 Hk2) as (q3 & Hq3 & Hk3).
    rewrite (without_user_absent U (without_user U l)) in Hk3
      by apply like_count_without_user.
    exists q1, q2, q3, (without_user U l).
    split_and!; try done. apply like_count_without_user.
Qed.

Lemma like_unlike_idempotent_witness :
  after (likePost "0" "u1") (after (likePost "0" "u1") example_store)
  = after (likePost "0" "u1") example_store.
Proof.
  refine (proj1 (proj2 (proj2
    (like_unlike_idempotent example_store "0"
       (the_doc (posts example_store) "0") [] "u1" example_store_wf _ _ _)))).
  - reflexivity.
  - reflexivity.
  - cbn. lia.
Defined.

(** ** Likes stay a set *)

(** The hypothesis of C5 is the data model's: a new post starts with no
    likes, and neither function ever makes a user occur twice. *)

Lemma createPost_no_likes st post :
  ∃ p, posts (after (createPost post) st) !! auto_id (posts st) = Some p ∧
       likes_of p = Some [].
Proof.
  unfold createPost. fold_coll. rewrite addDoc_same, lookup_insert_eq.
  eexists. split; [done|]. unfold likes_of.
  rewrite lookup_apply_payload.
  rewrite !(lookup_insert_ne _ _ "likes"), lookup_insert_eq by done.
  done.
Qed.

Lemma like_count_snoc_other U V l :
  U ≠ V → like_count V (l ++ [VStr U]) = like_count V l.
Proof.
  intros Hne. unfold like_count. rewrite List.filter_app, length_app.
  cbn [List.filter is_str]. rewrite (eqb_ne U V) by done. cbn [length]. lia.
Qed.

Lemma like_count_without_user_le U V l :
  like_count V (without_user U l) ≤ like_count V l.
Proof.
  unfold like_count, without_user. induction l as [|x l IH]; [done|].
  cbn [List.filter]. destruct (is_str U x); cbn [negb List.filter];
    destruct (is_str V x); cbn [length]; lia.
Qed.

Lemma likes_stay_a_set st P post l U V :
  wf_store st → posts st !! P = Some post → likes_of post = Some l →
  like_count V l ≤ 1 →
  (∃ p1 l1, posts (after (likePost P U) st) !! P = Some p1 ∧
            likes_of p1 = Some l1 ∧ like_count V l1 ≤ 1) ∧
  (∃ p2 l2, posts (after (unlikePost P U) st) !! P = Some p2 ∧
            likes_of p2 = Some l2 ∧ like_count V l2 ≤ 1).
Proof.
  intros Hwf Hp Hl Hcount.
  pose proof (wf_key_nonempty Posts _ _ _ Hwf Hp) as HP.
  split.
  - pose proof (likePost_found st P post l U HP Hp Hl) as Hrun.
    destruct (existsb (is_str U) l) eqn:He;
      apply run_eq in Hrun as [_ Haft].
    + rewrite Haft. eauto.
    + destruct (post_after_set_likes st P post (l ++ [VStr U]) Hp)
        as (p' & Hp' & Hl').
      rewrite Haft. exists p', (l ++ [VStr U]). split_and!; try done.
      destruct (decide (U = V)) as [->|Hne].
      * rewrite like_count_snoc. apply like_count_existsb in He. lia.
      * by rewrite like_count_snoc_other.
  - destruct (run_eq _ _ _ _ (unlikePost_found st P post l U HP Hp Hl)) as [_ Haft].
    destruct (post_after_set_likes st P post (without_user U l) Hp)
      as (p' & Hp' & Hl').
    rewrite Haft. exists p', (without_user U l). split_and!; try done.
    pose proof (like_count_without_user_le U V l). lia.
Qed.

(** ** What liking leaves alone *)



Lemma post_frame_likes st P post v :
  posts st !! P = Some post →
  ∃ p', posts (after (updateDoc Posts P (<["likes" := Lit v]> ∅)) st) !! P = Some p' ∧
        ∀ k, k ≠ "likes" → p' !! k = post !! k.
Proof.
  intros Hp. fold_coll. rewrite updateDoc_same, Hp, lookup_insert_eq.
  eexists. split; [done|]. intros k Hk.
  by rewrite lookup_apply_payload, lookup_insert_ne.
Qed.



(** ** Comments *)

Lemma comments_of_read post l :
  comments_of post = Some l → nullish_or (post !! "comments") (VArr []) = VArr l.
Proof.
  unfold comments_of. destruct (nullish_or _ _); try discriminate. congruence.
Qed.

Lemma other_comment_has_id cid c :
  c ≠ VNull → other_comment cid c = Ok (negb (has_id cid c)).
Proof.
  intros Hc. unfold other_comment, has_id.
  destruct c as [|b|n|s|t|l|m]; try done;
    cbn; destruct (m !! "id") as [[]|]; done.
Qed.

(** The loop of the source, whose callback may throw, computes the plain
    filter of the specification when no entry is [null]. *)
Lemma filter_elems_remove_by_id cid l :
  VNull ∉ l → filter_elems (other_comment cid) l = Ok (remove_by_id cid l).
Proof.
  unfold remove_by_id. induction l as [|c l IH]; [done|].
  intros Hnull. apply not_elem_of_cons in Hnull as [Hc Hl].
  cbn. rewrite other_comment_has_id, IH by done.
  by destruct (has_id cid c).
Qed.

Lemma remove_by_id_app cid l1 l2 :
  remove_by_id cid (l1 ++ l2) = remove_by_id cid l1 ++ remove_by_id cid l2.
Proof. apply List.filter_app. Qed.

Lemma remove_by_id_sublist cid l : sublist (remove_by_id cid l) l.
Proof.
  unfold remove_by_id. induction l as [|c l IH]; [constructor|]. cbn.
  destruct (has_id cid c); cbn; by constructor.
Qed.

Lemma remove_by_id_spec cid l c :
  c ∈ remove_by_id cid l ↔ c ∈ l ∧ has_id cid c = false.
Proof.
  unfold remove_by_id. rewrite !list_elem_of_In, List.filter_In.
  by rewrite negb_true_iff.
Qed.

Lemma deleteComment_found st P post l cid :
  P ≠ "" → posts st !! P = Some post → comments_of post = Some l → VNull ∉ l →
  deleteComment P cid st =
    (Ok (), after (updateDoc Posts P (set_comments (remove_by_id cid l))) st).
Proof.
  intros HP Hp Hl Hnull. unfold deleteComment, after. fs_simpl.
  rewrite docRef_ok by done. rewrite Hp, (comments_of_read post l Hl).
  cbn [js_filter]. rewrite filter_elems_remove_by_id by done.
  by rewrite (updateDoc_ok Posts P _ st post Hp).
Qed.

Lemma addComment_found st P post l c now :
  P ≠ "" → posts st !! P = Some post → comments_of post = Some l →
  addComment P c now st =
    (Ok (), after (updateDoc Posts P
                     (set_comments
                        (l ++ [VObj (<["createdAt" := VTime now]>
                                       (c ∪ {["id" := VStr (pretty now)]}))])))
              st).
Proof.
  intros HP Hp Hl. unfold addComment, after. fs_simpl.
  rewrite docRef_ok by done. rewrite Hp, (comments_of_read post l Hl).
  cbn [js_push]. by rewrite (updateDoc_ok Posts P _ st post Hp).
Qed.

Lemma post_after_set_comments st P post l :
  posts st !! P = Some post →
  ∃ p', posts (after (updateDoc Posts P (set_comments l)) st) !! P = Some p' ∧
        comments_of p' = Some l.
Proof.
  intros Hp. fold_coll. rewrite updateDoc_same, Hp, lookup_insert_eq.
  eexists. split; [done|]. unfold comments_of.
  by rewrite lookup_apply_payload, lookup_insert_eq.
Qed.

Lemma new_comment_has_id (c : doc) now :
  c !! "id" = None →
  has_id (pretty now)
    (VObj (<["createdAt" := VTime now]> (c ∪ {["id" := VStr (pretty now)]}))) = true.
Proof.
  intros Hc. unfold has_id.
  rewrite lookup_insert_ne by done.
  rewrite lookup_union_r by done. rewrite lookup_singleton_eq.
  apply String.eqb_refl.
Qed.

(** C9. On a post whose comments hold no [null] entry, [deleteComment]
    writes back the comments without every entry whose id is commentId:
    none with that id remains, every other comment stays, and the order is
    kept.  In particular two comments added at the same clock reading
    share their id, and one [deleteComment] removes both. *)
Theorem deleteComment_removes_every_match st P post l cid :
  wf_store st → posts st !! P = Some post → comments_of post = Some l →
  VNull ∉ l →
  outcome (deleteComment P cid) st = Ok () ∧
  (∃ p', posts (after (deleteComment P cid) st) !! P = Some p' ∧
         comments_of p' = Some (remove_by_id cid l)) ∧
  Forall (λ c, has_id cid c = false) (remove_by_id cid l) ∧
  (∀ c, c ∈ l → has_id cid c = false → c ∈ remove_by_id cid l) ∧
  sublist (remove_by_id cid l) l ∧
  (∀ (c1 c2 : doc) now, c1 !! "id" = None → c2 !! "id" = None →
     let added := after (addComment P c2 now) (after (addComment P c1 now) st) in
     (∃ p2 o1 o2, posts added !! P = Some p2 ∧
                  comments_of p2 = Some (l ++ [o1; o2]) ∧
                  has_id (pretty now) o1 = true ∧ has_id (pretty now) o2 = true) ∧
     ∃ p3, posts (after (deleteComment P (pretty now)) added) !! P = Some p3 ∧
           comments_of p3 = Some (remove_by_id (pretty now) l)).
Proof.
  intros Hwf Hp Hl Hnull.
  pose proof (wf_key_nonempty Posts _ _ _ Hwf Hp) as HP.
  split_and!.
  - unfold outcome. by rewrite (deleteComment_found st P post l cid).
  - unfold after at 1. rewrite (deleteComment_found st P post l cid) by done.
    cbn [snd]. by apply (post_after_set_comments st P post).
  - apply Forall_forall. intros c Hc. by apply remove_by_id_spec in Hc as [_ ?].
  - intros c Hc Hid. by apply remove_by_id_spec.
  - apply remove_by_id_sublist.
  - intros c1 c2 now Hc1 Hc2 added.
    set (o1 := VObj (<["createdAt" := VTime now]> (c1 ∪ {["id" := VStr (pretty now)]}))).
    set (o2 := VObj (<["createdAt" := VTime now]> (c2 ∪ {["id" := VStr (pretty now)]}))).
    destruct (post_after_set_comments st P post (l ++ [o1]) Hp) as (q1 & Hq1 & Hk1).
    assert (after (addComment P c1 now) st
            = after (updateDoc Posts P (set_comments (l ++ [o1]))) st) as Ha1.
    { unfold after at 1. by rewrite (addComment_found st P post l c1 now). }
    rewrite <- Ha1 in Hq1.
    destruct (post_after_set_comments _ P q1 ((l ++ [o1]) ++ [o2]) Hq1)
      as (q2 & Hq2 & Hk2).
    assert (added = after (updateDoc Posts P (set_comments ((l ++ [o1]) ++ [o2])))
                      (after (addComment P c1 now) st)) as Ha2.
    { subst added. unfold after at 1.
      by rewrite (addComment_found _ P q1 (l ++ [o1]) c2 now). }
    rewrite <- Ha2 in Hq2. rewrite <- app_assoc in Hk2. cbn [app] in Hk2.
    assert (has_id (pretty now) o1 = true) as Ho1 by by apply new_comment_has_id.
    assert (has_id (pretty now) o2 = true) as Ho2 by by apply new_comment_has_id.
    split.
    + by exists q2, o1, o2.
    + unfold after at 1.
      rewrite (deleteComment_found added P q2 (l ++ [o1; o2]) (pretty now));
        try done.
      * cbn [snd]. rewrite remove_by_id_app.
        replace (remove_by_id (pretty now) [o1; o2]) with (@nil value).
        -- rewrite app_nil_r. by apply (post_after_set_comments added P q2).
        -- unfold remove_by_id. cbn [List.filter]. by rewrite Ho1, Ho2.
      * rewrite elem_of_app, !elem_of_cons, elem_of_nil. intros [?|[?|[?|[]]]]; done.
Qed.

Lemma deleteComment_removes_every_match_witness :
  ∃ p3, posts (after (deleteComment "0" (pretty 17%N))
                 (after (addComment "0" (<["content" := VStr "Amen"]> ∅) 17)
                    (after (addComment "0" (<["content" := VStr "Hello"]> ∅) 17)
                       example_store))) !! "0" = Some p3 ∧
        comments_of p3 = Some (remove_by_id (pretty 17%N) []).
Proof.
  refine (proj2 (proj2 (proj2 (proj2 (proj2 (proj2
    (deleteComment_removes_every_match example_store "0"
       (the_doc (posts example_store) "0") [] "17" example_store_wf _ _ _)))))
    (<["content" := VStr "Hello"]> ∅) (<["content" := VStr "Amen"]> ∅) 17%N _ _)).
  - reflexivity.
  - reflexivity.
  - apply not_elem_of_nil.
  - reflexivity.
  - reflexivity.
Defined.

(** ** Approving a family request *)

Lemma createFamily_auto st data :
  truthy_opt (data !! "id") = false →
  createFamily data st = addDoc Families (family_payload data) st.
Proof. intros Hid. unfold createFamily. by rewrite Hid. Qed.

Lemma approveFamilyRequest_found st R req fd :
  R ≠ "" → familyRequests st !! R = Some req →
  truthy_opt (default req fd !! "id") = false →
  approveFamilyRequest R fd st =
    (Ok (), after (addDoc Families (family_payload (default req fd)))
              (after (updateDoc FamilyRequests R approve_payload) st)).
Proof.
  intros HR Hreq Hid. unfold approveFamilyRequest, after. fs_simpl.
  rewrite docRef_ok by done. rewrite Hreq.
  rewrite (updateDoc_ok FamilyRequests R _ st req Hreq).
  by rewrite createFamily_auto.
Qed.

(** One approval, whatever the status the request already has. *)
Lemma approveFamilyRequest_once st R req fd :
  wf_store st → familyRequests st !! R = Some req →
  truthy_opt (default req fd !! "id") = false →
  let s1 := after (approveFamilyRequest R fd) st in
  outcome (approveFamilyRequest R fd) st = Ok () ∧
  wf_store s1 ∧
  (∃ req1, familyRequests s1 !! R = Some req1 ∧
           req1 !! "status" = Some (VStr "approved") ∧
           req1 !! "reviewedAt" = Some (VTime (clock st)) ∧
           ∀ k, k ≠ "status" → k ≠ "reviewedAt" → req1 !! k = req !! k) ∧
  (∃ fid fam, families st !! fid = None ∧
              families s1 = <[fid := fam]> (families st) ∧
              fam !! "memberCount"
              = Some (nullish_or (default req fd !! "memberCount") (VNum 0)) ∧
              ∀ k, k ≠ "memberCount" → k ≠ "createdAt" →
                   fam !! k = default req fd !! k).
Proof.
  intros Hwf Hreq Hid s1.
  pose proof (wf_key_nonempty FamilyRequests _ _ _ Hwf Hreq) as HR.
  destruct (run_eq _ _ _ _ (approveFamilyRequest_found st R req fd HR Hreq Hid))
    as [Hout Haft].
  subst s1. rewrite Hout, !Haft.
  split; [done|]. split; [by apply wf_addDoc, wf_updateDoc|]. split.
  - fold_coll. rewrite addDoc_other, updateDoc_same, Hreq by done.
    rewrite lookup_insert_eq. eexists. split; [done|].
    rewrite !lookup_apply_payload, lookup_insert_eq.
    rewrite lookup_insert_ne, lookup_insert_eq by done.
    split; [done|]. split; [done|]. intros k Hk1 Hk2.
    by rewrite lookup_apply_payload, !lookup_insert_ne.
  - fold_coll. rewrite addDoc_same, !updateDoc_other by done.
    eexists _, _. split; [apply auto_id_fresh|]. split; [done|]. split.
    + rewrite lookup_apply_payload, lookup_insert_ne by done.
      by rewrite lookup_insert_eq.
    + intros k Hk1 Hk2.
      rewrite lookup_apply_payload, !lookup_insert_ne by done.
      unfold spread. rewrite lookup_fmap, lookup_empty.
      by destruct (default req fd !! k).
Qed.

(** On an object without undefined properties the check of the payload
    passes, and [createFamily_raw] is [createFamily] on its values. *)
Lemma createFamily_raw_defined (o : jsobj) s :
  map_Forall (λ _ v, is_Some v) o →
  createFamily_raw o s = createFamily (omap id o) s.
Proof.
  intros Hdef. unfold createFamily_raw, createFamily, prop.
  rewrite !lookup_omap.
  set (c := nullish_or (o !! "memberCount" ≫= id) (VNum 0)).
  assert (omap id (spread_raw o) = spread (omap id o)) as Hspread.
  { apply map_eq. intros k. unfold spread_raw, spread.
    rewrite lookup_omap, !lookup_fmap, lookup_omap.
    by destruct (o !! k) as [[v|]|]. }
  assert (check_payload
            (<["createdAt" := Some ServerTimestamp]>
               (<["memberCount" := Some (Lit c)]> (spread_raw o))) s
          = (Ok (<["createdAt" := ServerTimestamp]>
                   (<["memberCount" := Lit c]> (spread (omap id o)))), s)) as Hcheck.
  { unfold check_payload. rewrite bool_decide_true.
    - unfold ret. do 2 f_equal.
      rewrite (omap_insert_Some id _ "createdAt" _ ServerTimestamp) by done.
      rewrite (omap_insert_Some id _ "memberCount" _ (Lit c)) by done.
      by rewrite Hspread.
    - apply map_Forall_insert_2; [by eexists|].
      apply map_Forall_insert_2; [by eexists|].
      intros k f. unfold spread_raw. rewrite lookup_fmap. intros Hf.
      destruct (o !! k) as [v|] eqn:Hk; [|discriminate].
      destruct (Hdef k v Hk) as [w ->]. injection Hf as <-. by eexists. }
  destruct (truthy_opt (o !! "id" ≫= id)).
  - unfold bind. destruct (docRefV (o !! "id" ≫= id) s) as [[r|e] s1] eqn:Hr; [|done].
    assert (s1 = s) as ->.
    { unfold docRefV, docRef, ret, throw in Hr.
      destruct (o !! "id" ≫= id) as [[]|]; try (by injection Hr);
        by destruct (String.eqb _ _); injection Hr. }
    by rewrite Hcheck.
  - unfold bind. by rewrite Hcheck.
Qed.

Lemma approveFamilyRequest_raw_defined R (o : jsobj) s :
  map_Forall (λ _ v, is_Some v) o →
  approveFamilyRequest_raw R (Some o) s = approveFamilyRequest R (Some (omap id o)) s.
Proof.
  intros Hdef. unfold approveFamilyRequest_raw, approveFamilyRequest, bind.
  destruct (docRef R s) as [[r|e] s1]; [|done].
  destruct (getDoc FamilyRequests r s1) as [[[req|]|e] s2]; try done.
  destruct (updateDoc FamilyRequests r _ s2) as [[[]|e] s3]; [|done].
  cbn [default]. by rewrite createFamily_raw_defined.
Qed.

(** C2, as amended. On an existing request, [approveFamilyRequest] called
    with overrides that hold no undefined property and no id marks the
    request approved with a review timestamp and adds exactly one family,
    whose name and description are those of the overrides and whose
    memberCount is the overrides' count, 0 when they give none.  A second
    call on the now approved request is not refused: it succeeds in the
    same way and adds one further family. *)
Theorem approveFamilyRequest_creates_family st R req (o : jsobj) :
  wf_store st → familyRequests st !! R = Some req →
  map_Forall (λ _ v, is_Some v) o →
  truthy_opt (prop o "id") = false →
  let s1 := after (approveFamilyRequest_raw R (Some o)) st in
  let s2 := after (approveFamilyRequest_raw R (Some o)) s1 in
  outcome (approveFamilyRequest_raw R (Some o)) st = Ok () ∧
  (∃ req1, familyRequests s1 !! R = Some req1 ∧
           req1 !! "status" = Some (VStr "approved") ∧
           req1 !! "reviewedAt" = Some (VTime (clock st))) ∧
  (∃ fid fam, families st !! fid = None ∧
              families s1 = <[fid := fam]> (families st) ∧
              fam !! "name" = prop o "name" ∧
              fam !! "description" = prop o "description" ∧
              fam !! "memberCount"
              = Some (nullish_or (prop o "memberCount") (VNum 0))) ∧
  outcome (approveFamilyRequest_raw R (Some o)) s1 = Ok () ∧
  (∃ fid2 fam2, families s1 !! fid2 = None ∧
                families s2 = <[fid2 := fam2]> (families s1)).
Proof.
  intros Hwf Hreq Hdef Hid s1 s2. subst s1 s2. unfold outcome, after, prop in *.
  rewrite !approveFamilyRequest_raw_defined by done.
  set (fd := Some (omap id o)).
  change ((approveFamilyRequest R fd st).2) with (after (approveFamilyRequest R fd) st).
  change ((approveFamilyRequest R fd st).1) with (outcome (approveFamilyRequest R fd) st).
  set (s1 := after (approveFamilyRequest R fd) st).
  change ((approveFamilyRequest R fd s1).2) with (after (approveFamilyRequest R fd) s1).
  change ((approveFamilyRequest R fd s1).1) with (outcome (approveFamilyRequest R fd) s1).
  assert (∀ r : doc, truthy_opt (default r fd !! "id") = false) as Hnoid.
  { intros r. change (default r fd) with (omap id o). by rewrite lookup_omap. }
  destruct (approveFamilyRequest_once st R req fd Hwf Hreq (Hnoid req))
    as (Hok & Hwf1 & (req1 & Hreq1 & Hst & Hat & _) & (fid & fam & Hfresh & Hfams & Hc & Hk)).
  fold s1 in Hwf1, Hreq1, Hfams.
  destruct (approveFamilyRequest_once s1 R req1 fd Hwf1 Hreq1 (Hnoid req1))
    as (Hok2 & _ & _ & (fid2 & fam2 & Hfresh2 & Hfam2 & _)).
  split; [done|]. split; [eauto|]. split.
  - exists fid, fam. split; [done|]. split; [done|].
    change (default req fd) with (omap id o) in Hc, Hk.
    rewrite !Hk by done. by rewrite Hc, !lookup_omap.
  - split; [done|]. eauto.
Qed.

Lemma approveFamilyRequest_creates_family_witness :
  outcome (approveFamilyRequest_raw "0" (Some (<["name" := Some (VStr "Joy")]> ∅)))
    example_store = Ok ().
Proof.
  refine (proj1
    (approveFamilyRequest_creates_family example_store "0"
       (the_doc (familyRequests example_store) "0")
       (<["name" := Some (VStr "Joy")]> ∅) example_store_wf _ _ _)).
  - reflexivity.
  - refine (bool_decide_unpack _ _). vm_compute. reflexivity.
  - reflexivity.
Defined.

(** C2 as stated fails, on the request "0" of the example store.  The
    second approval of the approved request returns normally and the
    families collection grows once more.  Approved without overrides, the
    new family has no name: it holds the request's fields as they are
    stored, its familyName among them.  Overrides with a count of 5 give a
    family with memberCount 5, not 0.  Overrides with the id of an
    existing family add no family.  The overrides the dashboards pass hold
    an undefined imageUrl: the request is marked approved, the payload is
    refused, and no family is added. *)
Lemma approveFamilyRequest_twice_counterexample :
  let req := the_doc (familyRequests example_store) "0" in
  let fid := auto_id (families example_store) in
  let s1 := after (approveFamilyRequest_raw "0" None) example_store in
  let s2 := after (approveFamilyRequest_raw "0" None) s1 in
  let counted :=
    approveFamilyRequest_raw "0"
      (Some (<["name" := Some (VStr "Joy")]> (<["memberCount" := Some (VNum 5)]> ∅))) in
  let merged :=
    approveFamilyRequest_raw "0"
      (Some (<["id" := Some (VStr "grace")]> (<["name" := Some (VStr "Joy")]> ∅))) in
  let refused := approveFamilyRequest_raw "0" (Some (approval_overrides req 0)) in
  (the_doc (familyRequests s1) "0" !! "status" = Some (VStr "approved") ∧
   outcome (approveFamilyRequest_raw "0" None) s1 = Ok () ∧
   size (families example_store) = 2 ∧
   size (families s1) = 3 ∧ size (families s2) = 4) ∧
  (families example_store !! fid = None ∧
   the_doc (families s1) fid !! "name" = None ∧
   the_doc (families s1) fid !! "familyName" = Some (VStr "Joy")) ∧
  (outcome counted example_store = Ok () ∧
   the_doc (families (after counted example_store)) fid !! "memberCount"
   = Some (VNum 5)) ∧
  (outcome merged example_store = Ok () ∧
   size (families (after merged example_store)) = 2) ∧
  (outcome refused example_store = Err FsInvalidArgument ∧
   the_doc (familyRequests (after refused example_store)) "0" !! "status"
   = Some (VStr "approved") ∧
   size (families (after refused example_store)) = 2).
Proof. cbv zeta. split_and!; vm_compute; reflexivity. Qed.

(** ** Reviewing an admin request *)

Lemma reviewAdminRequest_found st R req U u dec rev :
  R ≠ "" → U ≠ "" → adminRequests st !! R = Some req →
  req !! "userId" = Some (VStr U) → users st !! U = Some u →
  reviewAdminRequest R dec rev st =
    (Ok (), match dec with
            | approved =>
                after (updateDoc Users U (set_role "admin"))
                  (after (updateDoc AdminRequests R (review_payload dec rev)) st)
            | rejected =>
                after (updateDoc AdminRequests R (review_payload dec rev)) st
            end).
Proof.
  intros HR HU Hreq Huid Hu. unfold reviewAdminRequest, after. fs_simpl.
  rewrite docRef_ok by done. rewrite Hreq.
  rewrite (updateDoc_ok AdminRequests R _ st req Hreq).
  destruct dec; [|done]. rewrite Huid. cbn [docRefV].
  rewrite docRef_ok by done. cbn [snd].
  match goal with
  | |- context [updateDoc Users U ?p ?s] =>
      by rewrite (updateDoc_ok Users U p s u Hu)
  end.
Qed.

(** One review, whatever the status the request already has. *)
Lemma reviewAdminRequest_once st R req U u dec rev :
  wf_store st → adminRequests st !! R = Some req →
  req !! "userId" = Some (VStr U) → users st !! U = Some u →
  let s1 := after (reviewAdminRequest R dec rev) st in
  outcome (reviewAdminRequest R dec rev) st = Ok () ∧
  wf_store s1 ∧
  (∃ req1, adminRequests s1 !! R = Some req1 ∧
           req1 !! "status" = Some (VStr (decision_name dec)) ∧
           req1 !! "reviewedAt" = Some (VTime (clock st)) ∧
           req1 !! "reviewedBy" = Some (VStr rev) ∧
           req1 !! "userId" = Some (VStr U)) ∧
  is_Some (users s1 !! U) ∧
  (dec = approved → role_of s1 U = Some (VStr "admin")) ∧
  (dec = rejected → users s1 = users st).
Proof.
  intros Hwf Hreq Huid Hu s1.
  pose proof (wf_key_nonempty AdminRequests _ _ _ Hwf Hreq) as HR.
  pose proof (wf_key_nonempty Users _ _ _ Hwf Hu) as HU.
  destruct (run_eq _ _ _ _
              (reviewAdminRequest_found st R req U u dec rev HR HU Hreq Huid Hu))
    as [Hout Haft].
  subst s1. rewrite Hout, !Haft. clear Hout Haft.
  set (sa := after (updateDoc AdminRequests R (review_payload dec rev)) st).
  assert (users sa = users st) as Hus.
  { subst sa. fold_coll. by rewrite updateDoc_other. }
  assert (∃ req1, adminRequests sa !! R = Some req1 ∧
           req1 !! "status" = Some (VStr (decision_name dec)) ∧
           req1 !! "reviewedAt" = Some (VTime (clock st)) ∧
           req1 !! "reviewedBy" = Some (VStr rev) ∧
           req1 !! "userId" = Some (VStr U)) as Hrec.
  { subst sa. fold_coll. rewrite updateDoc_same, Hreq, lookup_insert_eq.
    eexists. split; [done|]. rewrite !lookup_apply_payload.
    rewrite lookup_insert_eq.
    rewrite (lookup_insert_ne _ "status" "reviewedAt"), lookup_insert_eq by done.
    rewrite (lookup_insert_ne _ "status" "reviewedBy") by done.
    rewrite (lookup_insert_ne _ "reviewedAt" "reviewedBy"), lookup_insert_eq by done.
    by rewrite !lookup_insert_ne, lookup_empty. }
  assert (wf_store sa) as Hwfa by by apply wf_updateDoc.
  split; [done|]. destruct dec.
  - assert (users sa !! U = Some u) as Hua by by rewrite Hus.
    split; [by apply wf_updateDoc|]. split.
    { fold_coll. by rewrite updateDoc_other. }
    split; [by apply (user_after_update sa U u)|].
    split; [intros _; by apply (role_after_set_role sa U u)|done].
  - split; [done|]. split; [done|]. rewrite Hus. split; [eauto|]. done.
Qed.

(** C3, as amended. On an existing request that names an existing user,
    [reviewAdminRequest] records status, reviewedAt and reviewedBy, and an
    approval sets that user's role to 'admin'.  A request already approved
    or rejected is not protected: every further call succeeds in the same
    way and overwrites the recorded review. *)
Theorem reviewAdminRequest_records_review st R req U u dec rev :
  wf_store st → adminRequests st !! R = Some req →
  req !! "userId" = Some (VStr U) → users st !! U = Some u →
  let s1 := after (reviewAdminRequest R dec rev) st in
  outcome (reviewAdminRequest R dec rev) st = Ok () ∧
  (∃ req1, adminRequests s1 !! R = Some req1 ∧
           req1 !! "status" = Some (VStr (decision_name dec)) ∧
           req1 !! "reviewedAt" = Some (VTime (clock st)) ∧
           req1 !! "reviewedBy" = Some (VStr rev)) ∧
  (dec = approved → role_of s1 U = Some (VStr "admin")) ∧
  (dec = rejected → users s1 = users st) ∧
  (∀ dec2 rev2,
     let s2 := after (reviewAdminRequest R dec2 rev2) s1 in
     outcome (reviewAdminRequest R dec2 rev2) s1 = Ok () ∧
     (∃ req2, adminRequests s2 !! R = Some req2 ∧
              req2 !! "status" = Some (VStr (decision_name dec2)) ∧
              req2 !! "reviewedAt" = Some (VTime (clock s1)) ∧
              req2 !! "reviewedBy" = Some (VStr rev2)) ∧
     (dec2 = approved → role_of s2 U = Some (VStr "admin"))).
Proof.
  intros Hwf Hreq Huid Hu s1.
  destruct (reviewAdminRequest_once st R req U u dec rev Hwf Hreq Huid Hu)
    as (Hok & Hwf1 & (req1 & Hreq1 & Hst & Hat & Hby & Huid1) & [u1 Hu1] & Hadm & Hrej).
  fold s1 in Hwf1, Hreq1, Hu1, Hadm, Hrej.
  split_and!; eauto 10.
  intros dec2 rev2 s2.
  destruct (reviewAdminRequest_once s1 R req1 U u1 dec2 rev2 Hwf1 Hreq1 Huid1 Hu1)
    as (Hok2 & _ & (req2 & Hreq2 & Hst2 & Hat2 & Hby2 & _) & _ & Hadm2 & _).
  split_and!; eauto 10.
Qed.

Lemma reviewAdminRequest_records_review_witness :
  outcome (reviewAdminRequest "0" approved "root") example_store = Ok ().
Proof.
  refine (proj1 (reviewAdminRequest_records_review example_store "0"
                   (the_doc (adminRequests example_store) "0") "u1"
                   (the_doc (users example_store) "u1") approved "root"
                   example_store_wf _ _ _)).
  - reflexivity.
  - reflexivity.
  - reflexivity.
Defined.

(** C3 as stated fails: a request already approved is reviewed again
    without error, and the call rewrites its status. *)
Lemma reviewAdminRequest_rereview_counterexample :
  let s1 := after (reviewAdminRequest "0" approved "root") example_store in
  let s2 := after (reviewAdminRequest "0" rejected "other") s1 in
  the_doc (adminRequests s1) "0" !! "status" = Some (VStr "approved") ∧
  outcome (reviewAdminRequest "0" rejected "other") s1 = Ok () ∧
  the_doc (adminRequests s2) "0" !! "status" = Some (VStr "rejected") ∧
  the_doc (adminRequests s2) "0" !! "reviewedBy" = Some (VStr "other").
Proof. vm_compute. done. Qed.

(** ** The membership invariant *)

Lemma setDocMerge_same c id p s :
  get_coll c (after (setDocMerge c id p) s) =
    <[id := apply_payload (clock s) p (default ∅ (get_coll c s !! id))]> (get_coll c s).
Proof.
  unfold after, setDocMerge. cbn [snd].
  by rewrite get_coll_logged, get_set_coll_eq.
Qed.

Lemma setDocMerge_run c id p s :
  setDocMerge c id p s = (Ok (), after (setDocMerge c id p) s).
Proof. reflexivity. Qed.

Lemma setDocMerge_other c c' id p s :
  c' ≠ c → get_coll c' (after (setDocMerge c id p) s) = get_coll c' s.
Proof.
  intros Hc. unfold after, setDocMerge. cbn [snd].
  by rewrite get_coll_logged, get_set_coll_ne.
Qed.

Lemma updateDoc_keys c id p s K :
  is_Some (get_coll c (after (updateDoc c id p) s) !! K) ↔
  is_Some (get_coll c s !! K).
Proof.
  rewrite updateDoc_same. destruct (get_coll c s !! id) as [d|] eqn:Hd; [|done].
  destruct (decide (K = id)) as [->|HK].
  - rewrite lookup_insert_eq, Hd. split; eauto.
  - by rewrite lookup_insert_ne.
Qed.

(** Signing up writes one user record, unassigned, and nothing else that
    concerns membership. *)
Lemma signup_members st uid email displayName isAdmin :
  uid ≠ "" →
  let s' := after (signup uid email displayName isAdmin) st in
  families s' = families st ∧
  ∃ u', users s' = <[uid := u']> (users st) ∧
        u' !! "familyId" = Some (VStr "") ∧
        u' !! "role" = Some (VStr (role_name (if isAdmin then admin else member))).
Proof.
  intros Huid s'. subst s'. unfold after at 1 2, signup, createUserProfile.
  fs_simpl. rewrite docRef_ok by done. rewrite setDocMerge_run.
  cbn [pu_familyId of_opt_str truthy String.eqb negb fst snd].
  fold_coll. rewrite setDocMerge_other, setDocMerge_same by done.
  split; [done|]. eexists. split; [done|].
  rewrite !lookup_apply_payload.
  rewrite !(lookup_insert_ne _ _ "familyId"), lookup_insert_eq by done.
  rewrite !(lookup_insert_ne _ _ "role"), lookup_insert_eq by done.
  done.
Qed.

Lemma signup_no_id st email displayName isAdmin :
  after (signup "" email displayName isAdmin) st = st.
Proof. reflexivity. Qed.

Lemma leave_previous_cases p n s :
  after (leave_previous p n) s = s ∨
  ∃ P, after (leave_previous p n) s = after (updateDoc Families P (count_by (-1))) s.
Proof.
  destruct (truthy p && negb (strict_eq p n)) eqn:Hc.
  - apply andb_true_iff in Hc as [Ht Hn]. apply negb_true_iff in Hn.
    destruct p as [|b|z|P|t|l|m];
      try (left; unfold leave_previous; rewrite Ht, Hn; reflexivity).
    assert (P ≠ "") as HP.
    { intros ->. discriminate Ht. }
    right. exists P. rewrite leave_previous_run by done. apply after_try.
  - left. unfold leave_previous. rewrite Hc. reflexivity.
Qed.

Lemma enter_new_cases p n U s :
  after (enter_new p n U) s = s ∨
  ∃ F, after (enter_new p n U) s =
         after (createNotification (joined n U))
           (after (updateDoc Families F (count_by 1)) s).
Proof.
  destruct (truthy n && negb (strict_eq p n)) eqn:Hc.
  - apply andb_true_iff in Hc as [Ht Hn]. apply negb_true_iff in Hn.
    destruct n as [|b|z|F|t|l|m];
      try (left; unfold enter_new; rewrite Ht, Hn; reflexivity).
    assert (F ≠ "") as HF.
    { intros ->. discriminate Ht. }
    right. exists F. rewrite enter_new_run by done.
    by rewrite after_bind, outcome_try, !after_try.
  - left. unfold enter_new. rewrite Hc. reflexivity.
Qed.

Lemma leave_previous_members p n s :
  users (after (leave_previous p n) s) = users s ∧
  ∀ K, is_Some (families (after (leave_previous p n) s) !! K) ↔
       is_Some (families s !! K).
Proof.
  destruct (leave_previous_cases p n s) as [->|[P ->]]; [done|].
  fold_coll. rewrite updateDoc_other by done. split; [done|].
  intros K. apply updateDoc_keys.
Qed.

Lemma enter_new_members p n U s :
  users (after (enter_new p n U) s) = users s ∧
  ∀ K, is_Some (families (after (enter_new p n U) s) !! K) ↔
       is_Some (families s !! K).
Proof.
  destruct (enter_new_cases p n U s) as [->|[F ->]]; [done|].
  unfold createNotification. fold_coll.
  rewrite !addDoc_other, updateDoc_other by done. split; [done|].
  intros K. apply updateDoc_keys.
Qed.

(** A call that finds the user rewrites that one record and keeps the set
    of families. *)
Lemma updateUserFamily_members st U u new :
  U ≠ "" → users st !! U = Some u →
  let s' := after (updateUserFamily U new) st in
  users s' = <[U := apply_payload (clock st) (set_family (of_opt_str new)) u]> (users st) ∧
  ∀ K, is_Some (families s' !! K) ↔ is_Some (families st !! K).
Proof.
  intros HU Hu s'. subst s'. unfold after at 1 2.
  rewrite (updateUserFamily_found st U u new) by done.
  set (prev := nullish_or (u !! "familyId") VNull).
  set (n := of_opt_str new).
  set (sa := after (updateDoc Users U (set_family n)) st).
  change (((leave_previous prev n;;; enter_new prev n U) sa).2)
    with (after (leave_previous prev n;;; enter_new prev n U) sa).
  assert (users sa = <[U := apply_payload (clock st) (set_family n) u]> (users st)
          ∧ families sa = families st) as [Hus Hfs].
  { subst sa. fold_coll. by rewrite updateDoc_same, updateDoc_other, Hu. }
  destruct (leave_previous_members prev n sa) as [Hlu Hlk].
  destruct (enter_new_members prev n U (after (leave_previous prev n) sa))
    as [Heu Hek].
  rewrite after_bind. destruct (outcome (leave_previous prev n) sa).
  - rewrite Heu, Hlu, Hus. split; [done|]. intros K.
    by rewrite Hek, Hlk, Hfs.
  - rewrite Hlu, Hus. split; [done|]. intros K. by rewrite Hlk, Hfs.
Qed.

Lemma membership_step_invariant s s' :
  membership_step s s' →
  (∀ uid u, users s !! uid = Some u → signup_role u ∧ family_ref_ok s u) →
  ∀ uid u, users s' !! uid = Some u → signup_role u ∧ family_ref_ok s' u.
Proof.
  intros Hstep Hinv.
  assert (∀ (t : store) u,
            (∀ K, is_Some (families t !! K) ↔ is_Some (families s !! K)) →
            signup_role u ∧ family_ref_ok s u →
            signup_role u ∧ family_ref_ok t u) as Hkeep.
  { intros t u Hk [Hr Hf]. split; [done|].
    destruct Hf as [?|[?|(F & HF & HS)]]; [by left|by right; left|].
    right; right. exists F. by rewrite Hk. }
  assert (∀ uid new v,
            (v = VNull ∨ v = VStr "" ∨ ∃ F, v = VStr F ∧ is_Some (families s !! F)) →
            of_opt_str new = v →
            ∀ uid' u', users (after (updateUserFamily uid new) s) !! uid' = Some u' →
              signup_role u' ∧ family_ref_ok (after (updateUserFamily uid new) s) u')
    as Hmove.
  { intros uid new v Hv Hnew uid' u' Hu'.
    destruct (decide (uid = "")) as [->|Huid].
    { rewrite updateUserFamily_absent in * by (by left). eauto. }
    destruct (users s !! uid) as [u|] eqn:Hu.
    2: { rewrite updateUserFamily_absent in * by (by right). eauto. }
    destruct (updateUserFamily_members s uid u new Huid Hu) as [Hus Hk].
    rewrite Hus in Hu'. destruct (decide (uid' = uid)) as [->|Hne].
    - rewrite lookup_insert_eq in Hu'. injection Hu' as <-.
      destruct (Hinv uid u Hu) as [Hr _]. split.
      + unfold signup_role. by rewrite !lookup_apply_payload, !lookup_insert_ne.
      + unfold family_ref_ok.
        rewrite !lookup_apply_payload, !lookup_insert_eq. cbn. rewrite Hnew.
        destruct Hv as [->|[->|(F & -> & HS)]]; [by left|by right; left|].
        right; right. exists F. by rewrite Hk.
    - rewrite lookup_insert_ne in Hu' by done. apply Hkeep; eauto. }
  destruct Hstep as [s uid email displayName isAdmin|s uid F HF|s uid].
  - intros uid' u' Hu'.
    destruct (decide (uid = "")) as [->|Huid].
    { rewrite signup_no_id in *. eauto. }
    destruct (signup_members s uid email displayName isAdmin Huid)
      as (Hfam & u1 & Hus & Hf1 & Hr1).
    assert (∀ u, family_ref_ok s u →
              family_ref_ok (after (signup uid email displayName isAdmin) s) u)
      as Hsame.
    { intros u. unfold family_ref_ok. by rewrite Hfam. }
    rewrite Hus in Hu'. destruct (decide (uid' = uid)) as [->|Hne].
    + rewrite lookup_insert_eq in Hu'. injection Hu' as <-. split.
      * unfold signup_role. rewrite Hr1. destruct isAdmin; eauto.
      * by right; left.
    + rewrite lookup_insert_ne in Hu' by done.
      destruct (Hinv uid' u' Hu') as [Hr Hf]. eauto.
  - apply (Hmove uid (Some F) (VStr F)); [|done]. right; right. eauto.
  - apply (Hmove uid None VNull); [by left|done].
Qed.

(** The same step for one user, whatever the other records hold. *)
Lemma membership_step_user s s' uid :
  membership_step s s' →
  (∀ u, users s !! uid = Some u → signup_role u ∧ family_ref_ok s u) →
  ∀ u, users s' !! uid = Some u → signup_role u ∧ family_ref_ok s' u.
Proof.
  intros Hstep Hinv.
  assert (∀ (t : store) u,
            (∀ K, is_Some (families t !! K) ↔ is_Some (families s !! K)) →
            signup_role u ∧ family_ref_ok s u →
            signup_role u ∧ family_ref_ok t u) as Hkeep.
  { intros t u Hk [Hr Hf]. split; [done|].
    destruct Hf as [?|[?|(F & HF & HS)]]; [by left|by right; left|].
    right; right. exists F. by rewrite Hk. }
  assert (∀ uid0 new v,
            (v = VNull ∨ v = VStr "" ∨ ∃ F, v = VStr F ∧ is_Some (families s !! F)) →
            of_opt_str new = v →
            ∀ u', users (after (updateUserFamily uid0 new) s) !! uid = Some u' →
              signup_role u' ∧ family_ref_ok (after (updateUserFamily uid0 new) s) u')
    as Hmove.
  { intros uid0 new v Hv Hnew u' Hu'.
    destruct (decide (uid0 = "")) as [->|Huid].
    { rewrite updateUserFamily_absent in * by (by left). eauto. }
    destruct (users s !! uid0) as [u|] eqn:Hu.
    2: { rewrite updateUserFamily_absent in * by (by right). eauto. }
    destruct (updateUserFamily_members s uid0 u new Huid Hu) as [Hus Hk].
    rewrite Hus in Hu'. destruct (decide (uid = uid0)) as [->|Hne].
    - rewrite lookup_insert_eq in Hu'. injection Hu' as <-.
      destruct (Hinv u Hu) as [Hr _]. split.
      + unfold signup_role. by rewrite !lookup_apply_payload, !lookup_insert_ne.
      + unfold family_ref_ok.
        rewrite !lookup_apply_payload, !lookup_insert_eq. cbn. rewrite Hnew.
        destruct Hv as [->|[->|(F & -> & HS)]]; [by left|by right; left|].
        right; right. exists F. by rewrite Hk.
    - rewrite lookup_insert_ne in Hu' by done. apply Hkeep; eauto. }
  destruct Hstep as [s uid0 email displayName isAdmin|s uid0 F HF|s uid0].
  - intros u' Hu'.
    destruct (decide (uid0 = "")) as [->|Huid].
    { rewrite signup_no_id in *. eauto. }
    destruct (signup_members s uid0 email displayName isAdmin Huid)
      as (Hfam & u1 & Hus & Hf1 & Hr1).
    assert (∀ u, family_ref_ok s u →
              family_ref_ok (after (signup uid0 email displayName isAdmin) s) u)
      as Hsame.
    { intros u. unfold family_ref_ok. by rewrite Hfam. }
    rewrite Hus in Hu'. destruct (decide (uid = uid0)) as [->|Hne].
    + rewrite lookup_insert_eq in Hu'. injection Hu' as <-. split.
      * unfold signup_role. rewrite Hr1. destruct isAdmin; eauto.
      * by right; left.
    + rewrite lookup_insert_ne in Hu' by done.
      destruct (Hinv u' Hu') as [Hr Hf]. eauto.
  - apply (Hmove uid0 (Some F) (VStr F)); [|done]. right; right. eauto.
  - apply (Hmove uid0 None VNull); [by left|done].
Qed.

(** C8, as amended. A user who has no record yet and is created by a
    signup has, in every state reached by signups, joins of existing
    families and removals, whatever the records of the other users hold,
    role 'member' or 'admin' and a familyId that is unassigned (the empty
    string that signup stores, or null after a removal) or names an
    existing family. *)
Theorem membership_invariant s0 s uid :
  users s0 !! uid = None → rtc membership_step s0 s →
  ∀ u, users s !! uid = Some u → signup_role u ∧ family_ref_ok s u.
Proof.
  intros Hnew Hreach. revert s Hreach.
  apply (rtc_ind_r
           (λ s, ∀ u, users s !! uid = Some u → signup_role u ∧ family_ref_ok s u)).
  - intros u Hu. by rewrite Hnew in Hu.
  - intros s1 s2 _ Hstep IH. by apply (membership_step_user s1 s2).
Qed.

Lemma membership_invariant_witness :
  signup_role (the_doc (users bob_in_hope) "u2") ∧
  family_ref_ok bob_in_hope (the_doc (users bob_in_hope) "u2").
Proof.
  refine (membership_invariant two_families bob_in_hope "u2" _ _
            (the_doc (users bob_in_hope) "u2") _).
  - reflexivity.
  - eapply rtc_l; [apply step_signup|].
    eapply rtc_l; [apply step_join|apply rtc_refl].
    by eexists.
  - vm_compute. reflexivity.
Defined.

(** C8 as stated fails: signup stores the empty string, which is neither
    null nor the id of a family. *)
Lemma signup_family_ref_counterexample :
  let s := after (signup "u2" "bob@example.org" "Bob" false) two_families in
  users two_families = ∅ ∧
  membership_step two_families s ∧
  ∃ u, users s !! "u2" = Some u ∧ signup_role u ∧
       u !! "familyId" = Some (VStr "") ∧
       ¬ family_ref_null_or_existing s u.
Proof.
  intros s. split; [reflexivity|]. split; [apply step_signup|].
  exists (the_doc (users s) "u2").
  assert (the_doc (users s) "u2" !! "familyId" = Some (VStr "")) as Hfam
    by (vm_compute; reflexivity).
  split; [vm_compute; reflexivity|]. split; [left; vm_compute; reflexivity|].
  split; [exact Hfam|].
  intros [Hnull|(F & HF & HS)]; rewrite Hfam in *; [discriminate|].
  injection HF as <-. destruct HS as [d Hd]. vm_compute in Hd. discriminate.
Qed.

(** * Further properties of the module *)

(** ** The range of the store model *)

Lemma segment_nonempty id : segment id = true → id ≠ "".
Proof. by intros Hid ->. Qed.

Lemma segment_family_ref_typed u :
  segment_family_ref u → u !! "familyId" = None ∨ typed_family_ref u.
Proof.
  intros [[Hu|[Hu|Hu]]|(P & Hu & _)]; [by left|right..].
  - by left.
  - right. eauto.
  - right. eauto.
Qed.

(** ** Counting the documents a query matches *)

Lemma filter_length_perm {A} (f : A → bool) (l l' : list A) :
  l ≡ₚ l' → length (List.filter f l) = length (List.filter f l').
Proof.
  induction 1 as [|x l l' _ IH|x y l|l1 l2 l3 _ IH1 _ IH2]; cbn.
  - done.
  - destruct (f x); cbn; by rewrite IH.
  - destruct (f x), (f y); done.
  - by rewrite IH1.
Qed.

Lemma matching_insert_fresh (p : doc → bool) (m : gmap string doc) k v :
  m !! k = None →
  length (List.filter (λ kv, p kv.2) (map_to_list (<[k := v]> m)))
  = length (List.filter (λ kv, p kv.2) (map_to_list m)) + Nat.b2n (p v).
Proof.
  intros Hk.
  rewrite (filter_length_perm _ _ _ (map_to_list_insert m k v Hk)). cbn.
  destruct (p v); cbn; lia.
Qed.

Lemma matching_delete (p : doc → bool) (m : gmap string doc) k v :
  m !! k = Some v →
  length (List.filter (λ kv, p kv.2) (map_to_list (delete k m))) + Nat.b2n (p v)
  = length (List.filter (λ kv, p kv.2) (map_to_list m)).
Proof.
  intros Hk.
  rewrite <- (filter_length_perm _ _ _ (map_to_list_delete m k v Hk)).
  cbn. destruct (p v); cbn; lia.
Qed.

Lemma matching_insert_over (p : doc → bool) (m : gmap string doc) k v0 v :
  m !! k = Some v0 →
  length (List.filter (λ kv, p kv.2) (map_to_list (<[k := v]> m))) + Nat.b2n (p v0)
  = length (List.filter (λ kv, p kv.2) (map_to_list m)) + Nat.b2n (p v).
Proof.
  intros Hk. rewrite <- (insert_delete_eq m k v).
  rewrite matching_insert_fresh by apply lookup_delete_eq.
  pose proof (matching_delete p m k v0 Hk). lia.
Qed.

Lemma matching_none (p : doc → bool) (m : gmap string doc) :
  (∀ k v, m !! k = Some v → p v = false) →
  List.filter (λ kv, p kv.2) (map_to_list m) = [].
Proof.
  intros Hnone.
  assert (∀ l : list (string * doc),
            (∀ kv, kv ∈ l → p kv.2 = false) →
            List.filter (λ kv, p kv.2) l = []) as Hl.
  { induction l as [|x l IH]; [done|]. intros Hall. cbn.
    rewrite (Hall x) by set_solver. apply IH. intros kv Hkv. apply Hall. set_solver. }
  apply Hl. intros [k v] Hkv. apply elem_of_map_to_list in Hkv. by eapply Hnone.
Qed.

(** ** Well-formedness is kept *)

Lemma wf_setDocMerge c id p s :
  id ≠ "" → wf_store s → wf_store (after (setDocMerge c id p) s).
Proof.
  intros Hid Hwf. unfold after, setDocMerge. cbn [snd].
  apply wf_logged, wf_set_coll; [done|].
  rewrite lookup_insert_ne by done. apply Hwf.
Qed.

Lemma wf_deleteDoc c id s : wf_store s → wf_store (after (deleteDoc c id) s).
Proof.
  intros Hwf. unfold after, deleteDoc. cbn [snd].
  apply wf_logged, wf_set_coll; [done|].
  destruct (decide (id = "")) as [->|Hne].
  - apply lookup_delete_eq.
  - rewrite lookup_delete_ne by done. apply Hwf.
Qed.

Lemma wf_updateUserFamily U new s :
  wf_store s → wf_store (after (updateUserFamily U new) s).
Proof.
  intros Hwf.
  destruct (decide (U = "")) as [HU|HU].
  { by rewrite updateUserFamily_absent by (by left). }
  destruct (users s !! U) as [u|] eqn:Hu.
  2: { by rewrite updateUserFamily_absent by (by right). }
  unfold after at 1. rewrite (updateUserFamily_found s U u new) by done.
  set (prev := nullish_or (u !! "familyId") VNull).
  set (n := of_opt_str new).
  set (sa := after (updateDoc Users U (set_family n)) s).
  change (((leave_previous prev n;;; enter_new prev n U) sa).2)
    with (after (leave_previous prev n;;; enter_new prev n U) sa).
  assert (wf_store sa) as Hsa by by apply wf_updateDoc.
  assert (wf_store (after (leave_previous prev n) sa)) as Hl.
  { destruct (leave_previous_cases prev n sa) as [->|[P ->]]; [done|].
    by apply wf_updateDoc. }
  rewrite after_bind. destruct (outcome (leave_previous prev n) sa); [|done].
  destruct (enter_new_cases prev n U (after (leave_previous prev n) sa))
    as [->|[F ->]]; [done|].
  unfold createNotification. by apply wf_addDoc, wf_updateDoc.
Qed.

(** The whole effect of a signup under a non-empty id: one merge into the
    users collection. *)
Lemma signup_write st uid email displayName isAdmin :
  uid ≠ "" →
  ∃ p, after (signup uid email displayName isAdmin) st
       = after (setDocMerge Users uid p) st.
Proof.
  intros Huid. unfold after at 1, signup, createUserProfile.
  fs_simpl. rewrite docRef_ok by done. rewrite setDocMerge_run.
  cbn [pu_familyId of_opt_str truthy String.eqb negb fst snd]. eauto.
Qed.

Lemma wf_signup uid email displayName isAdmin s :
  wf_store s → wf_store (after (signup uid email displayName isAdmin) s).
Proof.
  intros Hwf. destruct (decide (uid = "")) as [->|Huid].
  { by rewrite signup_no_id. }
  destruct (signup_write s uid email displayName isAdmin Huid) as [p ->].
  by apply wf_setDocMerge.
Qed.

(** The run of [deleteUser], by what the record's familyId holds. *)
Lemma deleteUser_run U s :
  U ≠ "" →
  deleteUser U s =
    match users s !! U ≫= (.!! "familyId") with
    | Some (VStr F) =>
        if String.eqb F "" then deleteDoc Users U s
        else deleteDoc Users U (after (updateDoc Families F (count_by (-1))) s)
    | Some v => if truthy v then (Err JsTypeError, s) else deleteDoc Users U s
    | None => deleteDoc Users U s
    end.
Proof.
  intros HU. unfold deleteUser, after. fs_simpl.
  rewrite docRef_ok by done.
  destruct (users s !! U ≫= (.!! "familyId")) as [[|b|z|F|t|l|m]|];
    cbn [truthy_opt truthy docRefV]; try reflexivity.
  - by destruct b.
  - by destruct (z =? 0)%Z.
  - unfold docRef. by destruct (String.eqb F "").
Qed.

(** [deleteUser] either stops before any write, or deletes the record
    after at most one counter update. *)
Lemma deleteUser_cases U s :
  after (deleteUser U) s = s ∨
  after (deleteUser U) s = after (deleteDoc Users U) s ∨
  ∃ F, (users s !! U) ≫= (.!! "familyId") = Some (VStr F) ∧ F ≠ "" ∧
       after (deleteUser U) s
       = after (deleteDoc Users U) (after (updateDoc Families F (count_by (-1))) s).
Proof.
  destruct (decide (U = "")) as [->|HU]; [by left|].
  unfold after at 1 2 4. rewrite !deleteUser_run by done.
  destruct (users s !! U ≫= (.!! "familyId")) as [[|b|z|F|t|l|m]|];
    cbn [truthy]; try (left; reflexivity); try (right; left; reflexivity).
  - destruct b; [left|right; left]; reflexivity.
  - destruct (z =? 0)%Z; [right; left|left]; reflexivity.
  - destruct (String.eqb_spec F "") as [->|HF]; [right; left; reflexivity|].
    right; right. by exists F.
Qed.

Lemma wf_deleteUser U s : wf_store s → wf_store (after (deleteUser U) s).
Proof.
  intros Hwf.
  destruct (deleteUser_cases U s) as [->|[->|(F & _ & _ & ->)]]; [done|..].
  - by apply wf_deleteDoc.
  - by apply wf_deleteDoc, wf_updateDoc.
Qed.

Lemma createFamily_plain st data :
  data !! "id" = None →
  after (createFamily data) st = after (addDoc Families (family_payload data)) st.
Proof.
  intros Hid. unfold after. rewrite createFamily_auto; [done|]. by rewrite Hid.
Qed.

Lemma wf_createFamily data s :
  data !! "id" = None → wf_store s → wf_store (after (createFamily data) s).
Proof. intros Hid Hwf. rewrite createFamily_plain by done. by apply wf_addDoc. Qed.

Lemma wf_community_step s s' : community_step s s' → wf_store s → wf_store s'.
Proof.
  intros [s0 uid email displayName isAdmin _|s0 uid F _|s0 uid|s0 uid|s0 data Hid _] Hwf.
  - by apply wf_signup.
  - by apply wf_updateUserFamily.
  - by apply wf_updateUserFamily.
  - by apply wf_deleteUser.
  - by apply wf_createFamily.
Qed.

(** ** Counters follow the members *)

Lemma counter_update s P n K d :
  families s !! K = Some d →
  ∃ d', families (after (updateDoc Families P (count_by n)) s) !! K = Some d' ∧
        memberCount d' = (memberCount d + if String.eqb P K then n else 0)%Z.
Proof.
  intros Hd. fold_coll. rewrite updateDoc_same.
  destruct (String.eqb_spec P K) as [->|Hne].
  - rewrite Hd, lookup_insert_eq. eexists. split; [done|].
    apply memberCount_increment.
  - destruct (get_coll Families s !! P).
    + rewrite lookup_insert_ne by done. exists d. split; [done|lia].
    + exists d. split; [done|lia].
Qed.

Lemma where_family_prev K (u : doc) :
  where_eq "familyId" K u = is_str K (nullish_or (u !! "familyId") VNull).
Proof. unfold where_eq. by destruct (u !! "familyId") as [[]|]. Qed.

Lemma strict_eq_is_str K p n :
  strict_eq p n = true → is_str K p = is_str K n.
Proof.
  destruct p, n; try discriminate; [done|]. cbn.
  intros Heq. apply String.eqb_eq in Heq. by subst.
Qed.

Lemma leave_previous_count prev n s K d :
  prev = VNull ∨ (∃ P, prev = VStr P) → K ≠ "" →
  families s !! K = Some d →
  outcome (leave_previous prev n) s = Ok () ∧
  ∃ d', families (after (leave_previous prev n) s) !! K = Some d' ∧
        memberCount d'
        = (memberCount d - Z.b2z (is_str K prev && negb (strict_eq prev n)))%Z.
Proof.
  intros Hprev HK Hd.
  assert (outcome (ret ()) s = Ok () ∧
          ∃ d', families (after (ret ()) s) !! K = Some d' ∧
                memberCount d' = (memberCount d - 0)%Z) as Hskip.
  { split; [done|]. exists d. split; [done|lia]. }
  destruct Hprev as [->|[P ->]].
  { by rewrite leave_previous_skip by (by left). }
  destruct (String.eqb_spec P "") as [->|HP].
  { rewrite leave_previous_skip by (by left).
    cbn [is_str]. by rewrite (eqb_ne "" K). }
  destruct (strict_eq (VStr P) n) eqn:Hn.
  { rewrite leave_previous_skip by (by right). by rewrite andb_false_r. }
  rewrite leave_previous_run by done. split; [done|].
  rewrite after_try. destruct (counter_update s P (-1) K d Hd) as (d' & Hd' & Hc).
  exists d'. split; [done|]. rewrite Hc. cbn [is_str negb].
  rewrite andb_true_r. destruct (String.eqb P K); cbn; lia.
Qed.

Lemma enter_new_count prev n U s K d :
  n = VNull ∨ (∃ F, n = VStr F) → K ≠ "" →
  families s !! K = Some d →
  ∃ d', families (after (enter_new prev n U) s) !! K = Some d' ∧
        memberCount d'
        = (memberCount d + Z.b2z (is_str K n && negb (strict_eq prev n)))%Z.
Proof.
  intros Hn HK Hd.
  assert (∃ d', families (after (ret ()) s) !! K = Some d' ∧
                memberCount d' = (memberCount d + 0)%Z) as Hskip.
  { exists d. split; [done|lia]. }
  destruct Hn as [->|[F ->]].
  { by rewrite enter_new_skip by (by left). }
  destruct (String.eqb_spec F "") as [->|HF].
  { rewrite enter_new_skip by (by left).
    cbn [is_str]. by rewrite (eqb_ne "" K). }
  destruct (strict_eq prev (VStr F)) eqn:Hp.
  { rewrite enter_new_skip by (by right). by rewrite andb_false_r. }
  rewrite enter_new_run by done.
  rewrite after_bind, outcome_try, !after_try. unfold createNotification.
  fold_coll. rewrite addDoc_other by done.
  destruct (counter_update s F 1 K d Hd) as (d' & Hd' & Hc).
  exists d'. split; [done|]. rewrite Hc. cbn [is_str negb].
  rewrite andb_true_r. destruct (String.eqb F K); cbn; lia.
Qed.

Lemma of_opt_str_typed new : of_opt_str new = VNull ∨ ∃ F, of_opt_str new = VStr F.
Proof. destruct new; [right|left]; eauto. Qed.

(** The counter of any family K after a call: what left is taken off,
    what entered is added. *)
Lemma updateUserFamily_counter st U u new K d :
  U ≠ "" → users st !! U = Some u →
  (u !! "familyId" = None ∨ typed_family_ref u) →
  K ≠ "" → families st !! K = Some d →
  ∃ d', families (after (updateUserFamily U new) st) !! K = Some d' ∧
        (memberCount d' + Z.b2z (where_eq "familyId" K u)
         = memberCount d + Z.b2z (is_str K (of_opt_str new)))%Z.
Proof.
  intros HU Hu Htyped HK Hd. unfold after at 1.
  rewrite (updateUserFamily_found st U u new) by done.
  rewrite where_family_prev.
  set (prev := nullish_or (u !! "familyId") VNull).
  set (n := of_opt_str new).
  set (sa := after (updateDoc Users U (set_family n)) st).
  change (((leave_previous prev n;;; enter_new prev n U) sa).2)
    with (after (leave_previous prev n;;; enter_new prev n U) sa).
  assert (prev = VNull ∨ ∃ P, prev = VStr P) as Hprev.
  { subst prev. destruct Htyped as [->|[->|[P ->]]]; eauto. }
  assert (families sa !! K = Some d) as Hda.
  { subst sa. fold_coll. by rewrite updateDoc_other. }
  destruct (leave_previous_count prev n sa K d Hprev HK Hda)
    as (Hok & d1 & Hd1 & Hc1).
  destruct (enter_new_count prev n U (after (leave_previous prev n) sa) K d1
              (of_opt_str_typed new) HK Hd1) as (d2 & Hd2 & Hc2).
  rewrite after_bind, Hok. exists d2. split; [done|].
  rewrite Hc2, Hc1. destruct (strict_eq prev n) eqn:Hs.
  - rewrite (strict_eq_is_str K prev n Hs), !andb_false_r. cbn. lia.
  - rewrite !andb_true_r. lia.
Qed.

Lemma members_updateUserFamily st U u new K :
  U ≠ "" → users st !! U = Some u →
  length (members K (after (updateUserFamily U new) st))
  + Nat.b2n (where_eq "familyId" K u)
  = length (members K st) + Nat.b2n (is_str K (of_opt_str new)).
Proof.
  intros HU Hu. unfold members.
  destruct (updateUserFamily_members st U u new HU Hu) as [-> _].
  rewrite (matching_insert_over (where_eq "familyId" K) (users st) U u _ Hu).
  do 2 f_equal. unfold where_eq.
  by rewrite lookup_apply_payload, lookup_insert_eq.
Qed.

(** One call keeps the counters consistent, whatever family it names. *)
Lemma updateUserFamily_consistent st U new :
  wf_store st →
  (∀ u, users st !! U = Some u → u !! "familyId" = None ∨ typed_family_ref u) →
  counters_consistent st →
  counters_consistent (after (updateUserFamily U new) st).
Proof.
  intros Hwf Htyped Hcons.
  destruct (decide (U = "")) as [HU|HU].
  { by rewrite updateUserFamily_absent by (by left). }
  destruct (users st !! U) as [u|] eqn:Hu.
  2: { by rewrite updateUserFamily_absent by (by right). }
  intros K d' Hd'.
  destruct (updateUserFamily_members st U u new HU Hu) as [_ Hkeys].
  assert (is_Some (families st !! K)) as [d Hd] by (apply Hkeys; eauto).
  pose proof (wf_key_nonempty Families _ _ _ Hwf Hd) as HK.
  destruct (updateUserFamily_counter st U u new K d HU Hu (Htyped u eq_refl) HK Hd)
    as (d2 & Hd2 & Hc).
  rewrite Hd' in Hd2. injection Hd2 as <-.
  pose proof (members_updateUserFamily st U u new K HU Hu) as Hm.
  pose proof (Hcons K d Hd) as Hold.
  destruct (where_eq "familyId" K u), (is_str K (of_opt_str new));
    cbn in Hc, Hm; lia.
Qed.

Lemma family_ref_ok_typed s u : family_ref_ok s u → typed_family_ref u.
Proof.
  intros [H|[H|(F & H & _)]]; [by left|right; eauto..].
Qed.

Lemma family_ref_ok_where s u K :
  family_ref_ok s u → families s !! K = None → K ≠ "" →
  where_eq "familyId" K u = false.
Proof.
  intros Hu HK Hne. unfold where_eq.
  destruct Hu as [->|[->|(F & -> & [d Hd])]]; [done|..];
    cbn [from_option is_str].
  - by apply eqb_ne.
  - apply eqb_ne. intros ->. by rewrite HK in Hd.
Qed.

Lemma signup_consistent s uid email displayName isAdmin :
  wf_store s → users s !! uid = None →
  counters_consistent s →
  counters_consistent (after (signup uid email displayName isAdmin) s).
Proof.
  intros Hwf Hfresh Hcons.
  destruct (decide (uid = "")) as [->|Huid].
  { by rewrite signup_no_id. }
  destruct (signup_members s uid email displayName isAdmin Huid)
    as (Hfam & u' & Hus & Hf & _).
  intros K d Hd. rewrite Hfam in Hd.
  pose proof (wf_key_nonempty Families _ _ _ Hwf Hd) as HK.
  unfold members. rewrite Hus, matching_insert_fresh by done.
  unfold where_eq at 2. rewrite Hf. cbn [from_option is_str].
  rewrite (eqb_ne "" K) by done. cbn. rewrite Nat.add_0_r. by apply Hcons.
Qed.

Lemma deleteUser_consistent s U :
  wf_store s →
  (∀ u, users s !! U = Some u → family_ref_ok s u) →
  counters_consistent s →
  counters_consistent (after (deleteUser U) s).
Proof.
  intros Hwf Hrefs Hcons.
  destruct (decide (U = "")) as [->|HU]; [done|].
  unfold after at 1. rewrite deleteUser_run by done.
  destruct (users s !! U) as [u|] eqn:Hu; cbn [mbind option_bind].
  2: { intros K d. change ((deleteDoc Users U s).2) with (after (deleteDoc Users U) s).
       unfold members. fold_coll.
       rewrite deleteDoc_other, deleteDoc_same by done.
       rewrite delete_id by done. apply Hcons. }
  assert (∀ t, families t = families s → users t = users s →
            (∀ K, where_eq "familyId" K u = true → families s !! K = None ∨ K = "") →
            counters_consistent (deleteDoc Users U t).2) as Hplain.
  { intros t Hft Hut Hno K d.
    change ((deleteDoc Users U t).2) with (after (deleteDoc Users U) t).
    unfold members. fold_coll.
    rewrite deleteDoc_other, deleteDoc_same by done.
    rewrite Hft, Hut. intros Hd.
    pose proof (matching_delete (where_eq "familyId" K) (get_coll Users s) U u Hu) as Hm.
    destruct (where_eq "familyId" K u) eqn:Hw.
    - destruct (Hno K Hw) as [HK| ->].
      + by rewrite HK in Hd.
      + by rewrite (Hwf Families) in Hd.
    - cbn [Nat.b2n] in Hm. rewrite Nat.add_0_r in Hm. rewrite Hm.
      by apply Hcons. }
  destruct (Hrefs u eq_refl) as [Hf|[Hf|(F & Hf & [dF HdF])]]; rewrite Hf.
  - cbn [truthy]. apply Hplain; try done.
    intros K. unfold where_eq. by rewrite Hf.
  - cbn [String.eqb]. apply Hplain; try done.
    intros K. unfold where_eq. rewrite Hf. cbn [from_option is_str]. intros HK.
    right. apply String.eqb_eq in HK. by subst.
  - pose proof (wf_key_nonempty Families _ _ _ Hwf HdF) as HF.
    rewrite (eqb_ne F "") by done.
    intros K d.
    change ((deleteDoc Users U (after (updateDoc Families F (count_by (-1))) s)).2)
      with (after (deleteDoc Users U) (after (updateDoc Families F (count_by (-1))) s)).
    unfold members. fold_coll.
    rewrite deleteDoc_other, deleteDoc_same by done.
    rewrite (updateDoc_other Families Users) by done.
    intros Hd.
    assert (is_Some (get_coll Families s !! K)) as [d0 Hd0].
    { apply (updateDoc_keys Families F (count_by (-1)) s K). eauto. }
    destruct (counter_update s F (-1) K d0 Hd0) as (d1 & Hd1 & Hc).
    change (families (after (updateDoc Families F (count_by (-1))) s))
      with (get_coll Families (after (updateDoc Families F (count_by (-1))) s)) in Hd1.
    rewrite Hd in Hd1. injection Hd1 as <-.
    pose proof (matching_delete (where_eq "familyId" K) (get_coll Users s) U u Hu) as Hm.
    pose proof (Hcons K d0 Hd0) as Hold. unfold members in Hold.
    change (users s) with (get_coll Users s) in Hold.
    unfold where_eq in Hm at 2. rewrite Hf in Hm. cbn [from_option is_str] in Hm.
    destruct (String.eqb F K); cbn [Nat.b2n] in Hm; lia.
Qed.

Lemma createFamily_consistent s data :
  wf_store s → data !! "id" = None → data !! "memberCount" = None →
  (∀ uid u, users s !! uid = Some u → family_ref_ok s u) →
  counters_consistent s →
  counters_consistent (after (createFamily data) s).
Proof.
  intros Hwf Hid Hmc Hrefs Hcons K d.
  rewrite createFamily_plain by done. unfold members. fold_coll.
  rewrite addDoc_same, addDoc_other by done.
  set (fid := auto_id (get_coll Families s)).
  destruct (decide (K = fid)) as [->|HK].
  - rewrite lookup_insert_eq. intros [= <-].
    rewrite matching_none.
    + unfold memberCount. rewrite lookup_apply_payload.
      rewrite lookup_insert_ne, lookup_insert_eq by done. by rewrite Hmc.
    + intros uid u Hu. apply (family_ref_ok_where s); eauto.
      * apply auto_id_fresh.
      * apply auto_id_nonempty.
  - rewrite lookup_insert_ne by done. apply Hcons.
Qed.

Lemma deleteUser_refs s U :
  (∀ uid u, users s !! uid = Some u → signup_role u ∧ family_ref_ok s u) →
  ∀ uid u, users (after (deleteUser U) s) !! uid = Some u →
    signup_role u ∧ family_ref_ok (after (deleteUser U) s) u.
Proof.
  intros Hinv uid u.
  destruct (deleteUser_cases U s) as [->|[->|(F & _ & _ & ->)]].
  - apply Hinv.
  - fold_coll. rewrite deleteDoc_same. intros Hu.
    apply lookup_delete_Some in Hu as [_ Hu].
    destruct (Hinv uid u Hu) as [Hr Hf]. split; [done|].
    unfold family_ref_ok. fold_coll. by rewrite deleteDoc_other.
  - fold_coll. rewrite deleteDoc_same, (updateDoc_other Families Users) by done.
    intros Hu. apply lookup_delete_Some in Hu as [_ Hu].
    destruct (Hinv uid u Hu) as [Hr Hf]. split; [done|].
    unfold family_ref_ok. fold_coll. rewrite deleteDoc_other by done.
    destruct Hf as [?|[?|(G & HG & HS)]]; [by left|by right; left|].
    right; right. exists G. split; [done|]. by apply updateDoc_keys.
Qed.

Lemma createFamily_refs s data :
  data !! "id" = None →
  (∀ uid u, users s !! uid = Some u → signup_role u ∧ family_ref_ok s u) →
  ∀ uid u, users (after (createFamily data) s) !! uid = Some u →
    signup_role u ∧ family_ref_ok (after (createFamily data) s) u.
Proof.
  intros Hid Hinv uid u. rewrite createFamily_plain by done.
  fold_coll. rewrite addDoc_other by done. intros Hu.
  destruct (Hinv uid u Hu) as [Hr Hf]. split; [done|].
  unfold family_ref_ok. fold_coll. rewrite addDoc_same.
  destruct Hf as [?|[?|(G & HG & HS)]]; [by left|by right; left|].
  right; right. exists G. split; [done|].
  apply lookup_insert_is_Some'. by right.
Qed.

Lemma community_step_invariant s s' :
  community_step s s' →
  wf_store s ∧
  (∀ uid u, users s !! uid = Some u → signup_role u ∧ family_ref_ok s u) ∧
  counters_consistent s →
  wf_store s' ∧
  (∀ uid u, users s' !! uid = Some u → signup_role u ∧ family_ref_ok s' u) ∧
  counters_consistent s'.
Proof.
  intros Hstep (Hwf & Hrefs & Hcons).
  split; [by apply (wf_community_step s)|].
  assert (∀ U u, users s !! U = Some u → u !! "familyId" = None ∨ typed_family_ref u)
    as Htyped.
  { intros U u Hu. right. apply (family_ref_ok_typed s). by apply (Hrefs U). }
  destruct Hstep as [s uid email displayName isAdmin Hfresh|s uid F HF|s uid|s uid
                    |s data Hid Hmc].
  - split; [|by apply signup_consistent].
    apply (membership_step_invariant s); [apply step_signup|done].
  - split; [|apply updateUserFamily_consistent; eauto].
    apply (membership_step_invariant s); [by apply step_join|done].
  - split; [|apply updateUserFamily_consistent; eauto].
    apply (membership_step_invariant s); [apply step_remove|done].
  - split; [by apply deleteUser_refs|].
    apply deleteUser_consistent; [done| |done]. intros u Hu. by apply (Hrefs uid).
  - split; [by apply createFamily_refs|].
    apply createFamily_consistent; try done. intros U u Hu. by apply (Hrefs U).
Qed.

Lemma getUsersByFamily_members F s :
  getUsersByFamily F s = (Ok (docs_with_id (members F s)), s).
Proof. reflexivity. Qed.

(** X1. The family counter is the number of members. From a store without
    users whose families all count 0, after any sequence of signups under
    new ids, joins of existing families, removals, deletions of users and
    creations of families, [getUsersByFamily] returns for every family as
    many users as its memberCount says. *)
Theorem community_counters_consistent s0 s :
  wf_store s0 → users s0 = ∅ →
  (∀ F d, families s0 !! F = Some d → memberCount d = 0%Z) →
  rtc community_step s0 s →
  ∀ F d, families s !! F = Some d →
    ∃ l, outcome (getUsersByFamily F) s = Ok l ∧
         memberCount d = Z.of_nat (length l).
Proof.
  intros Hwf Hempty Hzero Hreach.
  assert (wf_store s ∧
          (∀ uid u, users s !! uid = Some u → signup_role u ∧ family_ref_ok s u) ∧
          counters_consistent s) as (_ & _ & Hcons).
  { revert s Hreach.
    apply (rtc_ind_r (λ s, wf_store s ∧
             (∀ uid u, users s !! uid = Some u → signup_role u ∧ family_ref_ok s u) ∧
             counters_consistent s)).
    - split; [done|]. split.
      + intros uid u Hu. by rewrite Hempty, lookup_empty in Hu.
      + intros F d Hd. unfold members. rewrite Hempty, map_to_list_empty.
        exact (Hzero F d Hd).
    - intros s1 s2 _ Hstep IH. by apply (community_step_invariant s1). }
  intros F d Hd. exists (docs_with_id (members F s)).
  unfold outcome. rewrite getUsersByFamily_members. split; [done|].
  unfold docs_with_id. rewrite length_map. by apply Hcons.
Qed.

Lemma two_families_start :
  wf_store two_families ∧ users two_families = ∅ ∧
  ∀ F d, families two_families !! F = Some d → memberCount d = 0%Z.
Proof.
  split; [intros []; reflexivity|]. split; [reflexivity|].
  change (map_Forall (λ _ d, memberCount d = 0%Z) (families two_families)).
  refine (bool_decide_unpack _ _). vm_compute. reflexivity.
Qed.

Lemma bob_joined_reachable : rtc community_step two_families bob_joined.
Proof.
  assert (bob_joined = after (updateUserFamily "u2" (Some "hope"))
                         (after (signup "u2" "bob@example.org" "Bob" false)
                            two_families)) as -> by (vm_compute; reflexivity).
  eapply rtc_l; [by apply cstep_signup|].
  eapply rtc_l; [|apply rtc_refl].
  apply cstep_join. by eexists.
Qed.

Lemma community_counters_consistent_witness :
  ∃ l, outcome (getUsersByFamily "hope") bob_joined = Ok l ∧
       memberCount (the_doc (families bob_joined) "hope") = Z.of_nat (length l).
Proof.
  refine (community_counters_consistent two_families bob_joined
            (proj1 two_families_start) (proj1 (proj2 two_families_start))
            (proj2 (proj2 two_families_start)) bob_joined_reachable
            "hope" (the_doc (families bob_joined) "hope") _).
  reflexivity.
Defined.

(** ** Joining, leaving and deleting, at the edges *)

Lemma no_family_prev u :
  no_family u →
  nullish_or (u !! "familyId") VNull = VNull ∨
  nullish_or (u !! "familyId") VNull = VStr "".
Proof. intros [-> | [-> | ->]]; eauto. Qed.

Lemma no_family_where u K : no_family u → K ≠ "" → where_eq "familyId" K u = false.
Proof.
  intros Hno HK. unfold where_eq.
  destruct Hno as [-> | [-> | ->]]; try done. cbn [from_option is_str].
  by apply eqb_ne.
Qed.

(** X2. Joining a family that does not exist is not refused: for a user
    without a family and an id of one segment that names no family, the
    call returns normally, stores the id in the user record, leaves the
    families as they are and still writes the join notification. *)
Theorem updateUserFamily_missing_family st U u F :
  wf_store st → users st !! U = Some u → no_family u →
  segment F = true → families st !! F = None →
  let st' := after (updateUserFamily U (Some F)) st in
  outcome (updateUserFamily U (Some F)) st = Ok () ∧
  (∃ u', users st' !! U = Some u' ∧ u' !! "familyId" = Some (VStr F) ∧
         ¬ family_ref_ok st' u') ∧
  families st' = families st ∧
  (∃ nid n, notifications st !! nid = None ∧
            notifications st' = <[nid := n]> (notifications st) ∧
            n !! "familyId" = Some (VStr F)).
Proof.
  intros Hwf Hu Hno HF%segment_nonempty Hmiss st'.
  pose proof (wf_key_nonempty Users _ _ _ Hwf Hu) as HU.
  assert (updateUserFamily U (Some F) st =
          (Ok (), after (createNotification (joined (VStr F) U))
                    (after (updateDoc Families F (count_by 1))
                       (after (updateDoc Users U (set_family (VStr F))) st))))
    as Hrun.
  { rewrite (updateUserFamily_found st U u) by done. cbn [of_opt_str].
    assert (strict_eq (nullish_or (u !! "familyId") VNull) (VStr F) = false) as Hs.
    { destruct (no_family_prev u Hno) as [-> | ->]; [done|]. by apply eqb_ne. }
    rewrite leave_previous_skip.
    2: { left. by destruct (no_family_prev u Hno) as [-> | ->]. }
    rewrite enter_new_run by done. reflexivity. }
  apply run_eq in Hrun as [Hout Haft]. subst st'. rewrite Hout, !Haft.
  unfold createNotification. fold_coll.
  assert (get_coll Families
            (after (addDoc Notifications
                      (<["createdAt" := ServerTimestamp]> (spread (joined (VStr F) U))))
               (after (updateDoc Families F (count_by 1))
                  (after (updateDoc Users U (set_family (VStr F))) st)))
          = get_coll Families st) as Hfam.
  { rewrite addDoc_other, updateDoc_same by done.
    rewrite (updateDoc_other Users Families) by done. by rewrite Hmiss. }
  split; [done|]. split_and!.
  - rewrite addDoc_other, (updateDoc_other Families Users), updateDoc_same by done.
    rewrite Hu, lookup_insert_eq. eexists. split; [done|].
    assert (apply_payload (clock st) (set_family (VStr F)) u !! "familyId"
            = Some (VStr F)) as Hf
      by by rewrite lookup_apply_payload, lookup_insert_eq.
    split; [done|]. unfold family_ref_ok. rewrite Hf.
    intros [?|[[= ?]|(G & [= <-] & HS)]]; try done.
    change (families ?s) with (get_coll Families s) in HS.
    rewrite Hfam, Hmiss in HS. by destruct HS.
  - done.
  - eexists _, _. rewrite addDoc_same.
    rewrite (updateDoc_other Families Notifications),
      (updateDoc_other Users Notifications) by done.
    split; [apply auto_id_fresh|]. split; [done|].
    rewrite !lookup_apply_payload. unfold spread, join_notification.
    by rewrite lookup_insert_ne, lookup_fmap, lookup_insert_eq.
Qed.

Lemma updateUserFamily_missing_family_witness :
  families (after (updateUserFamily "u2" (Some "nowhere")) bob_signed_up)
  = families bob_signed_up.
Proof.
  refine (proj1 (proj2 (proj2
    (updateUserFamily_missing_family bob_signed_up "u2"
       (the_doc (users bob_signed_up) "u2") "nowhere" _ _ _ _ _)))).
  - intros []; reflexivity.
  - reflexivity.
  - right; right. reflexivity.
  - reflexivity.
  - reflexivity.
Defined.

(** X3. Removing a member of an existing family, whose counter is in the
    range where the store subtracts exactly, returns normally, sets the
    user's familyId to null and leaves the other fields of the record
    (updatedAt apart) alone, lowers that family's counter by one, touches
    no other family and writes no notification. *)
Theorem removeMemberFromFamily_leaves st U u F d :
  wf_store st → users st !! U = Some u → u !! "familyId" = Some (VStr F) →
  families st !! F = Some d → safe_count (memberCount d) = true →
  let st' := after (removeMemberFromFamily U) st in
  outcome (removeMemberFromFamily U) st = Ok () ∧
  (∃ u', users st' !! U = Some u' ∧ u' !! "familyId" = Some VNull ∧
         ∀ k, k ≠ "familyId" → k ≠ "updatedAt" → u' !! k = u !! k) ∧
  (∃ d', families st' !! F = Some d' ∧ memberCount d' = (memberCount d - 1)%Z) ∧
  (∀ K, K ≠ F → families st' !! K = families st !! K) ∧
  notifications st' = notifications st.
Proof.
  intros Hwf Hu Hfam Hd _ st'.
  pose proof (wf_key_nonempty Users _ _ _ Hwf Hu) as HU.
  pose proof (wf_key_nonempty Families _ _ _ Hwf Hd) as HF.
  assert (removeMemberFromFamily U st =
          (Ok (), after (updateDoc Families F (count_by (-1)))
                    (after (updateDoc Users U (set_family VNull)) st))) as Hrun.
  { unfold removeMemberFromFamily.
    rewrite (updateUserFamily_found st U u) by done. cbn [of_opt_str].
    rewrite Hfam. cbn [nullish_or].
    rewrite leave_previous_run, enter_new_skip by (done || by left).
    reflexivity. }
  apply run_eq in Hrun as [Hout Haft]. subst st'. rewrite Hout, !Haft.
  split; [done|]. fold_coll. split_and!.
  - rewrite (updateDoc_other Families Users) by done.
    by apply user_after_set_family.
  - rewrite updateDoc_same, (updateDoc_other Users Families), Hd by done.
    rewrite lookup_insert_eq. eexists. split; [done|].
    rewrite memberCount_increment. lia.
  - intros K HK.
    rewrite updateDoc_same, (updateDoc_other Users Families), Hd by done.
    by rewrite lookup_insert_ne.
  - by rewrite !updateDoc_other.
Qed.

Lemma removeMemberFromFamily_leaves_witness :
  notifications (after (removeMemberFromFamily "u1") example_store)
  = notifications example_store.
Proof.
  refine (proj2 (proj2 (proj2 (proj2
    (removeMemberFromFamily_leaves example_store "u1"
       (the_doc (users example_store) "u1") "grace"
       (the_doc (families example_store) "grace") example_store_wf _ _ _ _))))).
  - reflexivity.
  - reflexivity.
  - reflexivity.
  - reflexivity.
Defined.

(** X4. Joining and then being removed gives the family its count back:
    for a user whose familyId is unassigned or an id of one segment other
    than F, and a counter of F in the range where the store adds exactly,
    the join raises the counter by one and the removal brings it back,
    with the user's familyId null. *)
Theorem join_then_remove_restores_count st U u F d :
  wf_store st → users st !! U = Some u →
  segment_family_ref u →
  where_eq "familyId" F u = false →
  families st !! F = Some d → safe_count (memberCount d) = true →
  let joined := after (updateUserFamily U (Some F)) st in
  let left := after (removeMemberFromFamily U) joined in
  (∃ d1, families joined !! F = Some d1 ∧ memberCount d1 = (memberCount d + 1)%Z) ∧
  (∃ d2, families left !! F = Some d2 ∧ memberCount d2 = memberCount d) ∧
  (∃ u2, users left !! U = Some u2 ∧ u2 !! "familyId" = Some VNull).
Proof.
  intros Hwf Hu Htyped%segment_family_ref_typed Hnot Hd _ joined left.
  pose proof (wf_key_nonempty Users _ _ _ Hwf Hu) as HU.
  pose proof (wf_key_nonempty Families _ _ _ Hwf Hd) as HF.
  destruct (updateUserFamily_counter st U u (Some F) F d HU Hu Htyped HF Hd)
    as (d1 & Hd1 & Hc1).
  rewrite Hnot in Hc1. cbn [of_opt_str] in Hc1. rewrite is_str_refl in Hc1.
  destruct (updateUserFamily_members st U u (Some F) HU Hu) as [Hus _].
  fold joined in Hd1, Hus.
  set (u1 := apply_payload (clock st) (set_family (of_opt_str (Some F))) u) in Hus.
  assert (users joined !! U = Some u1) as Hu1 by by rewrite Hus, lookup_insert_eq.
  assert (u1 !! "familyId" = Some (VStr F)) as Hf1.
  { subst u1. by rewrite lookup_apply_payload, lookup_insert_eq. }
  destruct (updateUserFamily_counter joined U u1 None F d1 HU Hu1) as (d2 & Hd2 & Hc2);
    [right; right; eauto|done|done|].
  unfold where_eq in Hc2. rewrite Hf1 in Hc2.
  cbn [from_option of_opt_str] in Hc2. rewrite is_str_refl in Hc2.
  destruct (updateUserFamily_members joined U u1 None HU Hu1) as [Hus2 _].
  split_and!.
  - exists d1. split; [done|]. cbn in Hc1. lia.
  - exists d2. split; [done|]. cbn in Hc1, Hc2. lia.
  - eexists. unfold left, removeMemberFromFamily. rewrite Hus2, lookup_insert_eq.
    split; [done|]. by rewrite lookup_apply_payload, lookup_insert_eq.
Qed.

Lemma join_then_remove_restores_count_witness :
  ∃ d2, families (after (removeMemberFromFamily "u1")
                    (after (updateUserFamily "u1" (Some "hope")) example_store))
          !! "hope" = Some d2 ∧
        memberCount d2 = memberCount (the_doc (families example_store) "hope").
Proof.
  refine (proj1 (proj2
    (join_then_remove_restores_count example_store "u1"
       (the_doc (users example_store) "u1") "hope"
       (the_doc (families example_store) "hope") example_store_wf _ _ _ _ _))).
  - reflexivity.
  - right. exists "grace". split; reflexivity.
  - reflexivity.
  - reflexivity.
  - reflexivity.
Defined.

(** X5. Deleting a user removes that record and nothing else of it: for
    an id of one segment, naming no user or a user whose familyId is
    unassigned or an id of one segment, [deleteUser] returns normally,
    takes exactly that record out of users and neither adds nor removes a
    family; without a record the families are unchanged. *)
Theorem deleteUser_removes_only_that_user st U :
  segment U = true →
  (∀ u, users st !! U = Some u → segment_family_ref u) →
  outcome (deleteUser U) st = Ok () ∧
  users (after (deleteUser U) st) = delete U (users st) ∧
  (∀ K, is_Some (families (after (deleteUser U) st) !! K) ↔
        is_Some (families st !! K)) ∧
  (users st !! U = None → families (after (deleteUser U) st) = families st).
Proof.
  intros HU%segment_nonempty Hseg.
  assert (∀ u, users st !! U = Some u → u !! "familyId" = None ∨ typed_family_ref u)
    as Htyped by (intros u Hu; by apply segment_family_ref_typed, Hseg).
  assert (∀ t, (deleteDoc Users U t).1 = Ok () ∧
               users (deleteDoc Users U t).2 = delete U (users t) ∧
               families (deleteDoc Users U t).2 = families t) as Hdel by done.
  unfold outcome, after. rewrite deleteUser_run by done.
  destruct (users st !! U) as [u|] eqn:Hu; cbn [mbind option_bind].
  2: { destruct (Hdel st) as (? & ? & Hf). rewrite Hf. done. }
  destruct (Htyped u eq_refl) as [->|[->|[F ->]]]; cbn [truthy];
    try (destruct (Hdel st) as (? & ? & Hf); rewrite Hf; done).
  destruct (String.eqb F "");
    [destruct (Hdel st) as (? & ? & Hf); rewrite Hf; done|].
  destruct (Hdel (after (updateDoc Families F (count_by (-1))) st)) as (? & Hus & Hf).
  rewrite Hus, Hf. fold_coll. rewrite (updateDoc_other Families Users) by done.
  split_and!; try done. intros K. apply updateDoc_keys.
Qed.

Lemma deleteUser_removes_only_that_user_witness :
  users (after (deleteUser "u1") example_store) = delete "u1" (users example_store).
Proof.
  refine (proj1 (proj2
    (deleteUser_removes_only_that_user example_store "u1" _ _))).
  - reflexivity.
  - intros u Hu. right. exists "grace".
    assert (u = the_doc (users example_store) "u1") as ->
      by (unfold the_doc; by rewrite Hu).
    split; reflexivity.
Defined.

(** ** Missing documents *)

(** X6. The functions that read first refuse a missing document, under
    an id of one segment, in their own words and write nothing. *)
Theorem read_first_functions_throw st id :
  segment id = true →
  (users st !! id = None →
     ∀ new, updateUserFamily id new st = (Err (Thrown "User not found"), st)) ∧
  (posts st !! id = None →
     (∀ U, likePost id U st = (Err (Thrown "Post not found"), st)) ∧
     (∀ U, unlikePost id U st = (Err (Thrown "Post not found"), st)) ∧
     (∀ c now, addComment id c now st = (Err (Thrown "Post not found"), st)) ∧
     (∀ cid, deleteComment id cid st = (Err (Thrown "Post not found"), st))) ∧
  (familyRequests st !! id = None →
     ∀ fd, approveFamilyRequest id fd st = (Err (Thrown "Request not found"), st)) ∧
  (adminRequests st !! id = None →
     ∀ dec rev,
       reviewAdminRequest id dec rev st = (Err (Thrown "Admin request not found"), st)).
Proof.
  intros Hid%segment_nonempty. split_and!.
  - intros Hnone new. unfold updateUserFamily. fs_simpl.
    rewrite docRef_ok by done. by rewrite Hnone.
  - intros Hnone. split_and!; intros;
      unfold likePost, unlikePost, addComment, deleteComment; fs_simpl;
      rewrite docRef_ok by done; by rewrite Hnone.
  - intros Hnone fd. unfold approveFamilyRequest. fs_simpl.
    rewrite docRef_ok by done. by rewrite Hnone.
  - intros Hnone dec rev. unfold reviewAdminRequest. fs_simpl.
    rewrite docRef_ok by done. by rewrite Hnone.
Qed.

Lemma read_first_functions_throw_witness :
  likePost "no-such-post" "u1" example_store
  = (Err (Thrown "Post not found"), example_store).
Proof.
  refine (proj1 (proj1 (proj2
    (read_first_functions_throw example_store "no-such-post" _)) _) "u1").
  - reflexivity.
  - reflexivity.
Defined.

(** X7. The functions that only update fail with the store's own
    not-found error on a missing document, under an id of one segment and
    with updates whose keys are plain field names, and write nothing. *)
Theorem update_only_functions_fail st id :
  segment id = true →
  (users st !! id = None →
     promoteToAdmin id st = (Err FsNotFound, st) ∧
     demoteFromAdmin id st = (Err FsNotFound, st) ∧
     ∀ updates, plain_keys updates →
                updateUserProfile id updates st = (Err FsNotFound, st)) ∧
  (families st !! id = None →
     ∀ updates, plain_keys updates →
                updateFamily id updates st = (Err FsNotFound, st)) ∧
  (posts st !! id = None →
     ∀ updates, plain_keys updates →
                updatePost id updates st = (Err FsNotFound, st)) ∧
  (familyRequests st !! id = None →
     rejectFamilyRequest id st = (Err FsNotFound, st)) ∧
  (notifications st !! id = None →
     markNotificationAsRead id st = (Err FsNotFound, st)).
Proof.
  intros Hid%segment_nonempty. split_and!; intros Hnone; try split_and!; intros;
    unfold promoteToAdmin, demoteFromAdmin, updateUserProfile, updateFamily,
      updatePost, rejectFamilyRequest, markNotificationAsRead;
    fs_simpl; rewrite docRef_ok by done; by apply updateDoc_missing.
Qed.

Lemma update_only_functions_fail_witness :
  promoteToAdmin "nobody" example_store = (Err FsNotFound, example_store).
Proof.
  refine (proj1 (proj1
    (update_only_functions_fail example_store "nobody" _) _)).
  - reflexivity.
  - reflexivity.
Defined.

(** ** Creating a profile *)

Lemma createUserProfile_joined st U ud F :
  U ≠ "" → F ≠ "" → pu_familyId ud = Some F →
  createUserProfile U ud st =
    (Ok (profile_payload U ud),
     after (createNotification (profile_joined ud U))
       (after (updateDoc Families F (count_by 1))
          (after (setDocMerge Users U (profile_payload U ud)) st))).
Proof.
  intros HU HF Hfam. unfold createUserProfile, after. fs_simpl.
  rewrite docRef_ok by done. rewrite setDocMerge_run. cbn [fst snd].
  rewrite Hfam. cbn [of_opt_str truthy docRefV].
  rewrite (eqb_ne F "") by done. cbn [negb].
  by rewrite docRef_ok.
Qed.

Lemma createUserProfile_effect st U ud F d :
  U ≠ "" → F ≠ "" → pu_familyId ud = Some F → families st !! F = Some d →
  let st' := after (createUserProfile U ud) st in
  outcome (createUserProfile U ud) st = Ok (profile_payload U ud) ∧
  (∃ u, users st' = <[U := u]> (users st) ∧
        u !! "familyId" = Some (VStr F) ∧
        u !! "role" = Some (VStr (role_name (default member (pu_role ud))))) ∧
  (∃ d', families st' = <[F := d']> (families st) ∧
         memberCount d' = (memberCount d + 1)%Z) ∧
  (∃ nid n, notifications st !! nid = None ∧
            notifications st' = <[nid := n]> (notifications st) ∧
            n !! "type" = Some (VStr "general") ∧
            n !! "familyId" = Some (VStr F)).
Proof.
  intros HU HF Hfam Hd st'.
  destruct (run_eq _ _ _ _ (createUserProfile_joined st U ud F HU HF Hfam))
    as [Hout Haft].
  subst st'. rewrite Hout, !Haft. split; [done|].
  unfold createNotification. fold_coll. split_and!.
  - rewrite addDoc_other, (updateDoc_other Families Users), setDocMerge_same by done.
    eexists. split; [done|]. rewrite !lookup_apply_payload.
    rewrite !(lookup_insert_ne _ _ "familyId"), lookup_insert_eq by done.
    rewrite !(lookup_insert_ne _ _ "role"), lookup_insert_eq by done.
    by rewrite Hfam.
  - rewrite addDoc_other, updateDoc_same, (setDocMerge_other Users Families) by done.
    rewrite Hd. eexists. split; [done|]. apply memberCount_increment.
  - eexists _, _. rewrite addDoc_same.
    rewrite (updateDoc_other Families Notifications),
      (setDocMerge_other Users Notifications) by done.
    split; [apply auto_id_fresh|]. split; [done|].
    rewrite !lookup_apply_payload. unfold spread, join_notification.
    rewrite !lookup_insert_ne, !lookup_fmap by done.
    rewrite lookup_insert_eq.
    rewrite !(lookup_insert_ne _ _ "type"), lookup_insert_eq by done.
    by rewrite Hfam.
Qed.

(** X8. A profile created with a family joins it at once: for a user id
    of one segment and an existing family whose counter is in the range
    where the store adds exactly, [createUserProfile] returns the payload,
    stores the record with that familyId and the given role (member by
    default), raises the family's counter by one and adds one notification
    of type 'general' for the family. *)
Theorem createUserProfile_joins_family st U ud F d :
  wf_store st → segment U = true → pu_familyId ud = Some F →
  families st !! F = Some d → safe_count (memberCount d) = true →
  let st' := after (createUserProfile U ud) st in
  outcome (createUserProfile U ud) st = Ok (profile_payload U ud) ∧
  (∃ u, users st' = <[U := u]> (users st) ∧
        u !! "familyId" = Some (VStr F) ∧
        u !! "role" = Some (VStr (role_name (default member (pu_role ud))))) ∧
  (∃ d', families st' = <[F := d']> (families st) ∧
         memberCount d' = (memberCount d + 1)%Z) ∧
  (∃ nid n, notifications st !! nid = None ∧
            notifications st' = <[nid := n]> (notifications st) ∧
            n !! "type" = Some (VStr "general") ∧
            n !! "familyId" = Some (VStr F)).
Proof.
  intros Hwf HU%segment_nonempty Hfam Hd _.
  pose proof (wf_key_nonempty Families _ _ _ Hwf Hd) as HF.
  by apply createUserProfile_effect.
Qed.

Lemma createUserProfile_joins_family_witness :
  outcome (createUserProfile "u1" ann) two_families = Ok (profile_payload "u1" ann).
Proof.
  refine (proj1 (createUserProfile_joins_family two_families "u1" ann "grace"
                   (the_doc (families two_families) "grace") _ _ _ _ _)).
  - intros []; reflexivity.
  - reflexivity.
  - reflexivity.
  - reflexivity.
  - reflexivity.
Defined.

(** X9. Creating the same profile twice counts the member twice: for a
    user id of one segment and an existing family whose counter stays,
    through both calls, in the range where the store adds exactly, the
    counter ends two higher while the family has as many members after
    the second call as after the first. *)
Theorem createUserProfile_twice_counts_twice st U ud F d :
  wf_store st → segment U = true → pu_familyId ud = Some F →
  families st !! F = Some d →
  safe_count (memberCount d) = true → safe_count (memberCount d + 1) = true →
  let s1 := after (createUserProfile U ud) st in
  let s2 := after (createUserProfile U ud) s1 in
  (∃ d2, families s2 !! F = Some d2 ∧ memberCount d2 = (memberCount d + 2)%Z) ∧
  length (members F s2) = length (members F s1).
Proof.
  intros Hwf HU%segment_nonempty Hfam Hd _ _ s1 s2.
  pose proof (wf_key_nonempty Families _ _ _ Hwf Hd) as HF.
  destruct (createUserProfile_effect st U ud F d HU HF Hfam Hd)
    as (_ & (u1 & Hus1 & Hf1 & _) & (d1 & Hfs1 & Hc1) & _).
  fold s1 in Hus1, Hfs1.
  assert (families s1 !! F = Some d1) as Hd1 by by rewrite Hfs1, lookup_insert_eq.
  assert (users s1 !! U = Some u1) as Hu1 by by rewrite Hus1, lookup_insert_eq.
  destruct (createUserProfile_effect s1 U ud F d1 HU HF Hfam Hd1)
    as (_ & (u2 & Hus2 & Hf2 & _) & (d2 & Hfs2 & Hc2) & _).
  fold s2 in Hus2, Hfs2. split.
  - exists d2. rewrite Hfs2, lookup_insert_eq. split; [done|]. lia.
  - unfold members. rewrite Hus2.
    pose proof (matching_insert_over (where_eq "familyId" F) (users s1) U u1 u2 Hu1)
      as Hm.
    unfold where_eq in Hm at 2 4. rewrite Hf1, Hf2 in Hm. lia.
Qed.

Lemma createUserProfile_twice_counts_twice_witness :
  length (members "grace"
            (after (createUserProfile "u1" ann)
               (after (createUserProfile "u1" ann) two_families)))
  = length (members "grace" (after (createUserProfile "u1" ann) two_families)).
Proof.
  refine (proj2 (createUserProfile_twice_counts_twice two_families "u1" ann "grace"
                   (the_doc (families two_families) "grace") _ _ _ _ _ _)).
  - intros []; reflexivity.
  - reflexivity.
  - reflexivity.
  - reflexivity.
  - reflexivity.
  - reflexivity.
Defined.

(** ** Posts, likes and comments together *)

Lemma without_user_snoc U l :
  like_count U l = 0 → without_user U (l ++ [VStr U]) = l.
Proof.
  intros Hl. unfold without_user. rewrite List.filter_app.
  cbn [List.filter]. rewrite is_str_refl. cbn [negb].
  rewrite app_nil_r. by apply without_user_absent.
Qed.

(** X10. Liking and then unliking puts the likes back. *)
Theorem likePost_then_unlikePost st P post l U :
  wf_store st → posts st !! P = Some post → likes_of post = Some l →
  like_count U l = 0 →
  let liked := after (likePost P U) st in
  let back := after (unlikePost P U) liked in
  (∃ p1, posts liked !! P = Some p1 ∧ likes_of p1 = Some (l ++ [VStr U])) ∧
  (∃ p2, posts back !! P = Some p2 ∧ likes_of p2 = Some l ∧
         ∀ k, k ≠ "likes" → p2 !! k = post !! k).
Proof.
  intros Hwf Hp Hl Hcount liked back.
  pose proof (wf_key_nonempty Posts _ _ _ Hwf Hp) as HP.
  pose proof (likePost_found st P post l U HP Hp Hl) as Hrun.
  rewrite (proj2 (like_count_existsb U l) Hcount) in Hrun.
  apply run_eq in Hrun as [_ Haft]. fold liked in Haft.
  destruct (post_after_set_likes st P post (l ++ [VStr U]) Hp) as (p1 & Hp1 & Hl1).
  destruct (post_frame_likes st P post (VArr (l ++ [VStr U])) Hp) as (p1' & Hp1' & Hfr1).
  rewrite <- Haft in Hp1, Hp1'. rewrite Hp1 in Hp1'. injection Hp1' as <-.
  split; [eauto|].
  destruct (run_eq _ _ _ _ (unlikePost_found liked P p1 _ U HP Hp1 Hl1)) as [_ Haft2].
  fold back in Haft2. rewrite without_user_snoc in Haft2 by done.
  destruct (post_after_set_likes liked P p1 l Hp1) as (p2 & Hp2 & Hl2).
  destruct (post_frame_likes liked P p1 (VArr l) Hp1) as (p2' & Hp2' & Hfr2).
  rewrite <- Haft2 in Hp2, Hp2'. rewrite Hp2 in Hp2'. injection Hp2' as <-.
  exists p2. split_and!; try done. intros k Hk. by rewrite Hfr2, Hfr1.
Qed.

Lemma likePost_then_unlikePost_witness :
  ∃ p2, posts (after (unlikePost "0" "u1") (after (likePost "0" "u1") example_store))
          !! "0" = Some p2 ∧
        likes_of p2 = Some [] ∧
        ∀ k, k ≠ "likes" → p2 !! k = the_doc (posts example_store) "0" !! k.
Proof.
  refine (proj2 (likePost_then_unlikePost example_store "0"
                   (the_doc (posts example_store) "0") [] "u1"
                   example_store_wf _ _ _)).
  - reflexivity.
  - reflexivity.
  - reflexivity.
Defined.

Lemma remove_by_id_absent cid l :
  Forall (λ c, has_id cid c = false) l → remove_by_id cid l = l.
Proof.
  unfold remove_by_id. induction 1 as [|c l Hc _ IH]; [done|].
  cbn [List.filter]. rewrite Hc. cbn [negb]. by rewrite IH.
Qed.

Lemma post_frame_comments st P post v :
  posts st !! P = Some post →
  ∃ p', posts (after (updateDoc Posts P (<["comments" := Lit v]> ∅)) st) !! P = Some p' ∧
        p' !! "comments" = Some v ∧
        ∀ k, k ≠ "comments" → p' !! k = post !! k.
Proof.
  intros Hp. fold_coll. rewrite updateDoc_same, Hp, lookup_insert_eq.
  eexists. split; [done|]. split.
  - by rewrite lookup_apply_payload, lookup_insert_eq.
  - intros k Hk. by rewrite lookup_apply_payload, lookup_insert_ne.
Qed.

(** X11. [addComment] appends exactly one comment after the existing
    ones: the caller's fields, createdAt set to the caller's clock reading,
    and the caller's id, or the clock reading as a string when the comment
    carries none; no other field of the post changes. *)
Theorem addComment_appends st P post l (c : doc) now :
  wf_store st → posts st !! P = Some post → comments_of post = Some l →
  outcome (addComment P c now) st = Ok () ∧
  ∃ p' o, posts (after (addComment P c now) st) !! P = Some p' ∧
          comments_of p' = Some (l ++ [VObj o]) ∧
          o !! "createdAt" = Some (VTime now) ∧
          o !! "id" = Some (default (VStr (pretty now)) (c !! "id")) ∧
          (∀ k, k ≠ "createdAt" → k ≠ "id" → o !! k = c !! k) ∧
          (∀ k, k ≠ "comments" → p' !! k = post !! k).
Proof.
  intros Hwf Hp Hl.
  pose proof (wf_key_nonempty Posts _ _ _ Hwf Hp) as HP.
  destruct (run_eq _ _ _ _ (addComment_found st P post l c now HP Hp Hl))
    as [Hout Haft].
  rewrite Hout, Haft. split; [done|].
  destruct (post_frame_comments st P post
              (VArr (l ++ [VObj (<["createdAt" := VTime now]>
                                  (c ∪ {["id" := VStr (pretty now)]}))])) Hp)
    as (p' & Hp' & Hc' & Hfr).
  exists p', (<["createdAt" := VTime now]> (c ∪ {["id" := VStr (pretty now)]})).
  split_and!; try done.
  - unfold comments_of. by rewrite Hc'.
  - by rewrite lookup_insert_eq.
  - rewrite lookup_insert_ne by done. rewrite lookup_union.
    rewrite lookup_singleton_eq. by destruct (c !! "id").
  - intros k Hk1 Hk2. rewrite lookup_insert_ne by done.
    rewrite lookup_union, lookup_singleton_ne by done.
    by destruct (c !! k).
Qed.

Lemma addComment_appends_witness :
  outcome (addComment "0" (<["content" := VStr "Amen"]> ∅) 17) example_store = Ok ().
Proof.
  refine (proj1 (addComment_appends example_store "0"
                   (the_doc (posts example_store) "0") []
                   (<["content" := VStr "Amen"]> ∅) 17 example_store_wf _ _)).
  - reflexivity.
  - reflexivity.
Defined.

(** X12. Adding a comment and deleting it by its id puts the comments
    back. *)
Theorem addComment_then_deleteComment st P post l (c : doc) now :
  wf_store st → posts st !! P = Some post → comments_of post = Some l →
  VNull ∉ l → c !! "id" = None →
  Forall (λ x, has_id (pretty now) x = false) l →
  ∃ p2, posts (after (deleteComment P (pretty now)) (after (addComment P c now) st))
          !! P = Some p2 ∧
        comments_of p2 = Some l ∧
        ∀ k, k ≠ "comments" → p2 !! k = post !! k.
Proof.
  intros Hwf Hp Hl Hnull Hc Hfresh.
  pose proof (wf_key_nonempty Posts _ _ _ Hwf Hp) as HP.
  set (o := VObj (<["createdAt" := VTime now]> (c ∪ {["id" := VStr (pretty now)]}))).
  destruct (run_eq _ _ _ _ (addComment_found st P post l c now HP Hp Hl)) as [_ Haft].
  fold o in Haft.
  destruct (post_frame_comments st P post (VArr (l ++ [o])) Hp) as (p1 & Hp1 & Hc1 & Hfr1).
  rewrite <- Haft in Hp1.
  assert (comments_of p1 = Some (l ++ [o])) as Hl1
    by (unfold comments_of; by rewrite Hc1).
  assert (VNull ∉ l ++ [o]) as Hnull1.
  { rewrite elem_of_app, elem_of_cons, elem_of_nil. intros [?|[?|[]]]; done. }
  destruct (run_eq _ _ _ _
              (deleteComment_found _ P p1 (l ++ [o]) (pretty now) HP Hp1 Hl1 Hnull1))
    as [_ Haft2].
  rewrite remove_by_id_app, (remove_by_id_absent _ l Hfresh) in Haft2.
  assert (remove_by_id (pretty now) [o] = []) as Hone.
  { pose proof (new_comment_has_id c now Hc) as Ho. fold o in Ho.
    unfold remove_by_id. cbn [List.filter]. by rewrite Ho. }
  rewrite Hone, app_nil_r in Haft2.
  destruct (post_frame_comments _ P p1 (VArr l) Hp1) as (p2 & Hp2 & Hc2 & Hfr2).
  rewrite <- Haft2 in Hp2. exists p2. split_and!; try done.
  - unfold comments_of. by rewrite Hc2.
  - intros k Hk. by rewrite Hfr2, Hfr1.
Qed.

Lemma addComment_then_deleteComment_witness :
  ∃ p2, posts (after (deleteComment "0" (pretty 17%N))
                 (after (addComment "0" (<["content" := VStr "Amen"]> ∅) 17)
                    example_store)) !! "0" = Some p2 ∧
        comments_of p2 = Some [] ∧
        ∀ k, k ≠ "comments" → p2 !! k = the_doc (posts example_store) "0" !! k.
Proof.
  refine (addComment_then_deleteComment example_store "0"
            (the_doc (posts example_store) "0") []
            (<["content" := VStr "Amen"]> ∅) 17 example_store_wf _ _ _ _ _).
  - reflexivity.
  - reflexivity.
  - apply not_elem_of_nil.
  - reflexivity.
  - constructor.
Defined.

(** X13. A new post starts empty, whatever the caller passes. *)
Theorem createPost_starts_empty st (post : doc) U :
  ∃ pid p,
    outcome (createPost post) st = Ok pid ∧ pid ≠ "" ∧
    posts st !! pid = None ∧
    posts (after (createPost post) st) = <[pid := p]> (posts st) ∧
    likes_of p = Some [] ∧ comments_of p = Some [] ∧
    p !! "createdAt" = Some (VTime (clock st)) ∧
    (∀ k, k ≠ "likes" → k ≠ "comments" → k ≠ "createdAt" → p !! k = post !! k) ∧
    ∃ p1, posts (after (likePost pid U) (after (createPost post) st)) !! pid = Some p1 ∧
          likes_of p1 = Some [VStr U].
Proof.
  eexists (auto_id (posts st)), _.
  assert (posts (after (createPost post) st)
          = <[auto_id (posts st) :=
                apply_payload (clock st)
                  (<["createdAt" := ServerTimestamp]>
                     (<["comments" := Lit (VArr [])]>
                        (<["likes" := Lit (VArr [])]> (spread post)))) ∅]> (posts st))
    as Hposts.
  { unfold createPost. fold_coll. by rewrite addDoc_same. }
  destruct (createPost_no_likes st post) as (p0 & Hp0 & Hl0).
  pose proof Hp0 as Hp0'. rewrite Hposts, lookup_insert_eq in Hp0'.
  injection Hp0' as <-.
  split_and!; try done.
  - apply auto_id_nonempty.
  - apply auto_id_fresh.
  - unfold comments_of. rewrite lookup_apply_payload.
    by rewrite lookup_insert_ne, lookup_insert_eq.
  - rewrite lookup_apply_payload. by rewrite lookup_insert_eq.
  - intros k Hk1 Hk2 Hk3. rewrite lookup_apply_payload.
    rewrite !lookup_insert_ne by done. unfold spread.
    rewrite lookup_fmap, lookup_empty. by destruct (post !! k).
  - pose proof (likePost_found _ _ _ [] U (auto_id_nonempty (posts st)) Hp0 Hl0)
      as Hrun.
    cbn [existsb app] in Hrun. apply run_eq in Hrun as [_ ->].
    by apply (post_after_set_likes _ _ _ [VStr U] Hp0).
Qed.

(** ** Notifications, requests and families *)

Lemma markNotificationAsRead_found st N n :
  N ≠ "" → notifications st !! N = Some n →
  markNotificationAsRead N st
  = (Ok (), after (updateDoc Notifications N read_payload) st).
Proof.
  intros HN Hn. unfold markNotificationAsRead, after. fs_simpl.
  rewrite docRef_ok by done.
  by rewrite (updateDoc_ok Notifications N _ st n Hn).
Qed.

Lemma apply_read_payload_id now (n : doc) :
  n !! "isRead" = Some (VBool true) → apply_payload now read_payload n = n.
Proof.
  intros Hn. apply map_eq. intros k. rewrite lookup_apply_payload.
  destruct (decide (k = "isRead")) as [->|Hk].
  - by rewrite lookup_insert_eq, Hn.
  - by rewrite lookup_insert_ne.
Qed.

(** X14. [markNotificationAsRead] on an existing notification sets isRead
    to true and changes no other field and no other notification; a second
    call succeeds and leaves the collection as it is. *)
Theorem markNotificationAsRead_marks st N n :
  wf_store st → notifications st !! N = Some n →
  let st' := after (markNotificationAsRead N) st in
  outcome (markNotificationAsRead N) st = Ok () ∧
  (∃ n', notifications st' = <[N := n']> (notifications st) ∧
         n' !! "isRead" = Some (VBool true) ∧
         ∀ k, k ≠ "isRead" → n' !! k = n !! k) ∧
  outcome (markNotificationAsRead N) st' = Ok () ∧
  notifications (after (markNotificationAsRead N) st') = notifications st'.
Proof.
  intros Hwf Hn st'.
  pose proof (wf_key_nonempty Notifications _ _ _ Hwf Hn) as HN.
  destruct (run_eq _ _ _ _ (markNotificationAsRead_found st N n HN Hn)) as [Hout Haft].
  assert (notifications st' = <[N := apply_payload (clock st) read_payload n]>
                                (notifications st)) as Hnot.
  { subst st'. rewrite Haft. fold_coll. by rewrite updateDoc_same, Hn. }
  assert (apply_payload (clock st) read_payload n !! "isRead" = Some (VBool true))
    as Hread by by rewrite lookup_apply_payload, lookup_insert_eq.
  assert (notifications st' !! N = Some (apply_payload (clock st) read_payload n))
    as Hn' by by rewrite Hnot, lookup_insert_eq.
  destruct (run_eq _ _ _ _ (markNotificationAsRead_found st' N _ HN Hn'))
    as [Hout2 Haft2].
  split; [done|]. split_and!.
  - eexists. split; [done|]. split; [done|]. intros k Hk.
    by rewrite lookup_apply_payload, lookup_insert_ne.
  - done.
  - rewrite Haft2. fold_coll. rewrite updateDoc_same, Hn'.
    rewrite apply_read_payload_id by done. by apply insert_id.
Qed.

Lemma markNotificationAsRead_marks_witness :
  outcome (markNotificationAsRead "0")
    (after (markNotificationAsRead "0") bob_joined) = Ok ().
Proof.
  refine (proj1 (proj2 (proj2
    (markNotificationAsRead_marks bob_joined "0"
       (the_doc (notifications bob_joined) "0") _ _)))).
  - intros []; reflexivity.
  - reflexivity.
Defined.

Lemma rejectFamilyRequest_found st R req :
  R ≠ "" → familyRequests st !! R = Some req →
  rejectFamilyRequest R st
  = (Ok (), after (updateDoc FamilyRequests R reject_payload) st).
Proof.
  intros HR Hreq. unfold rejectFamilyRequest, after. fs_simpl.
  rewrite docRef_ok by done.
  by rewrite (updateDoc_ok FamilyRequests R _ st req Hreq).
Qed.

Lemma rejectFamilyRequest_once st R req :
  wf_store st → familyRequests st !! R = Some req →
  let st' := after (rejectFamilyRequest R) st in
  outcome (rejectFamilyRequest R) st = Ok () ∧
  (∃ req', familyRequests st' !! R = Some req' ∧
           req' !! "status" = Some (VStr "rejected") ∧
           req' !! "reviewedAt" = Some (VTime (clock st)) ∧
           ∀ k, k ≠ "status" → k ≠ "reviewedAt" → req' !! k = req !! k) ∧
  families st' = families st.
Proof.
  intros Hwf Hreq st'.
  pose proof (wf_key_nonempty FamilyRequests _ _ _ Hwf Hreq) as HR.
  destruct (run_eq _ _ _ _ (rejectFamilyRequest_found st R req HR Hreq)) as [Hout Haft].
  subst st'. rewrite Hout, !Haft. split; [done|]. fold_coll. split.
  - rewrite updateDoc_same, Hreq, lookup_insert_eq. eexists. split; [done|].
    rewrite !lookup_apply_payload, lookup_insert_eq.
    rewrite lookup_insert_ne, lookup_insert_eq by done.
    split; [done|]. split; [done|]. intros k Hk1 Hk2.
    by rewrite lookup_apply_payload, !lookup_insert_ne.
  - by rewrite updateDoc_other.
Qed.

(** X15. [rejectFamilyRequest] on an existing request records status
    'rejected' and the review time, keeps the request's other fields and
    creates no family; nothing guards an approved request, which is marked
    rejected all the same while the family made by the approval stays. *)
Theorem rejectFamilyRequest_rejects st R req fd :
  wf_store st → familyRequests st !! R = Some req →
  truthy_opt (default req fd !! "id") = false →
  let st' := after (rejectFamilyRequest R) st in
  let approved := after (approveFamilyRequest R fd) st in
  outcome (rejectFamilyRequest R) st = Ok () ∧
  (∃ req', familyRequests st' !! R = Some req' ∧
           req' !! "status" = Some (VStr "rejected") ∧
           req' !! "reviewedAt" = Some (VTime (clock st)) ∧
           ∀ k, k ≠ "status" → k ≠ "reviewedAt" → req' !! k = req !! k) ∧
  families st' = families st ∧
  outcome (rejectFamilyRequest R) approved = Ok () ∧
  (∃ req2, familyRequests (after (rejectFamilyRequest R) approved) !! R = Some req2 ∧
           req2 !! "status" = Some (VStr "rejected")) ∧
  (∃ fid fam, families st !! fid = None ∧
              families (after (rejectFamilyRequest R) approved)
              = <[fid := fam]> (families st)).
Proof.
  intros Hwf Hreq Hid st' approved.
  destruct (rejectFamilyRequest_once st R req Hwf Hreq) as (Hok & Hrec & Hfam).
  destruct (approveFamilyRequest_once st R req fd Hwf Hreq Hid)
    as (_ & Hwf1 & (req1 & Hreq1 & _) & (fid & fam & Hfresh & Hfams & _)).
  fold approved in Hwf1, Hreq1, Hfams.
  destruct (rejectFamilyRequest_once approved R req1 Hwf1 Hreq1)
    as (Hok2 & (req2 & Hreq2 & Hst2 & _) & Hfam2).
  split_and!; try done.
  - eauto.
  - exists fid, fam. split; [done|]. by rewrite Hfam2.
Qed.

Lemma rejectFamilyRequest_rejects_witness :
  families (after (rejectFamilyRequest "0") example_store) = families example_store.
Proof.
  refine (proj1 (proj2 (proj2
    (rejectFamilyRequest_rejects example_store "0"
       (the_doc (familyRequests example_store) "0") None example_store_wf _ _)))).
  - reflexivity.
  - reflexivity.
Defined.

(** X16. Deleting a family leaves its members behind: only the family
    document goes, users, posts and notifications are unchanged, so a
    member's familyId now names no family; removing that member afterwards
    still succeeds and changes no family. *)
Theorem deleteFamily_no_cascade st F d U u :
  wf_store st → families st !! F = Some d →
  users st !! U = Some u → u !! "familyId" = Some (VStr F) →
  let st' := after (deleteFamily F) st in
  outcome (deleteFamily F) st = Ok () ∧
  families st' = delete F (families st) ∧
  users st' = users st ∧ posts st' = posts st ∧
  notifications st' = notifications st ∧
  ¬ family_ref_ok st' u ∧
  outcome (removeMemberFromFamily U) st' = Ok () ∧
  families (after (removeMemberFromFamily U) st') = families st'.
Proof.
  intros Hwf Hd Hu Hfam st'.
  pose proof (wf_key_nonempty Families _ _ _ Hwf Hd) as HF.
  pose proof (wf_key_nonempty Users _ _ _ Hwf Hu) as HU.
  assert (deleteFamily F st = (Ok (), after (deleteDoc Families F) st)) as Hrun.
  { unfold deleteFamily, after. fs_simpl. by rewrite docRef_ok. }
  apply run_eq in Hrun as [Hout Haft]. subst st'. rewrite Hout, !Haft.
  set (st' := after (deleteDoc Families F) st).
  assert (families st' = delete F (families st)) as Hfams.
  { subst st'. fold_coll. by rewrite deleteDoc_same. }
  assert (users st' = users st) as Hus.
  { subst st'. fold_coll. by rewrite deleteDoc_other. }
  assert (users st' !! U = Some u) as Hu' by by rewrite Hus.
  assert (removeMemberFromFamily U st' =
          (Ok (), after (updateDoc Families F (count_by (-1)))
                    (after (updateDoc Users U (set_family VNull)) st'))) as Hrun.
  { unfold removeMemberFromFamily.
    rewrite (updateUserFamily_found st' U u) by done. cbn [of_opt_str].
    rewrite Hfam. cbn [nullish_or].
    rewrite leave_previous_run, enter_new_skip by (done || by left).
    reflexivity. }
  apply run_eq in Hrun as [Hout2 Haft2].
  split; [done|]. split_and!; try done.
  - unfold family_ref_ok. rewrite Hfam, Hfams.
    intros [?|[[= ?]|(G & [= <-] & HS)]]; try done.
    rewrite lookup_delete_eq in HS. by destruct HS.
  - rewrite Haft2. fold_coll.
    rewrite updateDoc_same, (updateDoc_other Users Families) by done.
    by rewrite Hfams, lookup_delete_eq.
Qed.

Lemma deleteFamily_no_cascade_witness :
  users (after (deleteFamily "grace") example_store) = users example_store.
Proof.
  refine (proj1 (proj2 (proj2
    (deleteFamily_no_cascade example_store "grace"
       (the_doc (families example_store) "grace") "u1"
       (the_doc (users example_store) "u1") example_store_wf _ _ _)))).
  - reflexivity.
  - reflexivity.
  - reflexivity.
Defined.

(** X17. [createFamily] under an id that is taken merges into that family
    and sets its counter anew: with data that hold no map, the given
    fields overwrite, the others are kept, createdAt is set anew and
    memberCount becomes the given count, 0 when none is given. *)
Theorem createFamily_existing_id_resets_count st (data : doc) I old :
  data !! "id" = Some (VStr I) → segment I = true → flat data →
  families st !! I = Some old →
  let st' := after (createFamily data) st in
  outcome (createFamily data) st = Ok I ∧
  users st' = users st ∧
  ∃ d', families st' = <[I := d']> (families st) ∧
        d' !! "memberCount" = Some (nullish_or (data !! "memberCount") (VNum 0)) ∧
        d' !! "createdAt" = Some (VTime (clock st)) ∧
        ∀ k, k ≠ "memberCount" → k ≠ "createdAt" →
             d' !! k = match data !! k with Some v => Some v | None => old !! k end.
Proof.
  intros Hid HI%segment_nonempty _ Hold st'.
  assert (createFamily data st
          = (Ok I, after (setDocMerge Families I (family_payload data)) st)) as Hrun.
  { unfold createFamily, after. rewrite Hid. cbn [truthy_opt truthy].
    rewrite (eqb_ne I "") by done. cbn [negb docRefV]. fs_simpl.
    rewrite docRef_ok by done. by rewrite setDocMerge_run. }
  apply run_eq in Hrun as [Hout Haft]. subst st'. rewrite Hout, !Haft.
  split; [done|]. fold_coll.
  rewrite setDocMerge_same, setDocMerge_other, Hold by done. cbn [default].
  split; [done|]. eexists. split; [done|]. split_and!.
  - rewrite lookup_apply_payload.
    by rewrite lookup_insert_ne, lookup_insert_eq.
  - by rewrite lookup_apply_payload, lookup_insert_eq.
  - intros k Hk1 Hk2. rewrite lookup_apply_payload.
    rewrite !lookup_insert_ne by done. unfold spread. rewrite lookup_fmap.
    by destruct (data !! k).
Qed.

Lemma createFamily_existing_id_resets_count_witness :
  outcome (createFamily (<["id" := VStr "grace"]> ∅)) example_store = Ok "grace".
Proof.
  refine (proj1 (createFamily_existing_id_resets_count example_store
                   (<["id" := VStr "grace"]> ∅) "grace"
                   (the_doc (families example_store) "grace") _ _ _ _)).
  - reflexivity.
  - reflexivity.
  - refine (bool_decide_unpack _ _). vm_compute. reflexivity.
  - reflexivity.
Defined.

(** ** The default families *)

Lemma or_else_ok {A} (m : M A) (d : A) s a :
  outcome m s = Ok a →
  outcome (or_else m d) s = Ok a ∧ after (or_else m d) s = after m s.
Proof.
  unfold outcome, after, or_else. destruct (m s) as [[a'|e] s']; cbn [fst snd].
  - by intros [= ->].
  - discriminate.
Qed.

Lemma set_families_cons id p l s :
  id ≠ "" →
  set_families ((id, p) :: l) s
  = set_families l (after (setDocMerge Families id p) s).
Proof.
  intros Hid. cbn [set_families]. unfold bind at 1. rewrite docRef_ok by done.
  unfold bind. by rewrite setDocMerge_run.
Qed.

(** The loop of [initializeFamilies] over any array of entries. *)
Lemma set_families_spec l : ∀ s,
  Forall (λ e, e.1 ≠ "") l →
  outcome (set_families l) s = Ok () ∧
  users (after (set_families l) s) = users s ∧
  (∀ K, K ∉ l.*1 → families (after (set_families l) s) !! K = families s !! K) ∧
  (∀ K, K ∈ l.*1 →
        ∃ d, families (after (set_families l) s) !! K = Some d ∧
             ∀ k v, (∀ p, (K, p) ∈ l → p !! k = Some (Lit v)) → d !! k = Some v).
Proof.
  induction l as [|[id p] l IH]; intros s Hl.
  - split; [done|]. split; [done|]. split; [done|].
    intros K HK. by apply elem_of_nil in HK.
  - apply Forall_cons in Hl as [Hid Hl]. cbn [fst] in Hid.
    unfold outcome, after. rewrite set_families_cons by done.
    set (s1 := after (setDocMerge Families id p) s).
    destruct (IH s1 Hl) as (Hok & Hus & Hout & Hin).
    assert (users s1 = users s) as Hus1.
    { subst s1. fold_coll. by rewrite setDocMerge_other. }
    assert (families s1 = <[id := apply_payload (clock s) p
                                    (default ∅ (families s !! id))]> (families s))
      as Hfam1.
    { subst s1. fold_coll. by rewrite setDocMerge_same. }
    split; [exact Hok|]. split; [by rewrite <- Hus1|]. split.
    + intros K HK. rewrite fmap_cons, not_elem_of_cons in HK.
      destruct HK as [Hne HK]. cbn [fst] in Hne.
      unfold after in Hout. rewrite (Hout K HK), Hfam1.
      by rewrite lookup_insert_ne.
    + intros K HK. destruct (decide (K ∈ l.*1)) as [HKl|HKl].
      * destruct (Hin K HKl) as (d & Hd & Hset). exists d. split; [exact Hd|].
        intros k v Hall. apply Hset. intros p' Hp'. apply Hall. by right.
      * rewrite fmap_cons, elem_of_cons in HK. destruct HK as [->|HK]; [|done].
        cbn [fst] in *. unfold after in Hout. rewrite (Hout id HKl), Hfam1.
        rewrite lookup_insert_eq. eexists. split; [done|].
        intros k v Hall. rewrite lookup_apply_payload.
        by rewrite (Hall p) by by left.
Qed.

Lemma default_families_ids : Forall (λ e : string * payload, e.1 ≠ "") default_families.
Proof. repeat constructor; discriminate. Qed.

Lemma default_families_zero K p :
  (K, p) ∈ default_families → p !! "memberCount" = Some (Lit (VNum 0)).
Proof.
  unfold default_families. rewrite !elem_of_cons, elem_of_nil.
  intros [[= -> ->]|[[= -> ->]|[[= -> ->]|[[= -> ->]|[[= -> ->]|[]]]]]]; reflexivity.
Qed.

Lemma member_counted F s U u :
  users s !! U = Some u → u !! "familyId" = Some (VStr F) →
  (0 < length (members F s))%nat.
Proof.
  intros Hu Hfam.
  assert (In (U, u) (members F s)) as Hin.
  { unfold members. apply filter_In. split.
    - apply list_elem_of_In. by apply elem_of_map_to_list.
    - cbn [snd]. unfold where_eq. rewrite Hfam. cbn [from_option is_str].
      apply String.eqb_refl. }
  destruct (members F s); [destruct Hin|cbn; lia].
Qed.

(** X18. [initializeFamilies] on every load of the family-selection
    screen: it returns normally, leaves the users and every other family
    alone, and sets the counter of each default family to 0; so once a
    user belongs to a default family its counter no longer is the number
    of its members. *)
Theorem initializeFamilies_resets_counters s U u F :
  users s !! U = Some u → u !! "familyId" = Some (VStr F) →
  F ∈ default_families.*1 →
  let s' := after initializeFamilies s in
  outcome initializeFamilies s = Ok () ∧
  users s' = users s ∧
  (∀ K, K ∉ default_families.*1 → families s' !! K = families s !! K) ∧
  (∀ K, K ∈ default_families.*1 →
        ∃ d, families s' !! K = Some d ∧ memberCount d = 0%Z) ∧
  ¬ counters_consistent s'.
Proof.
  intros Hu Hfam HF s'.
  destruct (set_families_spec default_families s default_families_ids)
    as (Hok & Hus & Hout & Hin).
  destruct (or_else_ok (set_families default_families) () s () Hok) as [Hok' Haft].
  subst s'. unfold initializeFamilies. rewrite Hok', Haft.
  assert (∀ K, K ∈ default_families.*1 →
            ∃ d, families (after (set_families default_families) s) !! K = Some d ∧
                 memberCount d = 0%Z) as Hzero.
  { intros K HK. destruct (Hin K HK) as (d & Hd & Hset). exists d.
    split; [exact Hd|]. unfold memberCount.
    rewrite (Hset "memberCount" (VNum 0)); [done|].
    intros p Hp. by apply (default_families_zero K). }
  split; [done|]. split; [exact Hus|]. split; [exact Hout|]. split; [exact Hzero|].
  intros Hcons. destruct (Hzero F HF) as (d & Hd & Hc).
  pose proof (Hcons F d Hd) as Hlen. rewrite Hc in Hlen.
  assert (users (after (set_families default_families) s) !! U = Some u) as Hu'
    by by rewrite Hus.
  pose proof (member_counted F _ U u Hu' Hfam). lia.
Qed.

Lemma initializeFamilies_resets_counters_witness :
  ¬ counters_consistent (after initializeFamilies bob_joined).
Proof.
  refine (proj2 (proj2 (proj2 (proj2
    (initializeFamilies_resets_counters bob_joined "u2"
       (the_doc (users bob_joined) "u2") "hope" _ _ _))))).
  - reflexivity.
  - reflexivity.
  - unfold default_families. rewrite !fmap_cons. cbn [fst].
    rewrite !elem_of_cons. auto 10.
Defined.

(** ** The admin limit *)

Lemma checkAdminLimit_admins F maxAdmins s :
  checkAdminLimit F maxAdmins s
  = (Ok (Z.of_nat (length (admins F s)) <? maxAdmins)%Z, s).
Proof. reflexivity. Qed.

Lemma with_id_lookup id (d : doc) k : k ≠ "id" → with_id id d !! k = d !! k.
Proof.
  intros Hk. unfold with_id. rewrite lookup_union, lookup_singleton_ne by done.
  by destruct (d !! k).
Qed.

Lemma where_eq_with_id field v id (d : doc) :
  field ≠ "id" → where_eq field v (with_id id d) = where_eq field v d.
Proof. intros Hf. unfold where_eq. by rewrite with_id_lookup. Qed.

Lemma where_eq_field field v (d : doc) :
  d !! field = Some (VStr v) → where_eq field v d = true.
Proof.
  intros Hd. unfold where_eq. rewrite Hd. cbn [from_option is_str].
  apply String.eqb_refl.
Qed.

Lemma admins_insert F s U u u' :
  users s !! U = Some u →
  length (List.filter
            (λ kv, where_eq "familyId" F kv.2 && where_eq "role" "admin" kv.2)
            (map_to_list (<[U := u']> (users s))))
  + Nat.b2n (where_eq "familyId" F u && where_eq "role" "admin" u)
  = length (admins F s)
    + Nat.b2n (where_eq "familyId" F u' && where_eq "role" "admin" u').
Proof.
  intros Hu. unfold admins.
  exact (matching_insert_over
           (λ d, where_eq "familyId" F d && where_eq "role" "admin" d)
           (users s) U u u' Hu).
Qed.

(** X19. [promoteToAdmin] does not consult the admin limit: promoting a
    member of a family who is not an admin yet always succeeds and raises
    the number of admins [checkAdminLimit] counts by one, also when
    [checkAdminLimit] already answered false. *)
Theorem promoteToAdmin_ignores_admin_limit st U u F :
  wf_store st → users st !! U = Some u →
  u !! "familyId" = Some (VStr F) → where_eq "role" "admin" u = false →
  let st' := after (promoteToAdmin U) st in
  outcome (promoteToAdmin U) st = Ok () ∧
  length (admins F st') = S (length (admins F st)) ∧
  (∀ maxAdmins,
     outcome (checkAdminLimit F maxAdmins) st'
     = Ok (Z.of_nat (length (admins F st)) + 1 <? maxAdmins)%Z) ∧
  (∀ maxAdmins,
     outcome (checkAdminLimit F maxAdmins) st = Ok false →
     outcome (checkAdminLimit F maxAdmins) st' = Ok false).
Proof.
  intros Hwf Hu Hfam Hrole st'.
  pose proof (wf_key_nonempty Users _ _ _ Hwf Hu) as HU.
  destruct (run_eq _ _ _ _ (promoteToAdmin_found st U u HU Hu)) as [Hout Haft].
  assert (length (admins F st') = S (length (admins F st))) as Hlen.
  { subst st'. rewrite Haft. unfold admins at 1. fold_coll.
    rewrite updateDoc_same, Hu.
    pose proof (admins_insert F st U u
                  (apply_payload (clock st) (set_role "admin") u) Hu) as Hins.
    fold_coll. rewrite Hrole, andb_false_r in Hins.
    replace (where_eq "familyId" F (apply_payload (clock st) (set_role "admin") u))
      with true in Hins.
    2: { unfold where_eq. rewrite lookup_apply_payload, lookup_insert_ne by done.
         rewrite lookup_insert_ne, lookup_empty by done. cbn [merge_field].
         rewrite Hfam. cbn [from_option is_str]. by rewrite String.eqb_refl. }
    replace (where_eq "role" "admin" (apply_payload (clock st) (set_role "admin") u))
      with true in Hins.
    2: { unfold where_eq. by rewrite lookup_apply_payload, lookup_insert_eq. }
    cbn [andb Nat.b2n] in Hins. lia. }
  assert (∀ m, outcome (checkAdminLimit F m) st'
               = Ok (Z.of_nat (length (admins F st)) + 1 <? m)%Z) as Hcheck.
  { intros m. unfold outcome. rewrite checkAdminLimit_admins. cbn [fst].
    rewrite Hlen. do 2 f_equal. lia. }
  split; [done|]. split; [done|]. split; [done|].
  intros m. rewrite Hcheck. unfold outcome. rewrite checkAdminLimit_admins.
  cbn [fst]. intros [= Hm]. f_equal. lia.
Qed.

Lemma promoteToAdmin_ignores_admin_limit_witness :
  length (admins "hope" (after (promoteToAdmin "u2") bob_joined))
  = S (length (admins "hope" bob_joined)).
Proof.
  refine (proj1 (proj2
    (promoteToAdmin_ignores_admin_limit bob_joined "u2"
       (the_doc (users bob_joined) "u2") "hope" _ _ _ _))).
  - intros []; reflexivity.
  - reflexivity.
  - reflexivity.
  - reflexivity.
Defined.

Lemma updateUserFamily_join_run st U u F :
  U ≠ "" → users st !! U = Some u → no_family u → F ≠ "" →
  updateUserFamily U (Some F) st =
    (Ok (), after (createNotification (joined (VStr F) U))
              (after (updateDoc Families F (count_by 1))
                 (after (updateDoc Users U (set_family (VStr F))) st))).
Proof.
  intros HU Hu Hno HF.
  rewrite (updateUserFamily_found st U u) by done. cbn [of_opt_str].
  assert (strict_eq (nullish_or (u !! "familyId") VNull) (VStr F) = false) as Hs.
  { destruct (no_family_prev u Hno) as [-> | ->]; [done|]. by apply eqb_ne. }
  rewrite leave_previous_skip.
  2: { left. by destruct (no_family_prev u Hno) as [-> | ->]. }
  rewrite enter_new_run by done. reflexivity.
Qed.

(** X20. For a signed-in admin without a family and a selected family id
    of one segment, [handleFamilySelect]
    writes nothing and sets the warning exactly when the selected family
    has three or more admins (the limit [checkAdminLimit] defaults to, not
    the two of the message); [handleJoinFamily] then joins the family with
    the role still 'admin', so the family has one admin more. *)
Theorem handleJoinFamily_keeps_admin_role st U u F :
  wf_store st → users st !! U = Some u → no_family u →
  u !! "role" = Some (VStr "admin") → segment F = true →
  let select := handleFamilySelect (user_profile st U) F in
  let warned :=
    {| selectedFamily := F;
       adminLimitWarning :=
         Some "This family already has 2 admins. You will join as a regular member." |} in
  let st' := after (handleJoinFamily warned (SignedIn U)) st in
  after select st = st ∧
  ((3 ≤ length (admins F st))%nat → outcome select st = Ok warned) ∧
  ((length (admins F st) < 3)%nat →
   outcome select st = Ok {| selectedFamily := F; adminLimitWarning := None |}) ∧
  outcome (handleJoinFamily warned (SignedIn U)) st = Ok () ∧
  (∃ u', users st' !! U = Some u' ∧ u' !! "familyId" = Some (VStr F) ∧
         u' !! "role" = Some (VStr "admin")) ∧
  length (admins F st') = S (length (admins F st)).
Proof.
  intros Hwf Hu Hno Hrole HF%segment_nonempty select warned st'.
  pose proof (wf_key_nonempty Users _ _ _ Hwf Hu) as HU.
  assert (select st
          = (Ok (if (Z.of_nat (length (admins F st)) <? 3)%Z
                 then {| selectedFamily := F; adminLimitWarning := None |}
                 else warned), st)) as Hsel.
  { subst select. unfold handleFamilySelect, user_profile. rewrite Hu.
    cbn [fmap option_fmap option_map from_option].
    rewrite where_eq_with_id, (where_eq_field "role" "admin" u Hrole) by done.
    unfold bind. rewrite checkAdminLimit_admins. unfold maxAdmins_default.
    by destruct (Z.of_nat (length (admins F st)) <? 3)%Z. }
  apply run_eq in Hsel as [Hsout Hsaft].
  assert (handleJoinFamily warned (SignedIn U) st = updateUserFamily U (Some F) st)
    as Hjoin.
  { unfold handleJoinFamily, warned. cbn [selectedFamily].
    by rewrite (eqb_ne F "") by done. }
  assert (users (after (updateUserFamily U (Some F)) st)
          = <[U := apply_payload (clock st) (set_family (VStr F)) u]> (users st))
    as Hus by apply (updateUserFamily_members st U u (Some F) HU Hu).
  pose proof (run_eq _ _ _ _ (updateUserFamily_join_run st U u F HU Hu Hno HF))
    as [Hout _].
  assert (apply_payload (clock st) (set_family (VStr F)) u !! "familyId"
          = Some (VStr F)) as Hf
    by by rewrite lookup_apply_payload, lookup_insert_eq.
  assert (apply_payload (clock st) (set_family (VStr F)) u !! "role"
          = Some (VStr "admin")) as Hr.
  { rewrite lookup_apply_payload, !lookup_insert_ne by done.
    by rewrite lookup_empty. }
  split; [done|]. split_and!.
  - intros Hge. rewrite Hsout. destruct (Z.ltb_spec (Z.of_nat (length (admins F st))) 3);
      [lia|done].
  - intros Hlt. rewrite Hsout. destruct (Z.ltb_spec (Z.of_nat (length (admins F st))) 3);
      [done|lia].
  - unfold outcome. by rewrite Hjoin.
  - subst st'. unfold after at 1. rewrite Hjoin.
    change ((updateUserFamily U (Some F) st).2)
      with (after (updateUserFamily U (Some F)) st).
    rewrite Hus, lookup_insert_eq. eauto.
  - subst st'. unfold after at 1. rewrite Hjoin.
    change ((updateUserFamily U (Some F) st).2)
      with (after (updateUserFamily U (Some F)) st).
    unfold admins at 1. rewrite Hus.
    pose proof (admins_insert F st U u
                  (apply_payload (clock st) (set_family (VStr F)) u) Hu) as Hins.
    rewrite (no_family_where u F Hno HF) in Hins.
    rewrite (where_eq_field "familyId" F _ Hf), (where_eq_field "role" "admin" _ Hr)
      in Hins.
    cbn [andb Nat.b2n] in Hins. lia.
Qed.

Lemma handleJoinFamily_keeps_admin_role_witness :
  after (handleFamilySelect (user_profile carol_signed_up "u3") "hope") carol_signed_up
  = carol_signed_up.
Proof.
  refine (proj1
    (handleJoinFamily_keeps_admin_role carol_signed_up "u3"
       (the_doc (users carol_signed_up) "u3") "hope" _ _ _ _ _)).
  - intros []; reflexivity.
  - reflexivity.
  - right; right; reflexivity.
  - reflexivity.
  - reflexivity.
Defined.

(** ** Reading back what was written *)

Lemma getFamily_run F s :
  F ≠ "" → getFamily F s = (Ok (with_id F <$> families s !! F), s).
Proof.
  intros HF. unfold getFamily, or_else. fs_simpl. by rewrite docRef_ok.
Qed.

Lemma getAllFamilies_run s :
  getAllFamilies s = (Ok (map (λ kv, with_id kv.1 kv.2) (map_to_list (families s))), s).
Proof.
  unfold getAllFamilies, or_else, getDocs, docs_with_id. fs_simpl.
  do 2 f_equal. f_equal. induction (map_to_list (families s)) as [|kv l IH]; [done|].
  cbn [List.filter]. by rewrite IH.
Qed.

(** X21. A family created without an id gets a new, non-empty id;
    [getFamily] of that id returns the caller's fields with that id, the
    counter (0 unless given) and the creation time, without writing, and
    [getAllFamilies] lists it, one entry longer than before. *)
Theorem createFamily_then_getFamily st (data : doc) :
  data !! "id" = None →
  let st' := after (createFamily data) st in
  ∃ I d,
    outcome (createFamily data) st = Ok I ∧ I ≠ "" ∧ families st !! I = None ∧
    getFamily I st' = (Ok (Some d), st') ∧
    d !! "id" = Some (VStr I) ∧
    d !! "memberCount" = Some (nullish_or (data !! "memberCount") (VNum 0)) ∧
    d !! "createdAt" = Some (VTime (clock st)) ∧
    (∀ k, k ≠ "id" → k ≠ "memberCount" → k ≠ "createdAt" → d !! k = data !! k) ∧
    ∃ l0 l, getAllFamilies st = (Ok l0, st) ∧ getAllFamilies st' = (Ok l, st') ∧
            d ∈ l ∧ length l = S (length l0).
Proof.
  intros Hid st'.
  assert (truthy_opt (data !! "id") = false) as Hnoid by by rewrite Hid.
  set (I := auto_id (families st)).
  set (doc0 := apply_payload (clock st) (family_payload data) ∅).
  assert (outcome (createFamily data) st = Ok I) as Hout.
  { unfold outcome. by rewrite createFamily_auto. }
  assert (families st' = <[I := doc0]> (families st)) as Hfams.
  { subst st'. unfold after. rewrite createFamily_auto by done.
    change ((addDoc Families (family_payload data) st).2)
      with (after (addDoc Families (family_payload data)) st).
    fold_coll. by rewrite addDoc_same. }
  assert (I ≠ "") as HI by apply auto_id_nonempty.
  assert (families st !! I = None) as Hfresh by apply auto_id_fresh.
  assert (doc0 !! "id" = None) as Hdid.
  { subst doc0. rewrite lookup_apply_payload, !lookup_insert_ne by done.
    unfold spread. by rewrite lookup_fmap, Hid, lookup_empty. }
  exists I, (with_id I doc0). split_and!; try done.
  - rewrite getFamily_run by done. by rewrite Hfams, lookup_insert_eq.
  - unfold with_id. by rewrite lookup_union, Hdid, lookup_singleton_eq.
  - rewrite with_id_lookup by done. subst doc0.
    by rewrite lookup_apply_payload, lookup_insert_ne, lookup_insert_eq.
  - rewrite with_id_lookup by done. subst doc0.
    by rewrite lookup_apply_payload, lookup_insert_eq.
  - intros k Hk1 Hk2 Hk3. rewrite with_id_lookup by done. subst doc0.
    rewrite lookup_apply_payload, !lookup_insert_ne by done.
    unfold spread. rewrite lookup_fmap, lookup_empty. by destruct (data !! k).
  - eexists _, _. split; [apply getAllFamilies_run|].
    split; [apply getAllFamilies_run|]. split.
    + apply (list_elem_of_fmap_2 (λ kv : string * doc, with_id kv.1 kv.2) _ (I, doc0)).
      apply elem_of_map_to_list. by rewrite Hfams, lookup_insert_eq.
    + rewrite !length_map, Hfams.
      by rewrite (Permutation_length (map_to_list_insert _ _ _ Hfresh)).
Qed.

Lemma createFamily_then_getFamily_witness :
  ∃ I, outcome (createFamily (<["name" := VStr "Joy"]> ∅)) two_families = Ok I ∧ I ≠ "".
Proof.
  assert ((<["name" := VStr "Joy"]> ∅ : doc) !! "id" = None) as Hid by reflexivity.
  destruct (createFamily_then_getFamily two_families (<["name" := VStr "Joy"]> ∅) Hid)
    as (I & d & Hout & HI & _).
  exists I. split; [exact Hout|exact HI].
Defined.

(** X22. [updateUserProfile] with a familyId among the updates, all of
    them under plain field names, moves the reference and nothing else:
    the given fields are overwritten, updatedAt is set by the server, no
    counter changes and no notification is written. *)
Theorem updateUserProfile_skips_counters st U u (updates : doc) F :
  wf_store st → users st !! U = Some u → plain_keys updates →
  updates !! "familyId" = Some (VStr F) →
  let st' := after (updateUserProfile U updates) st in
  outcome (updateUserProfile U updates) st = Ok () ∧
  families st' = families st ∧ notifications st' = notifications st ∧
  (∃ u', users st' = <[U := u']> (users st) ∧
         u' !! "familyId" = Some (VStr F) ∧
         u' !! "updatedAt" = Some (VTime (clock st)) ∧
         ∀ k, k ≠ "updatedAt" →
              u' !! k = match updates !! k with Some v => Some v | None => u !! k end) ∧
  (where_eq "familyId" F u = false →
   length (members F st') = S (length (members F st))).
Proof.
  intros Hwf Hu _ Hupd st'.
  pose proof (wf_key_nonempty Users _ _ _ Hwf Hu) as HU.
  assert (updateUserProfile U updates st
          = (Ok (), after (updateDoc Users U (with_updatedAt updates)) st)) as Hrun.
  { unfold updateUserProfile, after. fs_simpl. rewrite docRef_ok by done.
    by rewrite (updateDoc_ok Users U _ st u Hu). }
  apply run_eq in Hrun as [Hout Haft].
  set (u' := apply_payload (clock st) (with_updatedAt updates) u).
  assert (users st' = <[U := u']> (users st)) as Hus.
  { subst st'. rewrite Haft. fold_coll. by rewrite updateDoc_same, Hu. }
  assert (∀ k, k ≠ "updatedAt" →
               u' !! k = match updates !! k with Some v => Some v | None => u !! k end)
    as Hkeep.
  { intros k Hk. subst u'. rewrite lookup_apply_payload, lookup_insert_ne by done.
    unfold spread. rewrite lookup_fmap. by destruct (updates !! k). }
  assert (u' !! "familyId" = Some (VStr F)) as Hf by by rewrite Hkeep, Hupd.
  split; [done|]. split_and!.
  - subst st'. rewrite Haft. fold_coll. by rewrite updateDoc_other.
  - subst st'. rewrite Haft. fold_coll. by rewrite updateDoc_other.
  - exists u'. split_and!; try done. subst u'.
    by rewrite lookup_apply_payload, lookup_insert_eq.
  - intros Hnot. unfold members. rewrite Hus.
    pose proof (matching_insert_over (where_eq "familyId" F) (users st) U u u' Hu)
      as Hm.
    rewrite Hnot, (where_eq_field "familyId" F u' Hf) in Hm. cbn [Nat.b2n] in Hm. lia.
Qed.

Lemma updateUserProfile_skips_counters_witness :
  families (after (updateUserProfile "u2" (<["familyId" := VStr "grace"]> ∅)) bob_joined)
  = families bob_joined.
Proof.
  refine (proj1 (proj2
    (updateUserProfile_skips_counters bob_joined "u2"
       (the_doc (users bob_joined) "u2") (<["familyId" := VStr "grace"]> ∅) "grace"
       _ _ _ _))).
  - intros []; reflexivity.
  - reflexivity.
  - refine (bool_decide_unpack _ _). vm_compute. reflexivity.
  - reflexivity.
Defined.

(** ** Deleting *)

(** X23. [deleteFamily], [deletePost] and [deleteNotification] never
    refuse a missing document: under an id of one segment that names
    nothing they return normally and leave their collection as it is. *)
Theorem delete_functions_accept_missing st id :
  segment id = true →
  (families st !! id = None →
     outcome (deleteFamily id) st = Ok () ∧
     families (after (deleteFamily id) st) = families st) ∧
  (posts st !! id = None →
     outcome (deletePost id) st = Ok () ∧
     posts (after (deletePost id) st) = posts st) ∧
  (notifications st !! id = None →
     outcome (deleteNotification id) st = Ok () ∧
     notifications (after (deleteNotification id) st) = notifications st).
Proof.
  intros Hid%segment_nonempty.
  assert (∀ c, get_coll c st !! id = None →
               get_coll c (after (deleteDoc c id) st) = get_coll c st) as Hdel.
  { intros c Hnone. rewrite deleteDoc_same. by apply delete_id. }
  split_and!; intros Hnone.
  - unfold outcome, after, deleteFamily. fs_simpl. rewrite docRef_ok by done.
    split; [done|]. by apply (Hdel Families).
  - unfold outcome, after, deletePost. fs_simpl. rewrite docRef_ok by done.
    split; [done|]. by apply (Hdel Posts).
  - unfold outcome, after, deleteNotification. fs_simpl. rewrite docRef_ok by done.
    split; [done|]. by apply (Hdel Notifications).
Qed.

Lemma delete_functions_accept_missing_witness :
  outcome (deletePost "p9") two_families = Ok () ∧
  posts (after (deletePost "p9") two_families) = posts two_families.
Proof.
  refine (proj1 (proj2 (delete_functions_accept_missing two_families "p9" _)) _).
  - reflexivity.
  - reflexivity.
Defined.

(** ** Which screen a session shows *)

Lemma deleteUser_no_family st U u :
  U ≠ "" → users st !! U = Some u → no_family u →
  deleteUser U st = deleteDoc Users U st.
Proof.
  intros HU Hu Hno. rewrite deleteUser_run by done. rewrite Hu.
  cbn [mbind option_bind]. by destruct Hno as [-> | [-> | ->]].
Qed.

(** X24. The screen follows the membership: family selection for a user
    without a family, the dashboard once they joined, family selection
    again after a removal and after the deletion of the profile. *)
Theorem AppContent_follows_membership st U u F isAdminPanelOpen :
  wf_store st → users st !! U = Some u → no_family u →
  where_eq "role" "super_admin" u = false → F ≠ "" →
  let joined := after (updateUserFamily U (Some F)) st in
  let removed := after (removeMemberFromFamily U) joined in
  let deleted := after (deleteUser U) st in
  AppContent (SignedIn U) (user_profile st U) isAdminPanelOpen = FamilySelection ∧
  AppContent (SignedIn U) (user_profile joined U) isAdminPanelOpen = FamilyDashboard ∧
  AppContent (SignedIn U) (user_profile removed U) isAdminPanelOpen = FamilySelection ∧
  AppContent (SignedIn U) (user_profile deleted U) isAdminPanelOpen = FamilySelection.
Proof.
  intros Hwf Hu Hno Hrole HF joined removed deleted.
  pose proof (wf_key_nonempty Users _ _ _ Hwf Hu) as HU.
  assert (∀ s v (n : value),
            users s !! U = Some v → where_eq "role" "super_admin" v = false →
            v !! "familyId" = Some n →
            AppContent (SignedIn U) (user_profile s U) isAdminPanelOpen
            = if truthy n then FamilyDashboard else FamilySelection) as Hscreen.
  { intros s v n Hv Hr Hn. unfold AppContent, user_profile. rewrite Hv.
    cbn [fmap option_fmap option_map from_option mbind option_bind].
    rewrite where_eq_with_id, Hr, with_id_lookup, Hn by done.
    cbn [truthy_opt]. by destruct (truthy n). }
  assert (∀ s v new, users s !! U = Some v → where_eq "role" "super_admin" v = false →
            ∃ v', users (after (updateUserFamily U new) s) !! U = Some v' ∧
                  where_eq "role" "super_admin" v' = false ∧
                  v' !! "familyId" = Some (of_opt_str new)) as Hmove.
  { intros s v new Hv Hr.
    destruct (updateUserFamily_members s U v new HU Hv) as [Hus _].
    rewrite Hus, lookup_insert_eq. eexists. split; [done|]. split.
    - unfold where_eq. rewrite lookup_apply_payload, !lookup_insert_ne by done.
      by rewrite lookup_empty.
    - by rewrite lookup_apply_payload, lookup_insert_eq. }
  destruct (Hmove st u (Some F) Hu Hrole) as (u1 & Hu1 & Hr1 & Hf1).
  fold joined in Hu1.
  destruct (Hmove joined u1 None Hu1 Hr1) as (u2 & Hu2 & Hr2 & Hf2).
  split_and!.
  - unfold AppContent, user_profile. rewrite Hu.
    cbn [fmap option_fmap option_map from_option mbind option_bind].
    rewrite where_eq_with_id, Hrole, with_id_lookup by done.
    by destruct Hno as [-> | [-> | ->]].
  - rewrite (Hscreen joined u1 _ Hu1 Hr1 Hf1). cbn [of_opt_str truthy].
    by rewrite (eqb_ne F "") by done.
  - by rewrite (Hscreen removed u2 _ Hu2 Hr2 Hf2).
  - subst deleted. unfold after. rewrite (deleteUser_no_family st U u) by done.
    change ((deleteDoc Users U st).2) with (after (deleteDoc Users U) st).
    unfold AppContent, user_profile. fold_coll.
    by rewrite deleteDoc_same, lookup_delete_eq.
Qed.

Lemma AppContent_follows_membership_witness :
  AppContent (SignedIn "u2")
    (user_profile (after (updateUserFamily "u2" (Some "hope")) bob_signed_up) "u2") true
  = FamilyDashboard.
Proof.
  refine (proj1 (proj2
    (AppContent_follows_membership bob_signed_up "u2"
       (the_doc (users bob_signed_up) "u2") "hope" true _ _ _ _ _))).
  - intros []; reflexivity.
  - reflexivity.
  - right; right; reflexivity.
  - reflexivity.
  - discriminate.
Defined.
